(** * Luxon TMS: the rate-confirmation parsing handlers of
    [api/parse-rateconf.js], embedded and verified.

    The repository keeps three revisions of the endpoint in one file:
    - the token-authenticated handler that answers with the parsed
      delimited line ([HandlerToken], source lines 1-172),
    - the handler that asks the model for JSON and stores the load
      ([HandlerJson], lines 173-332),
    - the password-protected handler with the same delimited-line
      parsing ([HandlerPassword], lines 333-481).

    The file also holds the endpoint that lists, creates, updates and
    deletes the loads of a user ([Loads], lines 482-687).

    JavaScript values are modelled as the engine has them: strings are
    sequences of UTF-16 code units, numbers are IEEE-754 binary64 values
    (the Standard Library's [spec_float] with [prec = 53], [emax = 1024]),
    objects are finite maps from property names to values.  Calls that
    leave the process (identity provider, model, database, console) are
    the events of a small program monad. *)

From Stdlib Require Import ZArith NArith List Bool Ascii String Lia.
From Stdlib Require Import Floats.SpecFloat.
From stdpp Require Import base option list strings gmap.

#[local] Set Warnings "-register-all".

(** ** JavaScript strings *)

Module JS.

Local Open Scope N_scope.

(** A string is a list of UTF-16 code units. *)
Definition char16 := N.
Definition jsstring := list char16.

Definition lit (s : string) : jsstring :=
  map N_of_ascii (list_ascii_of_string s).

(** LineTerminator: LF, CR, LS, PS. *)
Definition is_line_terminator (c : char16) : bool :=
  (c =? 10) || (c =? 13) || (c =? 8232) || (c =? 8233).

(** WhiteSpace and LineTerminator, the set shared by the regular
    expression class [\s], by [String.prototype.trim] and by the
    leading-blank skipping of [parseFloat]. *)
Definition is_white_space (c : char16) : bool :=
  (c =? 9) || (c =? 11) || (c =? 12) || (c =? 32) || (c =? 160)
  || (c =? 5760) || ((8192 <=? c) && (c <=? 8202))
  || (c =? 8239) || (c =? 8287) || (c =? 12288) || (c =? 65279)
  || is_line_terminator c.

(** [.] without the [s] flag: any code unit but a line terminator. *)
Definition is_dot (c : char16) : bool := negb (is_line_terminator c).

Definition is_newline (c : char16) : bool := c =? 10.

(** Canonicalize of a case-insensitive, non-Unicode pattern: the upper
    case of the code unit.  The patterns here are ASCII, and
    Canonicalize never maps a code unit of 128 or more to one below 128,
    so only the ASCII letters need folding to decide a comparison with
    a pattern character. *)
Definition canonicalize (c : char16) : char16 :=
  if (97 <=? c) && (c <=? 122) then c - 32 else c.

(** *** [trim] *)

Fixpoint trim_start (s : jsstring) : jsstring :=
  match s with
  | c :: s' => if is_white_space c then trim_start s' else s
  | [] => []
  end.

Definition trim_end (s : jsstring) : jsstring :=
  rev (trim_start (rev s)).

Definition trim (s : jsstring) : jsstring := trim_end (trim_start s).

(** *** [split] on a one-character separator *)

Fixpoint split (sep : char16) (s : jsstring) : list jsstring :=
  match s with
  | [] => [[]]
  | c :: s' =>
      if c =? sep then [] :: split sep s'
      else match split sep s' with
           | f :: fs => (c :: f) :: fs
           | [] => [[c]]
           end
  end.

(** *** Regular expressions

    A backtracking matcher in continuation-passing style, one combinator
    per construct the two patterns of the handlers use.  A matcher takes
    the continuation for what follows it in the pattern and the input
    left; [None] is failure, on which the caller tries its next
    alternative. *)

Section Regex.
Context {A : Type}.

(** A literal, compared case-insensitively (flag [i]). *)
Fixpoint lit_ci (l : jsstring) (k : jsstring -> option A) (s : jsstring)
  : option A :=
  match l, s with
  | [], _ => k s
  | a :: l', c :: s' =>
      if canonicalize a =? canonicalize c then lit_ci l' k s' else None
  | _ :: _, [] => None
  end.

(** A greedy starred class: one more character first, the continuation
  after. *)
Fixpoint star (p : char16 -> bool) (k : jsstring -> option A)
  (s : jsstring) : option A :=
  match s with
  | c :: s' =>
      if p c then
        match star p k s' with
        | Some r => Some r
        | None => k s
        end
      else k s
  | [] => k s
  end.

(** A greedy optional class. *)
Definition opt (p : char16 -> bool) (k : jsstring -> option A)
  (s : jsstring) : option A :=
  match s with
  | c :: s' =>
      if p c then
        match k s' with
        | Some r => Some r
        | None => k s
        end
      else k s
  | [] => k s
  end.

(** A greedy starred class inside a capturing group, with the
  characters captured so far in [acc]; the continuation receives the
  capture. *)
Fixpoint star_capture (p : char16 -> bool)
  (k : jsstring -> jsstring -> option A) (acc s : jsstring) : option A :=
  match s with
  | c :: s' =>
      if p c then
        match star_capture p k (acc ++ [c]) s' with
        | Some r => Some r
        | None => k acc s
        end
      else k acc s
  | [] => k acc s
  end.

(** A greedy one-or-more class inside a capturing group. *)
Definition plus_capture (p : char16 -> bool)
  (k : jsstring -> jsstring -> option A) (s : jsstring) : option A :=
  match s with
  | c :: s' => if p c then star_capture p k [c] s' else None
  | [] => None
  end.

(** [String.prototype.match] without the [g] flag: the first start
    index, from the left, at which the pattern matches. *)
Fixpoint search (re : jsstring -> option A) (s : jsstring) : option A :=
  match re s with
  | Some r => Some r
  | None =>
      match s with
      | [] => None
      | _ :: s' => search re s'
      end
  end.
End Regex.

(** The end of a pattern whose only group is the one wanted. *)
Definition accept (group1 rest : jsstring) : option jsstring := Some group1.

(** [\s*\n?(.+)], what both patterns have after their label. *)
Definition after_label : jsstring -> option jsstring :=
  star is_white_space (opt is_newline (plus_capture is_dot accept)).

(** [/LABEL\s*\n?(.+)/i], returning capture group 1 of the match. *)
Definition labelled_line (label : string) (s : jsstring) : option jsstring :=
  search (lit_ci (lit label) after_label) s.

(** ** JavaScript numbers *)

(** A Number is a binary64 value. *)
Definition number := spec_float.
Definition prec : Z := 53.
Definition emax : Z := 1024.

(** The Number nearest to the rational [n / d] ([0 <= n], [0 < d]), ties
    to even, with the sign [neg]: the quotient to the precision of the
    format with the position of the remainder, then rounded. *)
Definition round_ratio (neg : bool) (n d : Z) : number :=
  match n with
  | Z0 => S754_zero neg
  | _ =>
      let '(q, e, l) := SFdiv_core_binary prec emax n 0 d 0 in
      binary_round_aux prec emax neg q e l
  end.

Definition number_of_Z (z : Z) : number :=
  round_ratio (Z.ltb z 0) (Z.abs z) 1.

(** [x / y], [x > y] and ToBoolean on Numbers. *)
Definition div (x y : number) : number := SFdiv prec emax x y.
Definition gt (x y : number) : bool := SFltb y x.

Definition is_nan (x : number) : bool :=
  match x with S754_nan => true | _ => false end.

Definition is_zero (x : number) : bool :=
  match x with S754_zero _ => true | _ => false end.

Definition truthy_number (x : number) : bool := negb (is_nan x || is_zero x).

(** [x || 0] on a Number [x]. *)
Definition or_zero (x : number) : number :=
  if truthy_number x then x else S754_zero false.

(** *** [parseFloat] *)

Definition is_digit (c : char16) : bool := (48 <=? c) && (c <=? 57).

(** The longest prefix of characters in a class, and what follows it. *)
Fixpoint span (p : char16 -> bool) (s : jsstring) : jsstring * jsstring :=
  match s with
  | c :: s' =>
      if p c then let '(a, b) := span p s' in (c :: a, b) else ([], s)
  | [] => ([], [])
  end.

(** The mathematical value of DecimalDigits. *)
Definition digits_value (ds : jsstring) : Z :=
  fold_left (fun acc c => (10 * acc + (Z.of_N c - 48))%Z) ds 0%Z.

Fixpoint starts_with (l s : jsstring) : bool :=
  match l, s with
  | [], _ => true
  | a :: l', c :: s' => (a =? c) && starts_with l' s'
  | _ :: _, [] => false
  end.

(** ExponentPart, when one starts the input: [e] or [E], an optional
    sign, at least one digit.  Without a complete one the literal ends
    before it and the exponent is 0. *)
Definition exponent_part (s : jsstring) : Z :=
  match s with
  | c :: s1 =>
      if (c =? 101) || (c =? 69) then
        let '(neg, s2) :=
          match s1 with
          | d :: t =>
              if d =? 43 then (false, t)
              else if d =? 45 then (true, t) else (false, s1)
          | [] => (false, s1)
          end in
        let '(ds, _) := span is_digit s2 in
        match ds with
        | [] => 0%Z
        | _ => if neg then (- digits_value ds)%Z else digits_value ds
        end
      else 0%Z
  | [] => 0%Z
  end.

(** The Number for the decimal [mant * 10 ^ e10]. *)
Definition decimal_value (neg : bool) (mant e10 : Z) : number :=
  if (0 <=? e10)%Z then round_ratio neg (mant * 10 ^ e10) 1
  else round_ratio neg mant (10 ^ (- e10)).

(** The value of the longest prefix that is a StrUnsignedDecimalLiteral:
    [Infinity], digits with an optional fraction, or a fraction alone,
    each but the first with an optional exponent; NaN without one. *)
Definition unsigned_decimal_literal (neg : bool) (s : jsstring) : number :=
  if starts_with (lit "Infinity") s then S754_infinity neg
  else
    let '(ip, s1) := span is_digit s in
    let '(dot, fp, s2) :=
      match s1 with
      | c :: t =>
          if c =? 46 then let '(fp, s2) := span is_digit t in (true, fp, s2)
          else (false, [], s1)
      | [] => (false, [], s1)
      end in
    match ip, fp with
    | [], [] => S754_nan
    | _, _ =>
        decimal_value neg (digits_value (ip ++ fp))
          (exponent_part s2 - Z.of_nat (length fp))
    end.

(** [parseFloat] of a string: leading blanks skipped, an optional sign,
    then the literal. *)
Definition parseFloat_string (s : jsstring) : number :=
  match trim_start s with
  | c :: t =>
      if c =? 43 then unsigned_decimal_literal false t
      else if c =? 45 then unsigned_decimal_literal true t
      else unsigned_decimal_literal false (c :: t)
  | [] => S754_nan
  end.

(** An array element read by index is a string or, out of range,
    [undefined] ([None]); [parseFloat] first applies ToString to its
    argument. *)
Definition parseFloat (v : option jsstring) : number :=
  match v with
  | Some s => parseFloat_string s
  | None => parseFloat_string (lit "undefined")
  end.

(** [v || ''] on a string or [undefined]. *)
Definition or_empty (v : option jsstring) : jsstring :=
  match v with
  | Some (c :: s) => c :: s
  | Some [] | None => []
  end.

(** *** [Number.prototype.toFixed] and [Number::toString] *)

(** The decimal digits of a natural number, most significant first;
    [fuel] bounds their number. *)
Definition digit (k : Z) : char16 := 48 + Z.to_N k.

Fixpoint decimal_fuel (fuel : nat) (n : Z) : jsstring :=
  match fuel with
  | O => []
  | S fuel' =>
      if (n <? 10)%Z then [digit n]
      else decimal_fuel fuel' (n / 10) ++ [digit (n mod 10)]
  end.

Definition decimal (n : Z) : jsstring :=
  decimal_fuel (S (Z.to_nat (Z.log2 n))) n.

(** The exact value of a finite, non-zero Number as a fraction. *)
Definition fraction (m : positive) (e : Z) : Z * Z :=
  if (0 <=? e)%Z then (Z.pos m * 2 ^ e, 1)%Z else (Z.pos m, 2 ^ (- e))%Z.

(** The integer [n] for which [n / 10 ^ f] is nearest to [num / den]; of
    two such, the larger. *)
Definition nearest_scaled (f : Z) (num den : Z) : Z :=
  ((2 * 10 ^ f * num + den) / (2 * den))%Z.

(** The digits of [n] with a point before the last [f] of them, zeros
    added in front so that a digit stands before the point. *)
Definition fixed_digits (f : nat) (n : Z) : jsstring :=
  let m := decimal n in
  let m := repeat 48 (S f - length m) ++ m in
  match f with
  | O => m
  | _ => take (length m - f) m ++ 46 :: drop (length m - f) m
  end.

(** [Number::toString] of an integer-valued Number [x] of value
    [v >= 10 ^ 21]: the shortest digit string [s] and exponent [n] with
    [s * 10 ^ (n - k)] rounding to [x]; of the candidates with that many
    digits the nearest to [v], and of two equally near the even one. *)
Definition digit_candidate (x : number) (v : Z) (nd k : Z)
  : option (Z * Z) :=
  let scale := (10 ^ (nd - k))%Z in
  let lo := (v / scale)%Z in
  let hi := (lo + 1)%Z in
  let ok_lo := SFeqb (round_ratio false (lo * scale) 1) x in
  let ok_hi := SFeqb (round_ratio false (hi * scale) 1) x in
  let up := if (hi =? 10 ^ k)%Z then (10 ^ (k - 1), nd + 1)%Z else (hi, nd) in
  match ok_lo, ok_hi with
  | true, true =>
      let dlo := (v - lo * scale)%Z in
      let dhi := (hi * scale - v)%Z in
      if (dlo <? dhi)%Z then Some (lo, nd)
      else if (dhi <? dlo)%Z then Some up
      else if Z.even lo then Some (lo, nd) else Some up
  | true, false => Some (lo, nd)
  | false, true => Some up
  | false, false => None
  end.

Fixpoint shortest_digits (x : number) (v : Z) (nd k : Z) (fuel : nat)
  : Z * Z * Z :=
  match fuel with
  | O => (v, nd, nd)
  | S fuel' =>
      match digit_candidate x v nd k with
      | Some (s, n) => (s, k, n)
      | None =>
          if (nd <=? k)%Z then (v, nd, nd)
          else shortest_digits x v nd (k + 1) fuel'
      end
  end.

Definition exponential_notation (s k n : Z) : jsstring :=
  let ds := decimal s in
  let e := lit "e+" ++ decimal (n - 1) in
  if (k =? 1)%Z then ds ++ e else take 1 ds ++ 46 :: drop 1 ds ++ e.

Definition toString_large (x : number) (v : Z) : jsstring :=
  let nd := Z.of_nat (length (decimal v)) in
  let '(s, k, n) := shortest_digits x v nd 1 (Z.to_nat nd) in
  exponential_notation s k n.

(** [x.toFixed(f)] for [0 <= f <= 100]. *)
Definition toFixed (x : number) (f : nat) : jsstring :=
  match x with
  | S754_nan => lit "NaN"
  | S754_infinity false => lit "Infinity"
  | S754_infinity true => lit "-Infinity"
  | S754_zero _ => fixed_digits f 0
  | S754_finite neg m e =>
      let '(num, den) := fraction m e in
      let sign := if neg then lit "-" else [] in
      if (10 ^ 21 * den <=? num)%Z
      then sign ++ toString_large (S754_finite false m e) num
      else sign ++ fixed_digits f (nearest_scaled (Z.of_nat f) num den)
  end.

(** ** JavaScript values *)

Inductive value :=
| VUndefined
| VNull
| VBool (b : bool)
| VNumber (x : number)
| VString (s : jsstring)
| VArray (l : list value)
| VObject (o : gmap jsstring value).

Definition ToBoolean (v : value) : bool :=
  match v with
  | VUndefined | VNull => false
  | VBool b => b
  | VNumber x => truthy_number x
  | VString s => match s with [] => false | _ => true end
  | VArray _ | VObject _ => true
  end.

(** [v || null]. *)
Definition or_null (v : value) : value := if ToBoolean v then v else VNull.

(** The property read [v.key], for a key that the built-in prototypes
    do not define (all keys read by the handlers are such): [None] is
    the TypeError of reading a property of [undefined] or [null]. *)
Definition get (v : value) (key : string) : option value :=
  match v with
  | VUndefined | VNull => None
  | VObject o => Some (default VUndefined (o !! lit key))
  | _ => Some VUndefined
  end.

(** An object literal. *)
Definition object (l : list (string * value)) : value :=
  VObject (list_to_map (map (fun kv => (lit (fst kv), snd kv)) l)).

(** [v === s] for a string [s]. *)
Definition strict_eq_string (v : value) (s : jsstring) : bool :=
  match v with
  | VString t => bool_decide (t = s)
  | _ => false
  end.

Definition str (s : string) : value := VString (lit s).

(** A template literal of the source in which a double quote is written
    as an apostrophe (the texts contain no apostrophe). *)
Definition template (s : string) : jsstring :=
  map (fun c => if c =? 39 then 34 else c) (lit s).

End JS.

Import JS.

(** ** The calls that leave the process *)

(** [{ data: { user }, error }] of [supabase.auth.getUser]. *)
Record GetUserResult := { data_user : value; getUser_error : value }.

(** [{ data, error }] of the insert-select-single query. *)
Record InsertResult := { insert_data : value; insert_error : value }.

(** The request of [anthropic.messages.create]: one user message made of
    a base64 PDF document block and a text block. *)
Record MessageRequest := {
  model : jsstring;
  max_tokens : Z;
  document_media_type : jsstring;
  document_data : value;
  text : jsstring;
  system : option jsstring
}.

Definition is_string (v : value) : bool :=
  match v with
  | VString _ => true
  | _ => false
  end.

(** The awaited model call with the reading of [response.content[0].text]:
    - the text, when it is a string;
    - the message of the error thrown on the way: a rejected promise, or
      an answer without a first block, on which every reading of
      [response.content[0].text] throws;
    - a first block whose [text] is not a string ([undefined] for a
      block of another type), with the message of the TypeError that
      calling a string method on it throws. *)
Inductive Settled :=
| Resolved (content_0_text : jsstring)
| Rejected (message : jsstring)
| NoText (content_0_text : value) (not_string : is_string content_0_text = false)
    (message : jsstring).

Inductive event : Type -> Type :=
| supabase_auth_getUser (token : jsstring) : event GetUserResult
| anthropic_messages_create (request : MessageRequest) : event Settled
| supabase_loads_insert (record : value) : event InsertResult
| console_error (label : string) (detail : value) : event unit
| Date_toISOString : event jsstring.

(** A handler is a finite tree of such calls ending in a result. *)
Inductive prog (R : Type) : Type :=
| Ret (r : R)
| Vis {X : Type} (e : event X) (k : X -> prog R).
Arguments Ret {R} r.
Arguments Vis {R X} e k.

Fixpoint bind {R S : Type} (p : prog R) (f : R -> prog S) : prog S :=
  match p with
  | Ret r => f r
  | Vis e k => Vis e (fun x => bind (k x) f)
  end.

Definition call {X : Type} (e : event X) : prog X := Vis e Ret.

#[export] Instance prog_ret : MRet prog := @Ret.
#[export] Instance prog_bind : MBind prog := fun R S f p => bind p f.

(** The world answers each call; a run collects the calls made, in
    order, with the result. *)
Definition world := forall X : Type, event X -> X.
Definition made := { X : Type & event X }.

Fixpoint run {R : Type} (w : world) (p : prog R) : list made * R :=
  match p with
  | Ret r => ([], r)
  | Vis e k =>
      let '(t, r) := run w (k (w _ e)) in
      (existT _ e :: t, r)
  end.

Definition is_model_call (c : made) : bool :=
  match projT2 c with
  | anthropic_messages_create _ => true
  | _ => false
  end.

(** ** Requests and responses *)

Record Request := {
  method : jsstring;
  authorization : option jsstring;
  body : value
}.

Record Response := {
  headers : list (string * string);
  status : Z;
  payload : option value
}.

(** What the process environment and the engine supply. *)
Record Env := {
  APP_PASSWORD : option jsstring;
  TypeError_message : jsstring
}.

Definition cors : list (string * string) :=
  [ ("Access-Control-Allow-Origin", "*");
    ("Access-Control-Allow-Methods", "POST, OPTIONS");
    ("Access-Control-Allow-Headers", "Content-Type, Authorization") ]%string.

(** [res.status(s).json(b)] and [res.status(s).end()] after the three
    [setHeader] calls; the payload is the value handed to [json], before
    its serialization. *)
Definition json (s : Z) (b : value) : Response :=
  {| headers := cors; status := s; payload := Some b |}.
Definition end_ (s : Z) : Response :=
  {| headers := cors; status := s; payload := None |}.

(** [verifyUser]: the error message or the user. *)
Definition verifyUser (authHeader : option jsstring) : prog (jsstring + value) :=
  match authHeader with
  | None => Ret (inl (lit "No authorization token provided"))
  | Some h =>
      if negb (ToBoolean (VString h)) || negb (starts_with (lit "Bearer ") h)
      then Ret (inl (lit "No authorization token provided"))
      else
        let token := drop 7 h in
        r ← call (supabase_auth_getUser token);
        if ToBoolean (getUser_error r) || negb (ToBoolean (data_user r))
        then Ret (inl (lit "Invalid or expired token"))
        else Ret (inr (data_user r))
  end.

(** ** The delimited-line parsing shared by [HandlerToken] and
    [HandlerPassword] *)

Record LoadData := {
  id : jsstring;
  pickup_date : jsstring;
  delivery_date : jsstring;
  broker_company : jsstring;
  contact : jsstring;
  phone : jsstring;
  extension : jsstring;
  email : jsstring;
  origin : jsstring;
  destination : jsstring;
  equipment : jsstring;
  miles : number;
  posted_rate : number;
  booked_rate : number;
  shipper : jsstring;
  receiver : jsstring
}.

(** The object literal [loadData] as the value put in the response. *)
Definition loadData_value (d : LoadData) : value :=
  object
    [ ("id", VString (id d));
      ("pickup_date", VString (pickup_date d));
      ("delivery_date", VString (delivery_date d));
      ("broker_company", VString (broker_company d));
      ("contact", VString (contact d));
      ("phone", VString (phone d));
      ("extension", VString (extension d));
      ("email", VString (email d));
      ("origin", VString (origin d));
      ("destination", VString (destination d));
      ("equipment", VString (equipment d));
      ("miles", VNumber (miles d));
      ("posted_rate", VNumber (posted_rate d));
      ("booked_rate", VNumber (booked_rate d));
      ("shipper", VString (shipper d));
      ("receiver", VString (receiver d)) ]%string.

(** [aiResponse.match(/CSV LINE:\s*\n?(.+)/i)] and
    [aiResponse.match(/INVOICE EMAIL:\s*\n?(.+)/i)], group 1. *)
Definition csvMatch (aiResponse : jsstring) : option jsstring :=
  labelled_line "CSV LINE:" aiResponse.
Definition emailMatch (aiResponse : jsstring) : option jsstring :=
  labelled_line "INVOICE EMAIL:" aiResponse.

(** [csvMatch ? csvMatch[1].trim() : null], and the same for the
    invoice email. *)
Definition csvLine (aiResponse : jsstring) : option jsstring :=
  trim <$> csvMatch aiResponse.
Definition invoiceEmail (aiResponse : jsstring) : option jsstring :=
  trim <$> emailMatch aiResponse.

(** [csvLine.split(',').map(f => f.trim())]. *)
Definition fields (csvLine : jsstring) : list jsstring :=
  map trim (split 44%N csvLine).

Definition loadData (fields : list jsstring) : LoadData :=
  {| id := or_empty (fields !! 0%nat);
     pickup_date := or_empty (fields !! 1%nat);
     delivery_date := or_empty (fields !! 2%nat);
     broker_company := or_empty (fields !! 3%nat);
     contact := or_empty (fields !! 4%nat);
     phone := or_empty (fields !! 5%nat);
     extension := or_empty (fields !! 6%nat);
     email := or_empty (fields !! 7%nat);
     origin := or_empty (fields !! 8%nat);
     destination := or_empty (fields !! 9%nat);
     equipment := or_empty (fields !! 10%nat);
     miles := or_zero (parseFloat (fields !! 11%nat));
     posted_rate := or_zero (parseFloat (fields !! 12%nat));
     booked_rate := or_zero (parseFloat (fields !! 13%nat));
     shipper := or_empty (fields !! 14%nat);
     receiver := or_empty (fields !! 15%nat) |}.

(** [rpm]: [null] ([None]) unless both figures are positive. *)
Definition rpm (d : LoadData) : option jsstring :=
  if gt (miles d) (S754_zero false) && gt (booked_rate d) (S754_zero false)
  then Some (toFixed (div (booked_rate d) (miles d)) 2)
  else None.

Definition rpm_value (r : option jsstring) : value :=
  match r with
  | Some s => VString s
  | None => VNull
  end.

(** The bodies of the 422 and of the 200 response. *)
Definition could_not_extract (aiResponse : jsstring) : value :=
  object [ ("error", str "Could not extract data from PDF");
           ("raw", VString aiResponse) ]%string.

Definition success (d : LoadData) (csvLine : jsstring) (rpm : option jsstring)
  : value :=
  object [ ("success", VBool true);
           ("data", loadData_value d);
           ("csvLine", VString csvLine);
           ("rpm", rpm_value rpm) ]%string.

(** The response once the two blocks have been looked for: 422 with the
    raw text when there is no data line or an empty one, else 200.  The
    invoice email is not read.  Nothing here can throw: [match],
    [trim], [split], [map], reading an array element, [parseFloat],
    [>], [/] and [toFixed(2)] are total on strings and Numbers. *)
Definition respond (aiResponse : jsstring)
  (csvLine invoiceEmail : option jsstring) : Response :=
  match csvLine with
  | None | Some [] => json 422 (could_not_extract aiResponse)
  | Some csvLine =>
      let d := loadData (fields csvLine) in
      json 200 (success d csvLine (rpm d))
  end.

Definition parse (aiResponse : jsstring) : Response :=
  respond aiResponse (csvLine aiResponse) (invoiceEmail aiResponse).

(** The [catch] of the two delimited-line handlers. *)
Definition failed_to_parse (message : jsstring) : prog Response :=
  call (console_error "Parse error:" (VString message)) ;;
  Ret (json 500 (object [ ("error", str "Failed to parse PDF");
                          ("details", VString message) ]%string)).

(** The request of the two delimited-line handlers to the model. *)
Definition extraction_request (SYSTEM_PROMPT : jsstring) (pdfBase64 : value)
  : MessageRequest :=
  {| model := lit "claude-sonnet-4-20250514";
     max_tokens := 1024;
     document_media_type := lit "application/pdf";
     document_data := pdfBase64;
     text := lit "Parse this rate confirmation and extract the load details.";
     system := Some SYSTEM_PROMPT |}.

(** The model call and what follows it; [aiResponse.match] throws on a
    text that is not a string. *)
Definition extract (SYSTEM_PROMPT : jsstring) (pdfBase64 : value)
  : prog Response :=
  r ← call (anthropic_messages_create
               (extraction_request SYSTEM_PROMPT pdfBase64));
  match r with
  | Rejected message | NoText _ _ message => failed_to_parse message
  | Resolved aiResponse => Ret (parse aiResponse)
  end.

(** ** The handler with token authentication (lines 1-172) *)

Module HandlerToken.

Definition SYSTEM_PROMPT : jsstring := template
"You are a rate confirmation parser. When given a PDF rate confirmation, extract the following fields and format them EXACTLY as shown below:

**CSV LINE (for TMS import):**
Load ID, Pickup Date, Delivery Date, Broker Company, Contact Name, Phone, Extension, Email, Origin, Destination, Equipment, Miles, Posted Rate, Booked Rate, Shipper, Receiver

**INVOICE EMAIL:**
[email address for invoicing - separate from the Email field above]

**RULES:**
1. CSV format: comma-separated, no quotes, no extra spaces
2. Dates must be YYYY-MM-DD format (e.g., 2025-11-21)
3. Posted Rate: put 0 if not in rate conf (add manually later)
4. Email: the contact/dispatch email (goes in CSV)
5. Invoice Email: separate field for billing (NOT in CSV, just listed separately)
6. Miles: estimate if not provided
7. Equipment: use single letter codes (R=Reefer, V=Van, F=Flatbed, VR=Van or Reefer)
8. Origin/Destination: format as 'City ST' (e.g., 'Johnston SC')

Give me ONLY these two items - no explanations, no extra text. Format exactly like this:

CSV LINE:
[the comma-separated values]

INVOICE EMAIL:
[email or 'Not found']".

Definition handler (env : Env) (req : Request) : prog Response :=
  if bool_decide (method req = lit "OPTIONS") then Ret (end_ 200)
  else if negb (bool_decide (method req = lit "POST"))
  then Ret (json 405 (object [ ("error", str "Method not allowed") ]%string))
  else
    a ← verifyUser (authorization req);
    match a with
    | inl authError =>
        Ret (json 401 (object [ ("error", VString authError) ]%string))
    | inr user =>
        match get (body req) "pdfBase64" with
        | None => failed_to_parse (TypeError_message env)
        | Some pdfBase64 =>
            if negb (ToBoolean pdfBase64)
            then Ret (json 400
                        (object [ ("error", str "No PDF data provided") ]%string))
            else extract SYSTEM_PROMPT pdfBase64
        end
    end.

End HandlerToken.

(** ** The handler with the shared password (lines 333-481) *)

Module HandlerPassword.

Definition SYSTEM_PROMPT : jsstring := template
"You are a rate confirmation parser. When given a PDF rate confirmation, extract the following fields and format them EXACTLY as shown below:

**CSV LINE (for TMS import):**
Load ID, Pickup Date, Delivery Date, Broker Company, Contact Name, Phone, Extension, Email, Origin, Destination, Equipment, Miles, Posted Rate, Booked Rate, Shipper, Receiver

**INVOICE EMAIL:**
[email address for invoicing - separate from the Email field above]

**RULES:**
1. CSV format: comma-separated, no quotes, no extra spaces
2. Dates must be M/D/YYYY format (e.g., 11/21/2025)
3. Posted Rate: put 0 if not in rate conf (add manually later)
4. Email: the contact/dispatch email (goes in CSV)
5. Invoice Email: separate field for billing (NOT in CSV, just listed separately)
6. Miles: estimate if not provided
7. Equipment: use single letter codes (R=Reefer, V=Van, F=Flatbed, VR=Van or Reefer)
8. Origin/Destination: format as 'City ST' (e.g., 'Johnston SC')

Give me ONLY these two items - no explanations, no extra text. Format exactly like this:

CSV LINE:
[the comma-separated values]

INVOICE EMAIL:
[email or 'Not found']".

(** [process.env.APP_PASSWORD || 'milian2024']. *)
Definition password_expected (env : Env) : jsstring :=
  match APP_PASSWORD env with
  | Some (c :: p) => c :: p
  | Some [] | None => lit "milian2024"
  end.

Definition handler (env : Env) (req : Request) : prog Response :=
  if bool_decide (method req = lit "OPTIONS") then Ret (end_ 200)
  else if negb (bool_decide (method req = lit "POST"))
  then Ret (json 405 (object [ ("error", str "Method not allowed") ]%string))
  else
    match get (body req) "pdfBase64", get (body req) "password" with
    | Some pdfBase64, Some password =>
        if negb (strict_eq_string password (password_expected env))
        then Ret (json 401 (object [ ("error", str "Invalid password") ]%string))
        else if negb (ToBoolean pdfBase64)
        then Ret (json 400
                    (object [ ("error", str "No PDF data provided") ]%string))
        else extract SYSTEM_PROMPT pdfBase64
    | _, _ => failed_to_parse (TypeError_message env)
    end.

End HandlerPassword.

(** ** The handler that stores the load (lines 173-332) *)

Module HandlerJson.

Definition prompt : jsstring := template
"Extract the following information from this rate confirmation document and return it as JSON:
                            
{
    'load_number': 'string - the load/order number',
    'broker_name': 'string - the broker/shipper company name',
    'broker_mc': 'string - broker MC number if visible',
    'rate': 'number - the total rate/pay amount',
    'pickup_date': 'string - pickup date in YYYY-MM-DD format',
    'delivery_date': 'string - delivery date in YYYY-MM-DD format', 
    'pickup_city': 'string - pickup city',
    'pickup_state': 'string - pickup state abbreviation',
    'pickup_address': 'string - full pickup address if available',
    'delivery_city': 'string - delivery city',
    'delivery_state': 'string - delivery state abbreviation',
    'delivery_address': 'string - full delivery address if available',
    'commodity': 'string - what is being hauled',
    'weight': 'number - weight in pounds if specified',
    'miles': 'number - total miles if specified',
    'notes': 'string - any special instructions or notes'
}

Return ONLY valid JSON, no markdown or explanation.".

(** The [catch] around the whole body. *)
Definition failed_to_process (message : jsstring) : prog Response :=
  call (console_error "Parse error:" (VString message)) ;;
  Ret (json 500
         (object [ ("error", str "Failed to process rate confirmation") ]%string)).

(** [loadRecord], when [loadData] can be read from; [None] is the
    TypeError of reading a property of [null]. *)
Definition loadRecord (user loadData fileName : value) (created_at : jsstring)
  : option value :=
  match get loadData "load_number" with
  | None => None
  | Some _ =>
      let field (k : string) : string * value :=
        (k, or_null (default VUndefined (get loadData k))) in
      Some (object
        [ ("user_id", default VUndefined (get user "id"));
          field "load_number";
          field "broker_name";
          field "broker_mc";
          field "rate";
          field "pickup_date";
          field "delivery_date";
          field "pickup_city";
          field "pickup_state";
          field "pickup_address";
          field "delivery_city";
          field "delivery_state";
          field "delivery_address";
          field "commodity";
          field "weight";
          field "miles";
          field "notes";
          ("source_file", or_null fileName);
          ("status", str "pending");
          ("created_at", VString created_at) ]%string)
  end.

(** The inner [catch], around the reading of the text, [trim] and
    [JSON.parse]: it logs [response.content[0].text].  When the answer
    has no first block that reading throws again, inside the [catch],
    and the outer [catch] takes over; when the first block has no string
    under [text], [trim] throws and the value is logged. *)
Definition unreadable (content_0_text : value) : prog Response :=
  call (console_error "Failed to parse Claude response:" content_0_text) ;;
  Ret (json 500
         (object [ ("error", str "Failed to parse rate confirmation data") ]%string)).

Section Handler.
(** [JSON.parse]: the value, or [None] for the SyntaxError. *)
Variable JSON_parse : jsstring -> option value.

Definition store (env : Env) (user fileName : value) (content_0_text : jsstring)
  : prog Response :=
  match JSON_parse (trim content_0_text) with
  | None => unreadable (VString content_0_text)
  | Some loadData =>
      match get loadData "load_number" with
      | None => failed_to_process (TypeError_message env)
      | Some _ =>
          created_at ← call Date_toISOString;
          match loadRecord user loadData fileName created_at with
          | None => failed_to_process (TypeError_message env)
          | Some record =>
              r ← call (supabase_loads_insert record);
              if ToBoolean (insert_error r)
              then
                call (console_error "Supabase insert error:" (insert_error r)) ;;
                Ret (json 500
                       (object [ ("error", str "Failed to save load to database") ]%string))
              else
                Ret (json 200
                       (object [ ("success", VBool true);
                                 ("load", insert_data r);
                                 ("parsed", loadData) ]%string))
          end
      end
  end.

Definition handler (env : Env) (req : Request) : prog Response :=
  if bool_decide (method req = lit "OPTIONS") then Ret (end_ 200)
  else if negb (bool_decide (method req = lit "POST"))
  then Ret (json 405 (object [ ("error", str "Method not allowed") ]%string))
  else
    a ← verifyUser (authorization req);
    match a with
    | inl authError =>
        Ret (json 401 (object [ ("error", VString authError) ]%string))
    | inr user =>
        match get (body req) "pdfBase64", get (body req) "fileName" with
        | Some pdfBase64, Some fileName =>
            if negb (ToBoolean pdfBase64)
            then Ret (json 400
                        (object [ ("error", str "No PDF data provided") ]%string))
            else
              r ← call (anthropic_messages_create
                           {| model := lit "claude-sonnet-4-20250514";
                              max_tokens := 4096;
                              document_media_type := lit "application/pdf";
                              document_data := pdfBase64;
                              text := prompt;
                              system := None |});
              match r with
              | Rejected message => failed_to_process message
              | NoText content_0_text _ _ => unreadable content_0_text
              | Resolved content_0_text =>
                  store env user fileName content_0_text
              end
        | _, _ => failed_to_process (TypeError_message env)
        end
    end.
End Handler.

End HandlerJson.

(** ** Vocabulary of the statements *)

(** [s] begins with [l], letter case ignored. *)
Fixpoint prefix_ci (l s : jsstring) : bool :=
  match l, s with
  | [], _ => true
  | a :: l', c :: s' =>
      (canonicalize a =? canonicalize c)%N && prefix_ci l' s'
  | _ :: _, [] => false
  end.

(** The index of the first occurrence of [l] in [s], letter case
    ignored. *)
Fixpoint index_ci (l s : jsstring) : option nat :=
  if prefix_ci l s then Some 0%nat
  else match s with
       | [] => None
       | _ :: s' => S <$> index_ci l s'
       end.

(** The values of a data line, written with commas between them. *)
Fixpoint join (sep : char16) (l : list jsstring) : jsstring :=
  match l with
  | [] => []
  | [v] => v
  | v :: l' => v ++ sep :: join sep l'
  end.

(** A line has no line terminator in it, and what follows it is the end
    of the text or a line terminator. *)
Definition is_line (line : jsstring) : Prop :=
  Forall (fun c => is_line_terminator c = false) line.
Definition ends_line (rest : jsstring) : Prop :=
  match rest with
  | [] => True
  | c :: _ => is_line_terminator c = true
  end.
Definition blank (s : jsstring) : Prop :=
  Forall (fun c => is_white_space c = true) s.

(** The response text of the end-to-end scenario. *)
Definition scenario : jsstring := lit
"CSV LINE:
LD100,2025-11-21,2025-11-24,Acme Brokers,Jane Doe,555-1212,,jane@acme.com,Johnston SC,Dallas TX,R,800,0,2000,Acme Shipper,Acme Receiver

INVOICE EMAIL:
billing@acme.com".

Definition scenario_values : list jsstring :=
  map lit
    [ "LD100"; "2025-11-21"; "2025-11-24"; "Acme Brokers"; "Jane Doe";
      "555-1212"; EmptyString; "jane@acme.com"; "Johnston SC"; "Dallas TX"; "R";
      "800"; "0"; "2000"; "Acme Shipper"; "Acme Receiver" ]%string.

(** A value of a data line: no comma and no line terminator in it. *)
Definition is_field (v : jsstring) : Prop :=
  Forall (fun c => c ≠ 44%N ∧ is_line_terminator c = false) v.

(** The record read by position, in the order of the data line, and the
    value a position takes when the line has no value for it. *)
Definition positions (d : LoadData) : list value :=
  [ VString (id d); VString (pickup_date d); VString (delivery_date d);
    VString (broker_company d); VString (contact d); VString (phone d);
    VString (extension d); VString (email d); VString (origin d);
    VString (destination d); VString (equipment d); VNumber (miles d);
    VNumber (posted_rate d); VNumber (booked_rate d); VString (shipper d);
    VString (receiver d) ].

Definition is_numeric_position (i : nat) : bool :=
  (11 <=? i)%nat && (i <=? 13)%nat.

Definition default_at (i : nat) : value :=
  if is_numeric_position i then VNumber (S754_zero false) else VString [].


(** The date format the prompt of [HandlerToken] asks for: YYYY-MM-DD. *)
Definition is_canonical_date (s : jsstring) : bool :=
  match s with
  | [y1; y2; y3; y4; h1; m1; m2; h2; d1; d2] =>
      forallb is_digit [y1; y2; y3; y4; m1; m2; d1; d2]
      && (h1 =? 45)%N && (h2 =? 45)%N
  | _ => false
  end.

(** The date format the prompt of [HandlerPassword] asks for: M/D/YYYY,
    the month and the day of one or two digits. *)
Definition is_slash_date (s : jsstring) : bool :=
  let '(m, r) := span is_digit s in
  match r with
  | c1 :: r1 =>
      let '(d, r2) := span is_digit r1 in
      match r2 with
      | c2 :: y =>
          (c1 =? 47)%N && (c2 =? 47)%N
          && (1 <=? length m)%nat && (length m <=? 2)%nat
          && (1 <=? length d)%nat && (length d <=? 2)%nat
          && (length y =? 4)%nat && forallb is_digit y
      | [] => false
      end
  | [] => false
  end.

(** The body of the 400 response. *)
Definition no_pdf_data : value :=
  object [ ("error", str "No PDF data provided") ]%string.

Definition no_model_call (trace : list made) : Prop :=
  Forall (fun c => is_model_call c = false) trace.

(** The keys of the record object. *)
Definition loadData_keys : gset jsstring :=
  list_to_set
    (map lit
       [ "id"; "pickup_date"; "delivery_date"; "broker_company"; "contact";
         "phone"; "extension"; "email"; "origin"; "destination"; "equipment";
         "miles"; "posted_rate"; "booked_rate"; "shipper"; "receiver" ]%string).

(** A world given by its answers: the identity provider's, the model's,
    the database's and the clock's. *)
Definition world_of (user : GetUserResult) (answer : Settled)
  (inserted : InsertResult) (now : jsstring) : world :=
  fun X e =>
    match e in event X return X with
    | supabase_auth_getUser _ => user
    | anthropic_messages_create _ => answer
    | supabase_loads_insert _ => inserted
    | console_error _ _ => tt
    | Date_toISOString => now
    end.

(** The bodies of the two 500 responses of [HandlerJson] below its model
    call, and of its 200 response. *)
Definition failed_to_parse_data : value :=
  object [ ("error", str "Failed to parse rate confirmation data") ]%string.
Definition failed_to_save : value :=
  object [ ("error", str "Failed to save load to database") ]%string.
Definition stored (inserted parsed : value) : value :=
  object [ ("success", VBool true); ("load", inserted); ("parsed", parsed) ]%string.

(** A Number that is not NaN and has the sign [neg]. *)
Definition signed (neg : bool) (x : number) : Prop :=
  match x with
  | S754_nan => False
  | S754_zero s | S754_infinity s | S754_finite s _ _ => s = neg
  end.

(** [x < 0]. *)
Definition negative (x : number) : bool := gt (S754_zero false) x.

(** A string that [parseFloat] reads a number from: after blanks and an
    optional sign it starts with a digit, with a point and a digit, or
    with Infinity. *)
Definition numeral_start (s : jsstring) : bool :=
  starts_with (lit "Infinity") s
  || match s with
     | c :: t =>
         is_digit c
         || ((c =? 46)%N && match t with d :: _ => is_digit d | [] => false end)
     | [] => false
     end.

Definition is_numeric (s : jsstring) : bool :=
  match trim_start s with
  | c :: t =>
      if ((c =? 43) || (c =? 45))%N then numeral_start t
      else numeral_start (c :: t)
  | [] => false
  end.

Definition has_minus (s : jsstring) : bool :=
  match trim_start s with
  | c :: _ => (c =? 45)%N
  | [] => false
  end.

(** The record of a data line that has only its mileage and its booked
    rate. *)
Definition figures (miles booked_rate : string) : LoadData :=
  loadData (fields (lit ",,,,,,,,,,," ++ lit miles ++ lit ",0," ++ lit booked_rate)).

(** The body of a 401 response. *)
Definition unauthorized (error : string) : value :=
  object [ ("error", str error) ]%string.

(** A world in which the token is valid, the model answers with the
    scenario text and the database stores what it is given. *)
Definition scenario_world : world :=
  world_of {| data_user := object [ ("id", str "user-1") ]%string;
              getUser_error := VNull |}
    (Resolved scenario)
    {| insert_data := object [ ("id", str "row-1") ]%string;
       insert_error := VNull |}
    (lit "2025-11-21T00:00:00.000Z").

Definition no_password : Env :=
  {| APP_PASSWORD := None; TypeError_message := lit "TypeError" |}.

(** ** The loads endpoint ([api/loads.js], lines 482-687 of the file) *)

Module Loads.

(** A query parameter: a string, or the array of the strings when the
    parameter is given more than once. *)
Inductive param :=
| One (s : jsstring)
| Many (l : list jsstring).

(** ToBoolean, ToString and the value itself of a parameter. *)
Definition param_truthy (p : option param) : bool :=
  match p with
  | None | Some (One []) => false
  | Some _ => true
  end.

Definition param_string (p : param) : jsstring :=
  match p with
  | One s => s
  | Many l => join 44%N l
  end.

Definition param_value (p : param) : value :=
  match p with
  | One s => VString s
  | Many l => VArray (map VString l)
  end.

(** *** [parseInt] without radix *)

Definition hex_digit_value (c : char16) : option Z :=
  if is_digit c then Some (Z.of_N c - 48)%Z
  else if ((97 <=? c) && (c <=? 102))%N then Some (Z.of_N c - 87)%Z
  else if ((65 <=? c) && (c <=? 70))%N then Some (Z.of_N c - 55)%Z
  else None.

Definition is_hex_digit (c : char16) : bool :=
  match hex_digit_value c with Some _ => true | None => false end.

Definition hex_value (ds : jsstring) : Z :=
  fold_left (fun acc c => (16 * acc + default 0 (hex_digit_value c))%Z) ds 0%Z.

(** Leading blanks skipped, an optional sign, an optional [0x] or [0X]
    for radix 16, then the longest run of digits of the radix; NaN when
    that run is empty.  The digits are read exactly and their value is
    rounded to the nearest Number (the standard lets an engine read the
    decimal digits after the twentieth significant one as zeros). *)
Definition parseInt_string (s : jsstring) : number :=
  let s := trim_start s in
  let '(neg, s) :=
    match s with
    | c :: t =>
        if (c =? 43)%N then (false, t)
        else if (c =? 45)%N then (true, t) else (false, s)
    | [] => (false, s)
    end in
  if starts_with (lit "0x") s || starts_with (lit "0X") s then
    match (span is_hex_digit (drop 2 s)).1 with
    | [] => S754_nan
    | ds => round_ratio neg (hex_value ds) 1
    end
  else
    match (span is_digit s).1 with
    | [] => S754_nan
    | ds => round_ratio neg (digits_value ds) 1
    end.

(** [parseInt(p)] for a parameter that has the default [d] when it is
    not given: the default is a Number literal, an integer, which
    [parseInt] gives back. *)
Definition parseInt_or (d : Z) (p : option param) : number :=
  match p with
  | None => number_of_Z d
  | Some p => parseInt_string (param_string p)
  end.

Definition add (x y : number) : number := SFadd prec emax x y.
Definition sub (x y : number) : number := SFsub prec emax x y.

(** *** Responses *)

Definition cors : list (string * string) :=
  [ ("Access-Control-Allow-Origin", "*");
    ("Access-Control-Allow-Methods", "GET, POST, PUT, DELETE, OPTIONS");
    ("Access-Control-Allow-Headers", "Content-Type, Authorization") ]%string.

Definition json (s : Z) (b : value) : Response :=
  {| headers := cors; status := s; payload := Some b |}.
Definition end_ (s : Z) : Response :=
  {| headers := cors; status := s; payload := None |}.

(** *** Requests, database answers, calls *)

Record Query := {
  id : option param;
  status : option param;
  search : option param;
  limit : option param;
  offset : option param
}.

Record Request := {
  method : jsstring;
  authorization : option jsstring;
  query : Query;
  body : value
}.

(** [{ data, error }] and [{ data, error, count }] of a query. *)
Record Answer := { data : value; error : value }.
Record ListAnswer := { rows : value; list_error : value; count : value }.

(** What [update] is given: the body when it is an object, or when it
    is an array the array with the named properties set on it. *)
Inductive Target :=
| TObject (o : gmap jsstring value)
| TArray (l : list value) (named : gmap jsstring value).

(** The database calls go through the client made by
    [getAuthenticatedClient(token)]; each carries that token. *)
Inductive event : Type -> Type :=
| auth_getUser (token : jsstring) : event GetUserResult
| select_single (token : jsstring) (id : value) : event Answer
| select_range (token : jsstring) (from to : number)
    (status : option value) (or_filter : option jsstring) : event ListAnswer
| insert (token : jsstring) (record : gmap jsstring value) : event Answer
| update (token : jsstring) (updates : Target) (id : value) : event Answer
| delete_ (token : jsstring) (id : value) : event Answer
| console_error (label : string) (detail : value) : event unit
| Date_toISOString : event jsstring.

Inductive prog (R : Type) : Type :=
| Ret (r : R)
| Vis {X : Type} (e : event X) (k : X -> prog R).
Arguments Ret {R} r.
Arguments Vis {R X} e k.

Fixpoint bind {R S : Type} (p : prog R) (f : R -> prog S) : prog S :=
  match p with
  | Ret r => f r
  | Vis e k => Vis e (fun x => bind (k x) f)
  end.

Definition call {X : Type} (e : event X) : prog X := Vis e Ret.

#[global] Instance prog_ret : MRet prog := @Ret.
#[global] Instance prog_bind : MBind prog := fun R S f p => bind p f.

Definition world := forall X : Type, event X -> X.
Definition made := { X : Type & event X }.

Fixpoint run {R : Type} (w : world) (p : prog R) : list made * R :=
  match p with
  | Ret r => ([], r)
  | Vis e k =>
      let '(t, r) := run w (k (w _ e)) in
      (existT _ e :: t, r)
  end.

(** The token of a database call; [None] for the other calls. *)
Definition database_token (c : made) : option jsstring :=
  match projT2 c with
  | select_single t _ | select_range t _ _ _ _ | insert t _
  | update t _ _ | delete_ t _ => Some t
  | _ => None
  end.


(** *** [verifyUser] and [getAuthenticatedClient] *)

(** [verifyUser]: the error message, or the user with the token. *)
Definition verifyUser (authHeader : option jsstring)
  : prog (jsstring + value * jsstring) :=
  match authHeader with
  | None => Ret (inl (lit "No authorization token provided"))
  | Some h =>
      if negb (ToBoolean (VString h)) || negb (starts_with (lit "Bearer ") h)
      then Ret (inl (lit "No authorization token provided"))
      else
        let token := drop 7 h in
        r ← call (auth_getUser token);
        if ToBoolean (getUser_error r) || negb (ToBoolean (data_user r))
        then Ret (inl (lit "Invalid or expired token"))
        else Ret (inr (data_user r, token))
  end.

(** The parameter when it is truthy ([if (id)], [if (status)],
    [if (search)]). *)
Definition truthy (p : option param) : option param :=
  if param_truthy p then p else None.

(** *** [getLoads] *)

(** The template literal of the [or] filter. *)
Definition or_filter_of (search : jsstring) : jsstring :=
  lit "load_number.ilike.%" ++ search ++ lit "%,broker_name.ilike.%"
  ++ search ++ lit "%".

Definition getLoads (token : jsstring) (req : Request) : prog Response :=
  let q := query req in
  match truthy (id q) with
  | Some i =>
      r ← call (select_single token (param_value i));
      if ToBoolean (error r)
      then Ret (json 404 (object [ ("error", str "Load not found") ]%string))
      else Ret (json 200 (object [ ("load", data r) ]%string))
  | None =>
      r ← call (select_range token
                   (parseInt_or 0 (offset q))
                   (sub (add (parseInt_or 0 (offset q))
                             (parseInt_or 50 (limit q)))
                        (number_of_Z 1))
                   (param_value <$> truthy (status q))
                   ((fun s => or_filter_of (param_string s))
                      <$> truthy (search q)));
      if ToBoolean (list_error r)
      then
        call (console_error "Error fetching loads:" (list_error r)) ;;
        Ret (json 500 (object [ ("error", str "Failed to fetch loads") ]%string))
      else
        Ret (json 200
               (object [ ("loads", rows r);
                         ("total", count r);
                         ("limit", VNumber (parseInt_or 50 (limit q)));
                         ("offset", VNumber (parseInt_or 0 (offset q))) ]%string))
  end.

(** *** [createLoad] *)

(** The own enumerable properties that [{...v}] copies: those of an
    object, the elements of an array and the code units of a string
    under their indices, nothing for the other values. *)
Definition indexed (l : list value) : gmap jsstring value :=
  list_to_map (imap (fun i x => (decimal (Z.of_nat i), x)) l).

Definition spread (v : value) : gmap jsstring value :=
  match v with
  | VObject o => o
  | VArray l => indexed l
  | VString s => indexed (map (fun c => VString [c]) s)
  | _ => ∅
  end.

(** [None] is a thrown TypeError, which the [catch] of the handler
    takes. *)
Definition createLoad (token : jsstring) (user : value) (req : Request)
  : prog (option Response) :=
  match get user "id" with
  | None => Ret None
  | Some user_id =>
      created_at ← call Date_toISOString;
      let loadRecord :=
        <[lit "created_at" := VString created_at]>
          (<[lit "user_id" := user_id]> (spread (body req))) in
      r ← call (insert token loadRecord);
      if ToBoolean (error r)
      then
        call (console_error "Error creating load:" (error r)) ;;
        Ret (Some (json 500
                     (object [ ("error", str "Failed to create load") ]%string)))
      else Ret (Some (json 201 (object [ ("load", data r) ]%string)))
  end.

(** *** [updateLoad] *)

(** The three [delete]s and the assignment of [updated_at]: they throw
    on [undefined] and [null] (at the first [delete], before the clock
    is read), and on a primitive (at the assignment, in the strict code
    of a module, after the clock is read). *)
Definition strip (o : gmap jsstring value) : gmap jsstring value :=
  delete (lit "created_at") (delete (lit "user_id") (delete (lit "id") o)).

Definition updates_of (body : value) : prog (option Target) :=
  match body with
  | VUndefined | VNull => Ret None
  | VBool _ | VNumber _ | VString _ =>
      call Date_toISOString ;; Ret None
  | VObject o =>
      updated_at ← call Date_toISOString;
      Ret (Some (TObject (<[lit "updated_at" := VString updated_at]> (strip o))))
  | VArray l =>
      updated_at ← call Date_toISOString;
      Ret (Some (TArray l {[ lit "updated_at" := VString updated_at ]}))
  end.

Definition updateLoad (token : jsstring) (req : Request)
  : prog (option Response) :=
  match truthy (id (query req)) with
  | None =>
      Ret (Some (json 400 (object [ ("error", str "Load ID required") ]%string)))
  | Some i =>
      u ← updates_of (body req);
      match u with
      | None => Ret None
      | Some updates =>
          r ← call (update token updates (param_value i));
          if ToBoolean (error r)
          then
            call (console_error "Error updating load:" (error r)) ;;
            Ret (Some (json 500
                         (object [ ("error", str "Failed to update load") ]%string)))
          else Ret (Some (json 200 (object [ ("load", data r) ]%string)))
      end
  end.

(** *** [deleteLoad] *)

Definition deleteLoad (token : jsstring) (req : Request) : prog Response :=
  match truthy (id (query req)) with
  | None => Ret (json 400 (object [ ("error", str "Load ID required") ]%string))
  | Some i =>
      r ← call (delete_ token (param_value i));
      if ToBoolean (error r)
      then
        call (console_error "Error deleting load:" (error r)) ;;
        Ret (json 500 (object [ ("error", str "Failed to delete load") ]%string))
      else
        Ret (json 200
               (object [ ("message", str "Load deleted successfully") ]%string))
  end.

(** *** [handler] *)

Definition dispatch (token : jsstring) (user : value) (req : Request)
  : prog (option Response) :=
  if bool_decide (method req = lit "GET") then r ← getLoads token req; Ret (Some r)
  else if bool_decide (method req = lit "POST") then createLoad token user req
  else if bool_decide (method req = lit "PUT") then updateLoad token req
  else if bool_decide (method req = lit "DELETE")
  then r ← deleteLoad token req; Ret (Some r)
  else Ret (Some (json 405 (object [ ("error", str "Method not allowed") ]%string))).

Definition handler (env : Env) (req : Request) : prog Response :=
  if bool_decide (method req = lit "OPTIONS") then Ret (end_ 200)
  else
    a ← verifyUser (authorization req);
    match a with
    | inl authError =>
        Ret (json 401 (object [ ("error", VString authError) ]%string))
    | inr (user, token) =>
        r ← dispatch token user req;
        match r with
        | Some response => Ret response
        | None =>
            call (console_error "Loads API error:"
                    (VString (TypeError_message env))) ;;
            Ret (json 500
                   (object [ ("error", str "Internal server error") ]%string))
        end
    end.

End Loads.

(** ** Vocabulary of the responses *)

(** The names of the sixteen positions of the data line, in order. *)
Definition field_names : list string :=
  [ "id"; "pickup_date"; "delivery_date"; "broker_company"; "contact";
    "phone"; "extension"; "email"; "origin"; "destination"; "equipment";
    "miles"; "posted_rate"; "booked_rate"; "shipper"; "receiver" ]%string.

(** What the record holds for the text [v] at position [i]: the text
    trimmed, and at the three numeric positions the number that
    [parseFloat] reads from it, 0 when it reads none. *)
Definition normalized (i : nat) (v : jsstring) : value :=
  if is_numeric_position i
  then VNumber (or_zero (parseFloat_string (trim v)))
  else VString (trim v).

(** What the record holds at position [i] for the values of a line:
    the default when the line has no value there. *)
Definition position_value (vals : list jsstring) (i : nat) : value :=
  match vals !! i with
  | Some v => normalized i v
  | None => default_at i
  end.

(** The 200 response for a data line [line] with the values [vals]:
    the body has the keys success, data, csvLine and rpm and no other;
    data is an object with the sixteen keys and no other, each holding
    the value of its position; csvLine is the line; rpm is the quotient
    of the booked rate by the mileage of data, with two digits, when
    both are above 0, and null otherwise. *)
Definition is_success (vals : list jsstring) (line : jsstring) (r : Response)
  : Prop :=
  status r = 200%Z
  ∧ ∃ o data,
      payload r = Some (VObject o)
      ∧ dom o = list_to_set (map lit [ "success"; "data"; "csvLine"; "rpm" ]%string)
      ∧ o !! lit "success" = Some (VBool true)
      ∧ o !! lit "csvLine" = Some (VString line)
      ∧ o !! lit "data" = Some (VObject data)
      ∧ dom data = list_to_set (map lit field_names)
      ∧ (∀ i key, field_names !! i = Some key →
                  data !! lit key = Some (position_value vals i))
      ∧ ∃ miles booked_rate,
          data !! lit "miles" = Some (VNumber miles)
          ∧ data !! lit "booked_rate" = Some (VNumber booked_rate)
          ∧ o !! lit "rpm"
            = Some (if gt miles (S754_zero false)
                       && gt booked_rate (S754_zero false)
                    then VString (toFixed (div booked_rate miles) 2)
                    else VNull).

(** The 422 response for a text: the body has the error message and,
    under raw, the text itself, and no other key. *)
Definition is_rejection (aiResponse : jsstring) (r : Response) : Prop :=
  status r = 422%Z
  ∧ ∃ o,
      payload r = Some (VObject o)
      ∧ dom o = list_to_set (map lit [ "error"; "raw" ]%string)
      ∧ o !! lit "error" = Some (VString (lit "Could not extract data from PDF"))
      ∧ o !! lit "raw" = Some (VString aiResponse).

(** The invoice email of the scenario text. *)
Definition scenario_invoice_email : jsstring := lit "billing@acme.com".


(** ** Vocabulary of the further properties *)

(** The body of the 405 response. *)
Definition method_not_allowed : value :=
  object [ ("error", str "Method not allowed") ]%string.

(** The bodies of the 500 responses of the catch blocks. *)
Definition failed_to_parse_pdf (details : jsstring) : value :=
  object [ ("error", str "Failed to parse PDF");
           ("details", VString details) ]%string.
Definition failed_to_process_body : value :=
  object [ ("error", str "Failed to process rate confirmation") ]%string.

(** The requests sent to the model and the records sent to the
    database in a run, in order. *)
Definition model_requests (t : list made) : list MessageRequest :=
  omap (fun c : made =>
          match projT2 c with
          | anthropic_messages_create r => Some r
          | _ => None
          end) t.

Definition inserted (t : list made) : list value :=
  omap (fun c : made =>
          match projT2 c with
          | supabase_loads_insert r => Some r
          | _ => None
          end) t.

(** The sixteen fields asked of the model by [HandlerJson], and the
    keys of the record it stores. *)
Definition load_fields : list string :=
  [ "load_number"; "broker_name"; "broker_mc"; "rate"; "pickup_date";
    "delivery_date"; "pickup_city"; "pickup_state"; "pickup_address";
    "delivery_city"; "delivery_state"; "delivery_address"; "commodity";
    "weight"; "miles"; "notes" ]%string.

Definition record_keys : list string :=
  ("user_id" :: load_fields ++ [ "source_file"; "status"; "created_at" ])%string.

(** A world in which the token is valid and the model call fails. *)
Definition failing_world : world :=
  world_of {| data_user := object [ ("id", str "user-1") ]%string;
              getUser_error := VNull |}
    (Rejected (lit "overloaded"))
    {| insert_data := VNull; insert_error := VNull |}
    (lit "2025-11-21T00:00:00.000Z").

(** A world in which the token is valid and the first block of the
    answer of the model is not a text block. *)
Definition no_text_world : world :=
  world_of {| data_user := object [ ("id", str "user-1") ]%string;
              getUser_error := VNull |}
    (NoText VUndefined eq_refl (lit "TypeError"))
    {| insert_data := VNull; insert_error := VNull |}
    (lit "2025-11-21T00:00:00.000Z").

(** A request with a bearer token and with the password of the source. *)
Definition scenario_request : Request :=
  {| method := lit "POST";
     authorization := Some (lit "Bearer token-1");
     body := object [ ("pdfBase64", str "JVBERi0x");
                      ("password", str "milian2024");
                      ("fileName", str "rc.pdf") ]%string |}.

(** The request of [HandlerJson] to the model. *)
Definition json_request (pdfBase64 : value) : MessageRequest :=
  {| model := lit "claude-sonnet-4-20250514";
     max_tokens := 4096;
     document_media_type := lit "application/pdf";
     document_data := pdfBase64;
     text := HandlerJson.prompt;
     system := None |}.

(** A world in which the token is valid and the model answers with a
    JSON text, and the reading of that text. *)
Definition json_world : world :=
  world_of {| data_user := object [ ("id", str "user-1") ]%string;
              getUser_error := VNull |}
    (Resolved (lit "{}"))
    {| insert_data := object [ ("id", str "row-1") ]%string;
       insert_error := VNull |}
    (lit "2025-11-21T00:00:00.000Z").

Definition parse_braces (s : jsstring) : option value :=
  if bool_decide (s = lit "{}") then Some (VObject ∅)
  else if bool_decide (s = lit "7") then Some (VNumber (number_of_Z 7))
  else None.

(** The record [HandlerJson] makes of the empty object for the user and
    the file of the scenario request. *)
Definition scenario_record : value :=
  default VNull
    (HandlerJson.loadRecord (object [ ("id", str "user-1") ]%string)
       (VObject ∅) (str "rc.pdf") (lit "2025-11-21T00:00:00.000Z")).

(** A response with the three CORS headers of the parsing handlers and
    one of the given status codes. *)
Definition within (codes : list Z) (r : Response) : Prop :=
  headers r
  = [ ("Access-Control-Allow-Origin", "*");
      ("Access-Control-Allow-Methods", "POST, OPTIONS");
      ("Access-Control-Allow-Headers", "Content-Type, Authorization") ]%string
  ∧ In (status r) codes.

(** *** The loads endpoint *)

(** The tokens of the database calls of a run, the records inserted
    and the updates sent, in order. *)
Definition database_calls (t : list Loads.made) : list jsstring :=
  omap Loads.database_token t.

Definition loads_inserted (t : list Loads.made) : list (gmap jsstring value) :=
  omap (fun c : Loads.made =>
          match projT2 c with
          | Loads.insert _ r => Some r
          | _ => None
          end) t.

Definition loads_updated (t : list Loads.made) : list (Loads.Target * value) :=
  omap (fun c : Loads.made =>
          match projT2 c with
          | Loads.update _ u i => Some (u, i)
          | _ => None
          end) t.

(** A world given by its answers. *)
Definition loads_world (user : GetUserResult) (answer : Loads.Answer)
  (listed : Loads.ListAnswer) (now : jsstring) : Loads.world :=
  fun X e =>
    match e in Loads.event X return X with
    | Loads.auth_getUser _ => user
    | Loads.select_single _ _ => answer
    | Loads.select_range _ _ _ _ _ => listed
    | Loads.insert _ _ => answer
    | Loads.update _ _ _ => answer
    | Loads.delete_ _ _ => answer
    | Loads.console_error _ _ => tt
    | Loads.Date_toISOString => now
    end.

(** A world in which the token is valid and the database answers
    without error, and requests with that token. *)
Definition loads_scenario : Loads.world :=
  loads_world {| data_user := object [ ("id", str "user-1") ]%string;
                 getUser_error := VNull |}
    {| Loads.data := object [ ("id", str "row-1") ]%string;
       Loads.error := VNull |}
    {| Loads.rows := VArray []; Loads.list_error := VNull;
       Loads.count := VNumber (number_of_Z 0) |}
    (lit "2025-11-21T00:00:00.000Z").

Definition no_query : Loads.Query :=
  {| Loads.id := None; Loads.status := None; Loads.search := None;
     Loads.limit := None; Loads.offset := None |}.

Definition loads_request (method : string) (query : Loads.Query) (body : value)
  : Loads.Request :=
  {| Loads.method := lit method;
     Loads.authorization := Some (lit "Bearer token-1");
     Loads.query := query;
     Loads.body := body |}.

(** The bodies of the responses of the loads endpoint. *)
Definition load_id_required : value :=
  object [ ("error", str "Load ID required") ]%string.
Definition internal_server_error : value :=
  object [ ("error", str "Internal server error") ]%string.
Definition load_body (data : value) : value :=
  object [ ("load", data) ]%string.
Definition failed (error : string) : value :=
  object [ ("error", str error) ]%string.
Definition loads_page (r : Loads.ListAnswer) (limit offset : number) : value :=
  object [ ("loads", Loads.rows r); ("total", Loads.count r);
           ("limit", VNumber limit); ("offset", VNumber offset) ]%string.

(** The range queries of a run: the two bounds, the status filter and
    the [or] filter. *)
Definition loads_ranges (t : list Loads.made)
  : list (number * number * option value * option jsstring) :=
  omap (fun c : Loads.made =>
          match projT2 c with
          | Loads.select_range _ from to status or_filter =>
              Some (from, to, status, or_filter)
          | _ => None
          end) t.

Definition query_id (id : string) : Loads.Query :=
  {| Loads.id := Some (Loads.One (lit id)); Loads.status := None;
     Loads.search := None; Loads.limit := None; Loads.offset := None |}.

(** What [parseInt] reads a number from: after blanks and one optional
    sign, a string that starts with a digit. *)
Definition starts_numeral (s : jsstring) : bool :=
  match trim_start s with
  | c :: t =>
      if ((c =? 43) || (c =? 45))%N
      then match t with d :: _ => is_digit d | [] => false end
      else is_digit c
  | [] => false
  end.

Definition query_limit (limit : string) : Loads.Query :=
  {| Loads.id := None; Loads.status := None; Loads.search := None;
     Loads.limit := Some (Loads.One (lit limit)); Loads.offset := None |}.

Definition query_page (limit offset : string) : Loads.Query :=
  {| Loads.id := None; Loads.status := None; Loads.search := None;
     Loads.limit := Some (Loads.One (lit limit));
     Loads.offset := Some (Loads.One (lit offset)) |}.

(** * Properties *)

(** ** The model on values the engine is known to give *)

Example parseFloat_tenth :
  parseFloat_string (lit "0.1") = S754_finite false 7205759403792794 (-56).
Proof. reflexivity. Qed.

Example parseFloat_prefix :
  parseFloat_string (lit "  -1.5e3 miles") = number_of_Z (-1500)
  ∧ parseFloat_string (lit "12abc") = number_of_Z 12
  ∧ parseFloat_string (lit "0x10") = S754_zero false
  ∧ parseFloat_string (lit "5.") = number_of_Z 5
  ∧ parseFloat_string (lit "1e") = number_of_Z 1
  ∧ parseFloat_string (lit ".5e1") = number_of_Z 5
  ∧ parseFloat_string (lit "-0") = S754_zero true
  ∧ parseFloat_string (lit "+Infinity!") = S754_infinity false.
Proof. by vm_compute. Qed.

Example parseFloat_nan :
  parseFloat_string [] = S754_nan
  ∧ parseFloat_string (lit "abc") = S754_nan
  ∧ parseFloat_string (lit ".") = S754_nan
  ∧ parseFloat_string (lit "-.e1") = S754_nan
  ∧ parseFloat_string (lit "infinity") = S754_nan
  ∧ parseFloat None = S754_nan.
Proof. by vm_compute. Qed.

Example parseFloat_range :
  parseFloat_string (lit "1e400") = S754_infinity false
  ∧ parseFloat_string (lit "1e-400") = S754_zero false
  ∧ parseFloat_string (lit "4.9e-324") = S754_finite false 1 (-1074)
  ∧ parseFloat_string (lit "1.7976931348623157e308")
    = S754_finite false 9007199254740991 971
  ∧ parseFloat_string (lit "9007199254740993")
    = parseFloat_string (lit "9007199254740992").
Proof. by vm_compute. Qed.

Example div_third :
  div (number_of_Z 1) (number_of_Z 3) = S754_finite false 6004799503160661 (-54).
Proof. reflexivity. Qed.

Example toFixed_known :
  toFixed (parseFloat_string (lit "2.5")) 2 = lit "2.50"
  ∧ toFixed (parseFloat_string (lit "1.005")) 2 = lit "1.00"
  ∧ toFixed (parseFloat_string (lit "0.125")) 2 = lit "0.13"
  ∧ toFixed (parseFloat_string (lit "1234.5678")) 2 = lit "1234.57"
  ∧ toFixed (parseFloat_string (lit "-0.001")) 2 = lit "-0.00"
  ∧ toFixed (parseFloat_string (lit "99.999")) 2 = lit "100.00"
  ∧ toFixed (S754_zero true) 2 = lit "0.00".
Proof. by vm_compute. Qed.

Example toFixed_large :
  toFixed (parseFloat_string (lit "1e21")) 2 = lit "1e+21"
  ∧ toFixed (parseFloat_string (lit "999999999999999999999")) 2 = lit "1e+21"
  ∧ toFixed (parseFloat_string (lit "1e23")) 2 = lit "1e+23"
  ∧ toFixed (parseFloat_string (lit "123456789012345678901234567890")) 2
    = lit "1.2345678901234568e+29"
  ∧ toFixed (parseFloat_string (lit "-3e22")) 2 = lit "-3e+22".
Proof. by vm_compute. Qed.

Example split_known :
  split 44%N [] = [[]]
  ∧ split 44%N (lit "a,,b,") = [lit "a"; []; lit "b"; []].
Proof. by vm_compute. Qed.

(** Backtracking of the blanks after the label: a blank is given back
    for the group to have a character; a line terminator cannot be; and
    blank lines are skipped. *)
Example csvMatch_known :
  csvMatch (lit "CSV LINE:   ") = Some (lit " ")
  ∧ csvMatch ((lit "CSV LINE:") ++ [10%N]) = None
  ∧ csvMatch (lit "CSV LINE:") = None
  ∧ csvMatch (lit "csv line: a,b" ++ [13%N; 10%N] ++ lit "next") = Some (lit "a,b")
  ∧ csvMatch (lit "CSV LINE:" ++ [10%N; 10%N] ++ lit "INVOICE EMAIL:" ++ [10%N] ++ lit "x")
    = Some (lit "INVOICE EMAIL:").
Proof. by vm_compute. Qed.

(** ** Strings: blanks, [trim], [split] *)

Lemma line_terminator_white c :
  is_line_terminator c = true → is_white_space c = true.
Proof. unfold is_white_space. intros ->. by rewrite !orb_true_r. Qed.

Lemma not_white_dot c : is_white_space c = false → is_dot c = true.
Proof.
  unfold is_dot. intros H. destruct (is_line_terminator c) eqn:E; [|done].
  apply line_terminator_white in E. congruence.
Qed.

Lemma not_white_not_newline c : is_white_space c = false → is_newline c = false.
Proof.
  intros H. destruct (is_newline c) eqn:E; [|done].
  unfold is_newline in E. apply N.eqb_eq in E. subst c. discriminate H.
Qed.

Lemma trim_start_blank w s : blank w → trim_start (w ++ s) = trim_start s.
Proof. induction 1 as [|c w Hc _ IH]; simpl; [done|]. by rewrite Hc. Qed.

Lemma trim_start_split s :
  ∃ w, blank w ∧ s = w ++ trim_start s.
Proof.
  induction s as [|c s [w [Hw IH]]]; simpl.
  - exists []. split; [constructor|done].
  - destruct (is_white_space c) eqn:E.
    + exists (c :: w). split; [by constructor|]. simpl. by f_equal.
    + exists []. split; [constructor|done].
Qed.

Lemma trim_start_head c s t :
  trim_start s = c :: t → is_white_space c = false.
Proof.
  induction s as [|a s IH]; simpl; [done|].
  destruct (is_white_space a) eqn:E; [done|]. by intros [= -> _].
Qed.

Lemma trim_start_keep c s : is_white_space c = false → trim_start (c :: s) = c :: s.
Proof. simpl. by intros ->. Qed.

Lemma trim_start_idem s : trim_start (trim_start s) = trim_start s.
Proof.
  destruct (trim_start s) as [|c t] eqn:E; [done|].
  apply trim_start_keep. by eapply trim_start_head.
Qed.

Lemma blank_app w1 w2 : blank w1 → blank w2 → blank (w1 ++ w2).
Proof. apply Forall_app_2. Qed.

Lemma blank_rev w : blank w → blank (rev w).
Proof. apply Forall_rev. Qed.

Create HintDb blanks.
#[local] Hint Resolve blank_app blank_rev : blanks.

Lemma trim_start_all_blank w : blank w → trim_start w = [].
Proof. intros H. rewrite <- (app_nil_r w). by rewrite trim_start_blank. Qed.

Lemma trim_end_blank s w : blank w → trim_end (s ++ w) = trim_end s.
Proof.
  intros H. unfold trim_end. rewrite rev_app_distr.
  by rewrite trim_start_blank by auto with blanks.
Qed.

Lemma trim_end_split s : ∃ w, blank w ∧ s = trim_end s ++ w.
Proof.
  destruct (trim_start_split (rev s)) as [w [Hw E]].
  exists (rev w). split; [by apply blank_rev|].
  unfold trim_end. rewrite <- rev_app_distr, <- E. by rewrite rev_involutive.
Qed.

(** Blanks in front of a string that starts with a character that is not
    one stay out of reach of [trim_end]. *)
Lemma trim_end_cons c s :
  is_white_space c = false → trim_end (c :: s) = c :: trim_end s.
Proof.
  intros Hc. unfold trim_end. simpl.
  destruct (trim_start_split (rev s)) as [w [Hw E]].
  destruct (trim_start (rev s)) as [|a t] eqn:Et.
  - rewrite app_nil_r in E. rewrite E, trim_start_blank by done.
    by rewrite trim_start_keep.
  - rewrite E at 1. rewrite <- app_assoc, trim_start_blank by done.
    change ((a :: t) ++ [c]) with (a :: (t ++ [c])).
    rewrite (trim_start_keep a) by by eapply trim_start_head.
    simpl. by rewrite rev_app_distr.
Qed.

Lemma trim_blank_l w s : blank w → trim (w ++ s) = trim s.
Proof. intros H. unfold trim. by rewrite trim_start_blank. Qed.

Lemma trim_blank_r s w : blank w → trim (s ++ w) = trim s.
Proof.
  intros H. unfold trim.
  destruct (trim_start_split s) as [v [Hv E]].
  destruct (trim_start s) as [|c t] eqn:Et.
  - rewrite app_nil_r in E. subst v.
    by rewrite (trim_start_all_blank (s ++ w)) by auto with blanks.
  - rewrite E, <- app_assoc, trim_start_blank by done. simpl.
    pose proof (trim_start_head _ _ _ Et) as Hc. rewrite Hc.
    change (c :: t ++ w) with ((c :: t) ++ w). by rewrite trim_end_blank.
Qed.

Lemma trim_trim_start s : trim (trim_start s) = trim s.
Proof. unfold trim. by rewrite trim_start_idem. Qed.

Lemma trim_all_blank w : blank w → trim w = [].
Proof. intros H. unfold trim. by rewrite trim_start_all_blank. Qed.

Lemma split_cons sep s : ∃ f fs, split sep s = f :: fs.
Proof.
  induction s as [|a s (f & fs & IH)]; simpl; [by eauto|].
  destruct (a =? sep)%N; [by eauto|]. rewrite IH. by eauto.
Qed.

Lemma split_no_sep sep v :
  Forall (fun c => c ≠ sep) v → split sep v = [v].
Proof.
  induction 1 as [|c v Hc _ IH]; simpl; [done|].
  apply N.eqb_neq in Hc. by rewrite Hc, IH.
Qed.

Lemma split_app_sep sep v s :
  Forall (fun c => c ≠ sep) v → split sep (v ++ sep :: s) = v :: split sep s.
Proof.
  induction 1 as [|c v Hc _ IH]; simpl.
  - by rewrite N.eqb_refl.
  - apply N.eqb_neq in Hc. by rewrite Hc, IH.
Qed.

Lemma split_join sep vals :
  vals ≠ [] → Forall (Forall (fun c => c ≠ sep)) vals →
  split sep (join sep vals) = vals.
Proof.
  intros Hne H. induction H as [|v vals Hv Hvals IH]; [done|].
  destruct vals as [|v' vals']; simpl.
  - by apply split_no_sep.
  - rewrite split_app_sep by done. f_equal. by apply IH.
Qed.

Lemma split_prepend sep w s :
  Forall (fun c => c ≠ sep) w →
  ∃ f fs, split sep s = f :: fs ∧ split sep (w ++ s) = (w ++ f) :: fs.
Proof.
  induction 1 as [|c w Hc _ (f & fs & E1 & E2)]; simpl.
  - destruct (split_cons sep s) as (f & fs & E). by eauto.
  - apply N.eqb_neq in Hc. rewrite Hc, E2. by eauto.
Qed.

Lemma split_append sep s w :
  Forall (fun c => c ≠ sep) w →
  ∃ init last, split sep s = init ++ [last]
               ∧ split sep (s ++ w) = init ++ [last ++ w].
Proof.
  intros Hw. induction s as [|c s (init & last & E1 & E2)]; simpl.
  - exists [], []. by rewrite split_no_sep.
  - destruct (c =? sep)%N.
    + exists ([] :: init), last. by rewrite E1, E2.
    + rewrite E1, E2. destruct init as [|f init]; simpl.
      * by exists [], (c :: last).
      * by exists ((c :: f) :: init), last.
Qed.

Lemma blank_no_comma w : blank w → Forall (fun c => c ≠ 44%N) w.
Proof. intros H. eapply Forall_impl; [exact H|]. by intros c Hc ->. Qed.

Lemma trim_split s :
  ∃ w1 w2, blank w1 ∧ blank w2 ∧ s = w1 ++ trim s ++ w2.
Proof.
  destruct (trim_start_split s) as (w1 & H1 & E1).
  destruct (trim_end_split (trim_start s)) as (w2 & H2 & E2).
  exists w1, w2. repeat split; [done..|].
  unfold trim. by rewrite <- E2.
Qed.

Lemma fields_blank_l w s : blank w → fields (w ++ s) = fields s.
Proof.
  intros H. unfold fields.
  destruct (split_prepend 44%N w s (blank_no_comma _ H)) as (f & fs & -> & ->).
  simpl. by rewrite trim_blank_l.
Qed.

Lemma fields_blank_r s w : blank w → fields (s ++ w) = fields s.
Proof.
  intros H. unfold fields.
  destruct (split_append 44%N s w (blank_no_comma _ H)) as (i & l & -> & ->).
  rewrite !map_app. simpl. by rewrite trim_blank_r.
Qed.

(** Trimming the line before splitting it changes no field. *)
Lemma fields_trim s : fields (trim s) = fields s.
Proof.
  destruct (trim_split s) as (w1 & w2 & H1 & H2 & E).
  rewrite E at 2. by rewrite fields_blank_l, fields_blank_r.
Qed.

(** ** The two patterns *)

Lemma lit_ci_prefix {A} l (k : jsstring → option A) s :
  lit_ci l k s = if prefix_ci l s then k (drop (length l) s) else None.
Proof.
  revert s. induction l as [|a l IH]; intros [|c s]; simpl; try done.
  destruct (canonicalize a =? canonicalize c)%N; simpl; [apply IH|done].
Qed.

Lemma search_label {A} l (k : jsstring → option A) s :
  search (lit_ci l k) s =
    match index_ci l s with
    | None => None
    | Some i =>
        match k (drop (i + length l) s) with
        | Some r => Some r
        | None => search (lit_ci l k) (drop (S i) s)
        end
    end.
Proof.
  induction s as [|c s IH].
  - destruct l as [|a l]; simpl; [|done]. by destruct (k []).
  - cbn [search index_ci]. rewrite lit_ci_prefix.
    destruct (prefix_ci l (c :: s)).
    + simpl. by rewrite drop_0.
    + rewrite IH. destruct (index_ci l s) as [i|]; simpl; [|done]. done.
Qed.

Lemma star_capture_accept p acc s :
  star_capture p accept acc s = Some (acc ++ (span p s).1).
Proof.
  revert acc. induction s as [|c s IH]; intros acc; simpl.
  - by rewrite app_nil_r.
  - destruct (p c); simpl; [|by rewrite app_nil_r].
    rewrite IH. destruct (span p s) as [a b]. simpl. by rewrite <- app_assoc.
Qed.

(** After blanks, a character that is not one starts the captured text,
    which runs to the end of its line. *)
Lemma after_label_line w c t :
  blank w → is_white_space c = false →
  after_label (w ++ c :: t) = Some (c :: (span is_dot t).1).
Proof.
  intros Hw Hc. unfold after_label.
  induction Hw as [|a w Ha _ IH]; simpl.
  - rewrite Hc, (not_white_not_newline c Hc), (not_white_dot c Hc).
    by rewrite star_capture_accept.
  - by rewrite Ha, IH.
Qed.

Lemma span_line line rest :
  is_line line → ends_line rest → (span is_dot (line ++ rest)).1 = line.
Proof.
  intros Hl Hr. induction Hl as [|c line Hc _ IH]; cbn [app span].
  - destruct rest as [|c rest]; [done|]. cbn [ends_line span] in *.
    unfold is_dot. by rewrite Hr.
  - unfold is_dot at 1. rewrite Hc. cbn [negb].
    destruct (span is_dot (line ++ rest)). cbn [fst] in *. by f_equal.
Qed.

Lemma prefix_ci_canonical l lab s :
  map canonicalize lab = map canonicalize l → prefix_ci l (lab ++ s) = true.
Proof.
  revert lab. induction l as [|a l IH]; intros [|c lab]; simpl; try done.
  intros [= E1 E2]. rewrite E1, N.eqb_refl. simpl. by apply IH.
Qed.

(** ** Spans of a character class *)

Lemma span_all p s : Forall (fun c => p c = true) (span p s).1.
Proof.
  induction s as [|c s IH]; simpl; [constructor|].
  destruct (p c) eqn:E; [|constructor].
  destruct (span p s). simpl in *. by constructor.
Qed.

Lemma span_head p c s : p c = false → span p (c :: s) = ([], c :: s).
Proof. simpl. by intros ->. Qed.

Lemma span_nil_head p s :
  (span p s).1 = [] → match s with c :: _ => p c = false | [] => True end.
Proof.
  destruct s as [|c s]; simpl; [done|].
  destruct (p c); [|done]. by destruct (span p s).
Qed.

Lemma span_app p s : (span p s).1 ++ (span p s).2 = s.
Proof.
  induction s as [|c s IH]; simpl; [done|].
  destruct (p c); [|done]. destruct (span p s). simpl in *. by f_equal.
Qed.


Lemma or_empty_Some s : or_empty (Some s) = s.
Proof. by destruct s. Qed.

Lemma not_blank_trim_start line :
  ¬ blank line → ∃ c t, trim_start line = c :: t ∧ is_white_space c = false.
Proof.
  intros H. destruct (trim_start_split line) as (w & Hw & E).
  destruct (trim_start line) as [|c t] eqn:Et.
  - rewrite app_nil_r in E. by subst w.
  - exists c, t. split; [done|]. by eapply trim_start_head.
Qed.

Lemma not_blank_trim line : ¬ blank line → trim line ≠ [].
Proof.
  intros (c & t & E & Hc)%not_blank_trim_start. unfold trim.
  by rewrite E, trim_end_cons.
Qed.

Lemma is_line_app a b : is_line (a ++ b) → is_line b.
Proof. unfold is_line. rewrite Forall_app. tauto. Qed.

(** A text in which the first occurrence of a label, in any letter
    case, is followed by blanks and by a line that is not blank. *)
Section LabelledLine.
Variable L : string.
Variables pre lab sep line rest : jsstring.
Hypothesis label_case : map canonicalize lab = map canonicalize (lit L).
Hypothesis first_occurrence :
  index_ci (lit L) (pre ++ lab ++ sep ++ line ++ rest) = Some (length pre).
Hypothesis blanks_between : blank sep.
Hypothesis one_line : is_line line.
Hypothesis not_blank : ¬ blank line.
Hypothesis line_ends : ends_line rest.

Lemma after_first_label :
  drop (length pre + length (lit L)) (pre ++ lab ++ sep ++ line ++ rest)
  = sep ++ line ++ rest.
Proof.
  assert (length (lit L) = length lab) as ->.
  { by rewrite <- (length_map canonicalize), <- label_case, length_map. }
  by rewrite <- length_app, app_assoc, drop_app_length.
Qed.

(** The group captured is the line, from its first character that is
    not a blank. *)
Lemma labelled_line_found :
  labelled_line L (pre ++ lab ++ sep ++ line ++ rest) = Some (trim_start line).
Proof.
  unfold labelled_line.
  rewrite search_label, first_occurrence, after_first_label.
  destruct (not_blank_trim_start line not_blank) as (c & t & E & Hc).
  destruct (trim_start_split line) as (w & Hw & Ew). rewrite E in *.
  assert (sep ++ line ++ rest = (sep ++ w) ++ c :: (t ++ rest)) as ->.
  { rewrite Ew at 1. by rewrite <- !app_assoc. }
  rewrite after_label_line by auto with blanks.
  rewrite span_line; [done| |done].
  pose proof one_line as Hline.
  rewrite Ew in Hline. apply is_line_app in Hline. by inversion Hline.
Qed.

Lemma labelled_line_trimmed :
  trim <$> labelled_line L (pre ++ lab ++ sep ++ line ++ rest)
  = Some (trim line).
Proof. rewrite labelled_line_found. cbn. by rewrite trim_trim_start. Qed.
End LabelledLine.

(** The response to such a text: success, with the record read from the
    fields of the line. *)
Lemma parse_data_line pre lab sep line rest :
  let aiResponse := pre ++ lab ++ sep ++ line ++ rest in
  map canonicalize lab = map canonicalize (lit "CSV LINE:") →
  index_ci (lit "CSV LINE:") aiResponse = Some (length pre) →
  blank sep → is_line line → ¬ blank line → ends_line rest →
  csvLine aiResponse = Some (trim line) ∧
  parse aiResponse =
    json 200 (success (loadData (fields line)) (trim line)
                (rpm (loadData (fields line)))).
Proof.
  intros aiResponse Hlab Hidx Hsep Hline Hnb Hrest.
  assert (csvLine aiResponse = Some (trim line)) as E.
  { by apply labelled_line_trimmed. }
  split; [done|]. unfold parse. rewrite E. unfold respond.
  pose proof (not_blank_trim line Hnb) as Hne.
  destruct (trim line) as [|c t] eqn:Et; [done|].
  by rewrite <- Et, fields_trim.
Qed.

Lemma join_has_sep sep v w l : In sep (join sep (v :: w :: l)).
Proof. cbn [join]. apply in_or_app. right. by left. Qed.

Lemma join_is_line vals :
  Forall is_field vals →
  is_line (join 44%N vals).
Proof.
  induction 1 as [|v vals Hv Hvals IH]; [constructor|].
  assert (is_line v) as Hl.
  { eapply Forall_impl; [exact Hv|]. by intros c [_ ?]. }
  destruct vals as [|w vals]; [done|].
  cbn [join]. apply Forall_app. split; [done|]. by constructor.
Qed.

Lemma values_no_comma vals :
  Forall is_field vals →
  Forall (Forall (fun c => c ≠ 44%N)) vals.
Proof.
  intros H. eapply Forall_impl; [exact H|]. intros v Hv.
  eapply Forall_impl; [exact Hv|]. by intros c [? _].
Qed.

Lemma comma_not_blank sep v w l : sep = 44%N → ¬ blank (join sep (v :: w :: l)).
Proof.
  intros -> H. pose proof (join_has_sep 44%N v w l) as Hin.
  unfold blank in H. rewrite List.Forall_forall in H. by apply H in Hin.
Qed.

(** ** Running a handler *)

Lemma run_bind {R S} (w : world) (p : prog R) (f : R → prog S) :
  run w (p ≫= f) =
    ((run w p).1 ++ (run w (f (run w p).2)).1, (run w (f (run w p).2)).2).
Proof.
  change (p ≫= f) with (bind p f).
  induction p as [r|X e k]; cbn [bind run fst snd app].
  - by destruct (run w (f r)).
  - rewrite H. destruct (run w (k (w X e))) as [t r]. cbn [fst snd].
    by destruct (run w (f r)).
Qed.

Lemma run_call {X} (w : world) (e : event X) :
  run w (call e) = ([existT X e], w X e).
Proof. reflexivity. Qed.

Lemma run_ret {R} (w : world) (r : R) : run w (Ret r) = ([], r).
Proof. reflexivity. Qed.

(** ** What the pattern captures *)

Lemma plus_capture_accept s g :
  plus_capture is_dot accept s = Some g →
  ∃ c t, s = c :: t ∧ is_dot c = true ∧ g = c :: (span is_dot t).1.
Proof.
  destruct s as [|c t]; [done|]. cbn [plus_capture].
  destruct (is_dot c) eqn:Hc; [|done].
  rewrite star_capture_accept. intros [= <-]. by exists c, t.
Qed.

Lemma opt_suffix {A} p (k : jsstring → option A) s r :
  opt p k s = Some r →
  k s = Some r ∨ ∃ c s', s = c :: s' ∧ k s' = Some r.
Proof.
  destruct s as [|c s']; [by left|]. cbn [opt].
  destruct (p c); [|by left].
  destruct (k s') eqn:E; [|by left].
  intros [= <-]. right. by exists c, s'.
Qed.

Lemma star_suffix {A} p (k : jsstring → option A) s r :
  star p k s = Some r → ∃ a s', s = a ++ s' ∧ k s' = Some r.
Proof.
  induction s as [|c s IH]; cbn [star].
  - intros E. by exists [], [].
  - destruct (p c); [|intros E; by exists [], (c :: s)].
    destruct (star p k s) as [r'|] eqn:Es.
    + intros [= ->]. destruct (IH eq_refl) as (pre & s' & -> & E).
      by exists (c :: pre), s'.
    + intros E. by exists [], (c :: s).
Qed.

(** The group captured after a label starts somewhere in what follows
    the label and runs to the end of its line. *)
Lemma after_label_capture s g :
  after_label s = Some g →
  ∃ a c t, s = a ++ c :: t ∧ is_dot c = true ∧ g = c :: (span is_dot t).1.
Proof.
  unfold after_label. intros H.
  apply star_suffix in H as (pre & s' & -> & E).
  apply opt_suffix in E as [E | (n & s'' & -> & E)];
    apply plus_capture_accept in E as (c & t & -> & Hc & ->).
  - by exists pre, c, t.
  - exists (pre ++ [n]), c, t. by rewrite <- app_assoc.
Qed.

Lemma after_label_blank s g : blank s → after_label s = Some g → blank g.
Proof.
  intros Hs H. apply after_label_capture in H as (pre & c & t & -> & _ & ->).
  apply Forall_app in Hs as [_ Hs]. apply Forall_cons in Hs as [Hc Ht].
  apply Forall_cons. split; [done|].
  rewrite <- (span_app is_dot t) in Ht. by apply Forall_app in Ht as [Ht _].
Qed.

Lemma after_label_is_line s g : after_label s = Some g → is_line g.
Proof.
  intros H. apply after_label_capture in H as (pre & c & t & -> & Hc & ->).
  apply Forall_cons. split.
  - unfold is_dot in Hc. by destruct (is_line_terminator c).
  - eapply Forall_impl; [apply span_all|]. intros x Hx. cbn in Hx.
    unfold is_dot in Hx. by destruct (is_line_terminator x).
Qed.

Lemma search_found {A} l (k : jsstring → option A) s r :
  search (lit_ci l k) s = Some r →
  ∃ j, k (drop (j + length l) s) = Some r.
Proof.
  induction s as [|c s IH]; cbn [search]; rewrite lit_ci_prefix.
  - destruct (prefix_ci l []); [|done].
    destruct (k (drop (length l) [])) eqn:E; [|done].
    intros [= <-]. by exists 0%nat.
  - destruct (prefix_ci l (c :: s)).
    + destruct (k (drop (length l) (c :: s))) eqn:E.
      * intros [= <-]. by exists 0%nat.
      * intros (j & Hj)%IH. by exists (S j).
    + intros (j & Hj)%IH. by exists (S j).
Qed.

Lemma blank_dec s : {blank s} + {¬ blank s}.
Proof.
  apply Forall_dec. intros c. destruct (is_white_space c); [by left|by right].
Qed.


(** ** Objects *)

Lemma dom_object (l : list (string * value)) :
  ∀ o, object l = VObject o → dom o = list_to_set (map (fun kv => lit kv.1) l).
Proof.
  intros o [= <-]. rewrite dom_list_to_map_L. by rewrite map_map.
Qed.

Lemma object_lookup (l : list (string * value)) k v :
  NoDup (map (fun kv : string * value => lit kv.1) l) →
  (k, v) ∈ l →
  ∀ o, object l = VObject o → o !! lit k = Some v.
Proof.
  intros Hnd Hin o [= <-].
  apply elem_of_list_to_map_1.
  - by rewrite map_map.
  - apply (list_elem_of_fmap_2 (fun kv : string * value => (lit kv.1, kv.2)) l (k, v) Hin).
Qed.

(** ** Trimmed and split values *)

Lemma trim_Forall (P : char16 → Prop) s : Forall P s → Forall P (trim s).
Proof.
  destruct (trim_split s) as (w1 & w2 & _ & _ & E). intros H.
  rewrite E in H. apply Forall_app in H as [_ H].
  by apply Forall_app in H as [H _].
Qed.

Lemma trim_idem s : trim (trim s) = trim s.
Proof.
  destruct (trim_split s) as (w1 & w2 & H1 & H2 & E).
  rewrite E at 2. by rewrite trim_blank_l, trim_blank_r.
Qed.

Lemma split_Forall (P : char16 → Prop) sep s :
  Forall P s → Forall (Forall P) (split sep s).
Proof.
  induction 1 as [|c s Hc _ IH]; cbn [split]; [by repeat constructor|].
  destruct (c =? sep)%N; [by constructor|].
  destruct (split sep s) as [|f fs]; [by repeat constructor|].
  apply Forall_cons in IH as [Hf Hfs]. by repeat constructor.
Qed.

Lemma split_without_sep sep s :
  Forall (Forall (fun c => c ≠ sep)) (split sep s).
Proof.
  induction s as [|c s IH]; cbn [split]; [by repeat constructor|].
  destruct (c =? sep)%N eqn:E; [by constructor|].
  apply N.eqb_neq in E.
  destruct (split sep s) as [|f fs]; [by repeat constructor|].
  apply Forall_cons in IH as [Hf Hfs]. by repeat constructor.
Qed.


Lemma join_cons sep v w l :
  join sep (v :: w :: l) = v ++ sep :: join sep (w :: l).
Proof. reflexivity. Qed.

Lemma join_split sep s : join sep (split sep s) = s.
Proof.
  induction s as [|c s IH]; [done|]. cbn [split].
  destruct (split_cons sep s) as (f & fs & E). rewrite E in *.
  destruct (c =? sep)%N eqn:Ec.
  - apply N.eqb_eq in Ec as ->. by rewrite join_cons, IH.
  - destruct fs as [|f' fs].
    + cbn [join] in *. by rewrite IH.
    + rewrite join_cons in *. cbn [app]. by rewrite IH.
Qed.

Lemma split_length sep s :
  length (split sep s) = S (count_occ N.eq_dec s sep).
Proof.
  induction s as [|c s IH]; [done|]. cbn [split count_occ].
  destruct (split_cons sep s) as (f & fs & E). rewrite E in *.
  destruct (N.eq_dec c sep) as [-> | Hne].
  - rewrite N.eqb_refl. cbn [length] in *. by rewrite IH.
  - apply N.eqb_neq in Hne. rewrite Hne. cbn [length] in *. by rewrite IH.
Qed.


(** ** Occurrences of a label *)

Lemma index_ci_unfold l s :
  index_ci l s =
    if prefix_ci l s then Some 0%nat
    else match s with
         | [] => None
         | _ :: s' => S <$> index_ci l s'
         end.
Proof. by destruct s. Qed.

Lemma index_ci_None l s :
  index_ci l s = None ↔
  ∀ pre lab suf, s = pre ++ lab ++ suf → map canonicalize lab ≠ map canonicalize l.
Proof.
  split.
  - intros H pre lab suf -> E. revert H.
    induction pre as [|c pre IH]; cbn [app]; rewrite index_ci_unfold.
    + by rewrite (prefix_ci_canonical l lab suf E).
    + destruct (prefix_ci l (c :: pre ++ lab ++ suf)); [done|].
      destruct (index_ci l (pre ++ lab ++ suf)); [done|]. by intros _; apply IH.
  - intros H. induction s as [|c s IH]; cbn [index_ci].
    + destruct (prefix_ci l []) eqn:E; [|done]. destruct l; [|done].
      by destruct (H [] [] []).
    + destruct (prefix_ci l (c :: s)) eqn:E.
      * exfalso. clear IH. revert E H. generalize (c :: s). clear c s.
        intros s E H.
        assert (∃ lab suf, s = lab ++ suf
                           ∧ map canonicalize lab = map canonicalize l)
          as (lab & suf & -> & Hl).
        { clear H. revert s E. induction l as [|a l IH]; intros s E.
          - by exists [], s.
          - destruct s as [|c s]; [done|]. cbn [prefix_ci] in E.
            apply andb_true_iff in E as [E1 E2]. apply N.eqb_eq in E1.
            destruct (IH s E2) as (lab & suf & -> & Hl).
            exists (c :: lab), suf. split; [done|]. simpl. by rewrite E1, Hl. }
        by apply (H [] lab suf).
      * rewrite IH; [done|]. intros pre lab suf ->. by apply (H (c :: pre) lab suf).
Qed.


(** ** The two responses of the parse *)

(** The lookup of a key of an object literal. *)
Ltac object_key :=
  eapply object_lookup;
  [ apply (bool_decide_unpack _); by vm_compute
  | repeat (apply elem_of_cons; first [ by left | right ])
  | reflexivity ].

Lemma rejection_response aiResponse :
  is_rejection aiResponse (json 422 (could_not_extract aiResponse)).
Proof.
  split; [done|].
  destruct (could_not_extract aiResponse) as [| | | | | |o] eqn:Eo; try done.
  exists o. split; [done|].
  split; [by rewrite (dom_object _ _ Eo)|].
  split; eapply object_lookup; try exact Eo;
    try (apply (bool_decide_unpack _); by vm_compute);
    repeat (apply elem_of_cons; first [ by left | right ]).
Qed.

Lemma position_text (vals : list jsstring) i :
  is_numeric_position i = false →
  VString (or_empty (map trim vals !! i)) = position_value vals i.
Proof.
  intros Hi. unfold position_value, normalized, default_at. rewrite Hi.
  rewrite list_lookup_fmap. destruct (vals !! i) as [v|]; [|done].
  cbn [fmap option_fmap option_map]. by rewrite or_empty_Some.
Qed.

Lemma position_number (vals : list jsstring) i :
  is_numeric_position i = true →
  VNumber (or_zero (parseFloat (map trim vals !! i))) = position_value vals i.
Proof.
  intros Hi. unfold position_value, normalized, default_at. rewrite Hi.
  rewrite list_lookup_fmap. destruct (vals !! i) as [v|]; [done|].
  by vm_compute.
Qed.

(** The 200 response holds what the fields of the line give. *)
Lemma success_response (vals : list jsstring) line :
  fields line = map trim vals →
  let d := loadData (fields line) in
  is_success vals line (json 200 (success d line (rpm d))).
Proof.
  intros Hf d. split; [done|].
  destruct (success d line (rpm d)) as [| | | | | |o] eqn:Eo; try done.
  destruct (loadData_value d) as [| | | | | |data] eqn:Ed; try done.
  exists o, data. split; [done|].
  split; [by rewrite (dom_object _ _ Eo)|].
  assert (∀ k v,
            (k, v) ∈ [ ("success", VBool true); ("data", loadData_value d);
                       ("csvLine", VString line);
                       ("rpm", rpm_value (rpm d)) ]%string →
            o !! lit k = Some v) as Ho.
  { intros k v Hin. eapply object_lookup; [|exact Hin|exact Eo].
    apply (bool_decide_unpack _). by vm_compute. }
  assert (∀ k v,
            (k, v) ∈ [ ("id", VString (id d));
                       ("pickup_date", VString (pickup_date d));
                       ("delivery_date", VString (delivery_date d));
                       ("broker_company", VString (broker_company d));
                       ("contact", VString (contact d));
                       ("phone", VString (phone d));
                       ("extension", VString (extension d));
                       ("email", VString (email d));
                       ("origin", VString (origin d));
                       ("destination", VString (destination d));
                       ("equipment", VString (equipment d));
                       ("miles", VNumber (miles d));
                       ("posted_rate", VNumber (posted_rate d));
                       ("booked_rate", VNumber (booked_rate d));
                       ("shipper", VString (shipper d));
                       ("receiver", VString (receiver d)) ]%string →
            data !! lit k = Some v) as Hd.
  { intros k v Hin. eapply object_lookup; [|exact Hin|exact Ed].
    apply (bool_decide_unpack _). by vm_compute. }
  split; [apply Ho; repeat (apply elem_of_cons; first [ by left | right ])|].
  split; [apply Ho; repeat (apply elem_of_cons; first [ by left | right ])|].
  split.
  { rewrite <- Ed. apply Ho.
    repeat (apply elem_of_cons; first [ by left | right ]). }
  split; [by rewrite (dom_object _ _ Ed)|].
  split.
  { intros i key Hkey.
    do 16 (destruct i as [|i];
           [ injection Hkey as <-;
             first [ rewrite <- position_text by done
                   | rewrite <- position_number by done ];
             rewrite <- Hf; apply Hd;
             repeat (apply elem_of_cons; first [ by left | right ])
           |]).
    done. }
  exists (miles d), (booked_rate d).
  split; [apply Hd; repeat (apply elem_of_cons; first [ by left | right ])|].
  split; [apply Hd; repeat (apply elem_of_cons; first [ by left | right ])|].
  erewrite Ho; [|repeat (apply elem_of_cons; first [ by left | right ])].
  f_equal. unfold rpm, rpm_value.
  by destruct (gt (miles d) _ && gt (booked_rate d) _).
Qed.

Lemma parse_rejection aiResponse :
  csvLine aiResponse = None ∨ csvLine aiResponse = Some [] →
  parse aiResponse = json 422 (could_not_extract aiResponse).
Proof. unfold parse. by intros [-> | ->]. Qed.

Lemma parse_success aiResponse line :
  csvLine aiResponse = Some line → line ≠ [] →
  parse aiResponse
  = json 200 (success (loadData (fields line)) line (rpm (loadData (fields line)))).
Proof. unfold parse. intros ->. by destruct line. Qed.

(** What follows the first occurrence of the label decides: blanks only,
    and there is no data line or an empty one; a character that is not a
    blank, and there is a data line that is not empty. *)
Lemma csvLine_after_label aiResponse i :
  index_ci (lit "CSV LINE:") aiResponse = Some i →
  (blank (drop (i + 9) aiResponse) →
   csvLine aiResponse = None ∨ csvLine aiResponse = Some [])
  ∧ (¬ blank (drop (i + 9) aiResponse) →
     ∃ line, csvLine aiResponse = Some line ∧ line ≠ []).
Proof.
  intros Hi. unfold csvLine, csvMatch, labelled_line.
  rewrite search_label, Hi.
  change (length (lit "CSV LINE:")) with 9%nat. split.
  - intros Hb.
    assert (∀ g, blank g → trim <$> Some g = Some []) as Hg.
    { intros g Hg. cbn. by rewrite trim_all_blank. }
    destruct (after_label (drop (i + 9) aiResponse)) as [g|] eqn:E.
    { right. apply Hg. by eapply after_label_blank. }
    destruct (search _ (drop (S i) aiResponse)) as [g|] eqn:Es; [|by left].
    right. apply Hg.
    apply search_found in Es as (j & Hj).
    change (length (lit "CSV LINE:")) with 9%nat in Hj.
    rewrite drop_drop in Hj.
    replace (S i + (j + 9))%nat with (i + 9 + S j)%nat in Hj by lia.
    rewrite <- drop_drop in Hj.
    eapply after_label_blank; [|exact Hj]. by apply Forall_drop.
  - intros Hnb.
    destruct (not_blank_trim_start _ Hnb) as (c & t & Et & Hc).
    destruct (trim_start_split (drop (i + 9) aiResponse)) as (w & Hw & Ew).
    rewrite Et in Ew.
    assert (after_label (drop (i + 9) aiResponse)
            = Some (c :: (span is_dot t).1)) as ->.
    { rewrite Ew. by apply after_label_line. }
    eexists. split; [reflexivity|].
    apply not_blank_trim. intros H. apply Forall_cons in H as [H _].
    by rewrite Hc in H.
Qed.

(** The response to a text whose first label is followed by blanks and
    by a line of values that is not blank. *)
Lemma parse_values pre lab sep vals rest :
  let aiResponse := pre ++ lab ++ sep ++ join 44%N vals ++ rest in
  map canonicalize lab = map canonicalize (lit "CSV LINE:") →
  index_ci (lit "CSV LINE:") aiResponse = Some (length pre) →
  blank sep → ends_line rest →
  vals ≠ [] → Forall is_field vals → ¬ blank (join 44%N vals) →
  is_success vals (trim (join 44%N vals)) (parse aiResponse).
Proof.
  intros aiResponse Hlab Hidx Hsep Hrest Hne Hvals Hnb.
  destruct (parse_data_line pre lab sep (join 44%N vals) rest)
    as [_ E]; try done.
  { by apply join_is_line. }
  fold aiResponse in E. rewrite E.
  rewrite <- (fields_trim (join 44%N vals)).
  apply success_response.
  rewrite fields_trim. unfold fields.
  by rewrite split_join by (done || by apply values_no_comma).
Qed.

Lemma csvLine_trimmed_line aiResponse line :
  csvLine aiResponse = Some line → trim line = line ∧ is_line line.
Proof.
  unfold csvLine, csvMatch, labelled_line.
  destruct (search _ aiResponse) as [g|] eqn:E; [|done].
  intros [= <-]. split; [apply trim_idem|].
  apply search_found in E as (j & Hj).
  apply trim_Forall. by eapply after_label_is_line.
Qed.


(** ** The delimited line *)

(** C1, as the code has it.  A response whose data line has exactly 16
    comma-separated values parses to the 200 response whose record
    holds, under the sixteen names in order, the 16 values, each
    trimmed, the three numeric ones read by [parseFloat] with 0 for
    NaN.  For the scenario text the record has id LD100, equipment R,
    miles 800, posted rate 0 and booked rate 2000, and the rpm is 2.50;
    the body has the four keys success, data, csvLine and rpm and the
    record its sixteen, so that the invoice email is in neither. *)
Theorem sixteen_values_parsed :
  (∀ pre lab sep vals rest,
     let aiResponse := pre ++ lab ++ sep ++ join 44%N vals ++ rest in
     length vals = 16%nat →
     map canonicalize lab = map canonicalize (lit "CSV LINE:") →
     index_ci (lit "CSV LINE:") aiResponse = Some (length pre) →
     blank sep → ends_line rest → Forall is_field vals →
     is_success vals (trim (join 44%N vals)) (parse aiResponse)
     ∧ ∀ i v, vals !! i = Some v → position_value vals i = normalized i v)
  ∧ is_success scenario_values (join 44%N scenario_values) (parse scenario)
  ∧ ∃ o data,
      payload (parse scenario) = Some (VObject o)
      ∧ o !! lit "data" = Some (VObject data)
      ∧ data !! lit "id" = Some (VString (lit "LD100"))
      ∧ data !! lit "equipment" = Some (VString (lit "R"))
      ∧ data !! lit "miles" = Some (VNumber (number_of_Z 800))
      ∧ data !! lit "booked_rate" = Some (VNumber (number_of_Z 2000))
      ∧ data !! lit "posted_rate" = Some (VNumber (S754_zero false))
      ∧ o !! lit "rpm" = Some (VString (lit "2.50")).
Proof.
  assert (∀ pre lab sep vals rest,
            let aiResponse := pre ++ lab ++ sep ++ join 44%N vals ++ rest in
            length vals = 16%nat →
            map canonicalize lab = map canonicalize (lit "CSV LINE:") →
            index_ci (lit "CSV LINE:") aiResponse = Some (length pre) →
            blank sep → ends_line rest → Forall is_field vals →
            is_success vals (trim (join 44%N vals)) (parse aiResponse)) as H.
  { intros pre lab sep vals rest aiResponse Hlen Hlab Hidx Hsep Hrest Hvals.
    destruct vals as [|v [|v' vals]]; try discriminate Hlen.
    apply parse_values; try done. by apply comma_not_blank. }
  assert (is_success scenario_values (join 44%N scenario_values) (parse scenario))
    as Hs.
  { apply (H [] (lit "CSV LINE:") [10%N] scenario_values
             (lit "

INVOICE EMAIL:
billing@acme.com") eq_refl eq_refl eq_refl
             ltac:(by repeat constructor) eq_refl).
    by vm_compute; repeat constructor. }
  split; [|split; [exact Hs|]].
  - intros pre lab sep vals rest aiResponse Hlen Hlab Hidx Hsep Hrest Hvals.
    split; [by apply H|].
    intros i v Hv. unfold position_value. by rewrite Hv.
  - destruct Hs as (_ & o & data & Hp & _ & _ & _ & Hd & _ & Hpos
                    & miles & booked_rate & Hm & Hb & Hrpm).
    exists o, data. split; [exact Hp|]. split; [exact Hd|].
    pose proof (Hpos 0%nat _ eq_refl) as H0.
    pose proof (Hpos 10%nat _ eq_refl) as H10.
    pose proof (Hpos 11%nat _ eq_refl) as H11.
    pose proof (Hpos 12%nat _ eq_refl) as H12.
    pose proof (Hpos 13%nat _ eq_refl) as H13.
    rewrite H11 in Hm. rewrite H13 in Hb.
    injection Hm as <-. injection Hb as <-.
    repeat split; [exact H0|exact H10|exact H11|exact H13|exact H12|].
    rewrite Hrpm. by vm_compute.
Qed.

Lemma sixteen_values_parsed_witness :
  is_success scenario_values (trim (join 44%N scenario_values)) (parse scenario).
Proof.
  refine (proj1 (proj1 sixteen_values_parsed [] (lit "CSV LINE:") [10%N]
                   scenario_values (lit "

INVOICE EMAIL:
billing@acme.com") eq_refl eq_refl eq_refl
                   ltac:(by repeat constructor) eq_refl _)).
  by vm_compute; repeat constructor.
Defined.

(** The claim C1 fails where it has the invoice email in the result:
    the second pattern reads it from the scenario text, but the body of
    the response and its record hold it under no key. *)
Lemma invoice_email_not_in_result :
  invoiceEmail scenario = Some scenario_invoice_email
  ∧ ∃ o data,
      payload (parse scenario) = Some (VObject o)
      ∧ o !! lit "data" = Some (VObject data)
      ∧ (∀ k, o !! k ≠ Some (VString scenario_invoice_email))
      ∧ (∀ k, data !! k ≠ Some (VString scenario_invoice_email)).
Proof.
  split; [by vm_compute|].
  assert (is_success scenario_values (join 44%N scenario_values) (parse scenario))
    as Hs.
  { pose proof (parse_values [] (lit "CSV LINE:") [10%N] scenario_values
                  (lit "

INVOICE EMAIL:
billing@acme.com") eq_refl eq_refl ltac:(by repeat constructor) eq_refl
                  ltac:(done)) as H.
    apply H; [by vm_compute; repeat constructor|].
    intros Hb. by inversion Hb. }
  destruct Hs as (_ & o & data & Hp & Hdo & Hsucc & Hline & Hd & Hdd & Hpos
                  & miles & booked_rate & Hm & Hb & Hrpm).
  exists o, data. split; [exact Hp|]. split; [exact Hd|]. split.
  - intros k Hk.
    assert (k ∈ dom o) as Hin by (apply elem_of_dom; by eexists).
    rewrite Hdo in Hin. apply elem_of_list_to_set in Hin.
    pose proof (Hpos 11%nat _ eq_refl) as H11.
    pose proof (Hpos 13%nat _ eq_refl) as H13.
    rewrite H11 in Hm. rewrite H13 in Hb.
    injection Hm as <-. injection Hb as <-.
    repeat (apply elem_of_cons in Hin as [-> | Hin];
            [ first [ by rewrite Hsucc in Hk | by rewrite Hd in Hk
                    | by rewrite Hline in Hk
                    | rewrite Hrpm in Hk; by vm_compute in Hk ] |]).
    by apply elem_of_nil in Hin.
  - intros k Hk.
    assert (k ∈ dom data) as Hin by (apply elem_of_dom; by eexists).
    rewrite Hdd in Hin. apply elem_of_list_to_set in Hin.
    assert (∀ i key, field_names !! i = Some key → k = lit key → False) as Hno.
    { intros i key Hkey ->. rewrite (Hpos i key Hkey) in Hk.
      do 16 (destruct i as [|i]; [by vm_compute in Hk|]). done. }
    repeat (apply elem_of_cons in Hin as [Hin | Hin];
            [ first [ by apply (Hno 0%nat _ eq_refl) | by apply (Hno 1%nat _ eq_refl)
                    | by apply (Hno 2%nat _ eq_refl) | by apply (Hno 3%nat _ eq_refl)
                    | by apply (Hno 4%nat _ eq_refl) | by apply (Hno 5%nat _ eq_refl)
                    | by apply (Hno 6%nat _ eq_refl) | by apply (Hno 7%nat _ eq_refl)
                    | by apply (Hno 8%nat _ eq_refl) | by apply (Hno 9%nat _ eq_refl)
                    | by apply (Hno 10%nat _ eq_refl) | by apply (Hno 11%nat _ eq_refl)
                    | by apply (Hno 12%nat _ eq_refl) | by apply (Hno 13%nat _ eq_refl)
                    | by apply (Hno 14%nat _ eq_refl) | by apply (Hno 15%nat _ eq_refl) ] |]).
    by apply elem_of_nil in Hin.
Qed.

(** Which values a response is the success response of depends on the
    first sixteen only. *)
Lemma is_success_positions vals vals' line r :
  (∀ i, (i < 16)%nat → vals' !! i = vals !! i) →
  is_success vals line r → is_success vals' line r.
Proof.
  intros Hsame (Hs & o & data & Hp & Hdo & Hsucc & Hline & Hd & Hdd & Hpos & Hrpm).
  split; [done|]. exists o, data. repeat (split; [done|]).
  split; [|done].
  intros i key Hkey. rewrite (Hpos i key Hkey).
  unfold position_value. rewrite Hsame; [done|].
  apply lookup_lt_Some in Hkey. exact Hkey.
Qed.

(** C3, as the code has it.  After the label and blanks, a line of
    values that is not blank always parses to the 200 response: a
    position the line has no value for holds the empty string, or 0
    when numeric, and the response is the one of the first sixteen
    values alone.  When only blanks follow the label, to the end of the
    text, the response is the 422 one. *)
Theorem short_and_long_lines :
  (∀ pre lab sep vals rest,
     let aiResponse := pre ++ lab ++ sep ++ join 44%N vals ++ rest in
     map canonicalize lab = map canonicalize (lit "CSV LINE:") →
     index_ci (lit "CSV LINE:") aiResponse = Some (length pre) →
     blank sep → ends_line rest →
     Forall is_field vals → ¬ blank (join 44%N vals) →
     is_success vals (trim (join 44%N vals)) (parse aiResponse)
     ∧ (∀ i, (length vals ≤ i)%nat → position_value vals i = default_at i)
     ∧ is_success (take 16 vals) (trim (join 44%N vals)) (parse aiResponse))
  ∧ (∀ aiResponse i,
       index_ci (lit "CSV LINE:") aiResponse = Some i →
       blank (drop (i + 9) aiResponse) →
       is_rejection aiResponse (parse aiResponse)).
Proof.
  split.
  - intros pre lab sep vals rest aiResponse Hlab Hidx Hsep Hrest Hvals Hnb.
    assert (is_success vals (trim (join 44%N vals)) (parse aiResponse)) as Hs.
    { apply parse_values; try done. intros ->. apply Hnb. constructor. }
    split; [exact Hs|]. split.
    + intros i Hi. unfold position_value.
      by rewrite (lookup_ge_None_2 vals i Hi).
    + apply (is_success_positions vals); [|exact Hs].
      intros i Hi. by rewrite lookup_take_lt.
  - intros aiResponse i Hi Hb.
    rewrite (parse_rejection aiResponse
               (proj1 (csvLine_after_label aiResponse i Hi) Hb)).
    apply rejection_response.
Qed.

Lemma short_and_long_lines_witness :
  let vals := [lit "LD7"; lit " 2025-01-02 "; []; lit "Acme"] in
  let aiResponse := lit "Result - csv line:  " ++ join 44%N vals ++ lit "
INVOICE EMAIL: none" in
  is_success vals (lit "LD7, 2025-01-02 ,,Acme") (parse aiResponse)
  ∧ position_value vals 11 = VNumber (S754_zero false)
  ∧ position_value vals 15 = VString []
  ∧ is_rejection (lit "CSV LINE:  ") (parse (lit "CSV LINE:  ")).
Proof.
  intros vals aiResponse.
  destruct short_and_long_lines as [Hvalues Hblank].
  destruct (Hvalues (lit "Result - ") (lit "csv line:") (lit "  ") vals (lit "
INVOICE EMAIL: none") eq_refl eq_refl
              ltac:(by repeat constructor) eq_refl
              ltac:(by vm_compute; repeat constructor)
              ltac:(by intros H; inversion H)) as (Hs & Hpos & _).
  split; [exact Hs|].
  split; [apply Hpos; vm_compute; lia|].
  split; [apply Hpos; vm_compute; lia|].
  apply (Hblank (lit "CSV LINE:  ") 0%nat eq_refl).
  by repeat constructor.
Defined.

(** The claim C3 fails on a line of blanks: the label is there, the line
    after it has one value, a blank one, nothing follows it, and the
    answer is the 422 response with no record. *)
Lemma blank_line_rejected :
  let aiResponse := lit "CSV LINE:" ++ [10%N] ++ lit "  " in
  length (split 44%N (lit "  ")) = 1%nat
  ∧ is_rejection aiResponse (parse aiResponse).
Proof.
  intros aiResponse. split; [done|].
  assert (parse aiResponse = json 422 (could_not_extract aiResponse)) as ->
    by (by vm_compute).
  apply rejection_response.
Qed.

(** C4. A text in which the label CSV LINE: does not occur, the empty
    text included, gets the 422 response: its body holds the error
    message and, under raw, the text as it is, and nothing else, so that
    no record is in it; so does the handler when the model answers with
    such a text. *)
Theorem label_not_found :
  ∀ aiResponse,
    index_ci (lit "CSV LINE:") aiResponse = None →
    is_rejection aiResponse (parse aiResponse)
    ∧ ∀ (w : world) SYSTEM_PROMPT pdfBase64,
        w _ (anthropic_messages_create
               (extraction_request SYSTEM_PROMPT pdfBase64))
        = Resolved aiResponse →
        is_rejection aiResponse (run w (extract SYSTEM_PROMPT pdfBase64)).2.
Proof.
  intros aiResponse H.
  assert (csvLine aiResponse = None) as E.
  { unfold csvLine, csvMatch, labelled_line. by rewrite search_label, H. }
  assert (is_rejection aiResponse (parse aiResponse)) as Hr.
  { rewrite (parse_rejection aiResponse (or_introl E)).
    apply rejection_response. }
  split; [exact Hr|].
  intros w P pdf Hw. unfold extract.
  rewrite run_bind, run_call. cbn [fst snd]. by rewrite Hw, run_ret.
Qed.

Lemma label_not_found_witness :
  is_rejection [] (parse [])
  ∧ is_rejection (lit "Sorry, I cannot read this file.")
      (parse (lit "Sorry, I cannot read this file.")).
Proof.
  split.
  - exact (proj1 (label_not_found [] eq_refl)).
  - exact (proj1 (label_not_found (lit "Sorry, I cannot read this file.")
                    eq_refl)).
Defined.

(** ** The labels *)

(** C8, as the code has it.  Each of the two labels is looked for
    without regard to letter case and at any place of the text, also
    after other text on its line: the first occurrence counts, and the
    block is the rest of the first line after it that is not blank,
    trimmed. *)
Theorem labels_case_blind_not_anchored :
  ∀ pre lab sep line rest,
    let aiResponse := pre ++ lab ++ sep ++ line ++ rest in
    blank sep → is_line line → ¬ blank line → ends_line rest →
    (map canonicalize lab = map canonicalize (lit "CSV LINE:") →
     index_ci (lit "CSV LINE:") aiResponse = Some (length pre) →
     csvLine aiResponse = Some (trim line))
    ∧ (map canonicalize lab = map canonicalize (lit "INVOICE EMAIL:") →
       index_ci (lit "INVOICE EMAIL:") aiResponse = Some (length pre) →
       invoiceEmail aiResponse = Some (trim line)).
Proof.
  intros pre lab sep line rest aiResponse Hsep Hline Hnb Hrest.
  split; intros Hlab Hidx.
  - by apply labelled_line_trimmed.
  - by apply labelled_line_trimmed.
Qed.

Lemma labels_case_blind_not_anchored_witness :
  csvLine (lit "Here is the Csv Line: LD1,2025-11-21 ") = Some (lit "LD1,2025-11-21").
Proof.
  assert (¬ blank (lit "LD1,2025-11-21 ")) as Hnb by (by intros H; inversion H).
  exact (proj1 (labels_case_blind_not_anchored (lit "Here is the ")
                  (lit "Csv Line:") (lit " ") (lit "LD1,2025-11-21 ") []
                  ltac:(by repeat constructor) ltac:(by repeat constructor)
                  Hnb I) eq_refl eq_refl).
Defined.

(** The claim C8 fails where it has the labels anchored: a label in the
    middle of a line, after other text, is matched all the same. *)
Lemma label_matched_in_mid_line :
  let aiResponse := lit "note: the csv line: LD1,x and the invoice email: a@b.co" in
  csvLine aiResponse = Some (lit "LD1,x and the invoice email: a@b.co")
  ∧ invoiceEmail aiResponse = Some (lit "a@b.co")
  ∧ status (parse aiResponse) = 200%Z.
Proof. by vm_compute. Qed.

(** ** Dates *)

Lemma digit_not_white c : is_digit c = true → is_white_space c = false.
Proof.
  unfold is_digit, is_white_space, is_line_terminator.
  intros [H1 H2]%andb_true_iff. apply N.leb_le in H1, H2.
  repeat (apply orb_false_iff; split);
    try apply N.eqb_neq; try apply andb_false_iff; try lia.
  left. apply N.leb_gt. lia.
Qed.

(** A string that begins and ends with characters that are not blanks
    is its own trim. *)
Lemma trim_fixed c s :
  is_white_space c = false →
  is_white_space (List.last s c) = false →
  trim (c :: s) = c :: s.
Proof.
  intros Hc Hl. unfold trim. rewrite trim_start_keep by done.
  unfold trim_end.
  destruct (rev (c :: s)) as [|a t] eqn:E.
  { apply (f_equal (@length _)) in E. by rewrite length_rev in E. }
  assert (a = List.last s c) as ->.
  { apply (f_equal (@rev _)) in E. rewrite rev_involutive in E. simpl in E.
    destruct (rev t) as [|b u] eqn:Et; simpl in E.
    - by injection E as -> ->.
    - injection E as -> ->. by rewrite last_last. }
  rewrite trim_start_keep by done. by rewrite <- E, rev_involutive.
Qed.

Lemma canonical_date_trim date : is_canonical_date date = true → trim date = date.
Proof.
  unfold is_canonical_date. intros Hd.
  do 10 (destruct date as [|? date]; [done|]). destruct date; [|done].
  apply andb_true_iff in Hd as [[Hd _]%andb_true_iff _].
  cbn [forallb] in Hd. repeat (apply andb_true_iff in Hd as [? Hd]).
  apply trim_fixed; by apply digit_not_white.
Qed.

Lemma slash_date_trim date : is_slash_date date = true → trim date = date.
Proof.
  unfold is_slash_date. intros Hd.
  pose proof (span_app is_digit date) as Em.
  pose proof (span_all is_digit date) as Hm.
  destruct (span is_digit date) as [m r]. cbn [fst snd] in *.
  destruct r as [|c1 r1]; [done|].
  pose proof (span_app is_digit r1) as Ed.
  destruct (span is_digit r1) as [d r2]. cbn [fst snd] in *.
  destruct r2 as [|c2 y]; [done|].
  repeat (apply andb_true_iff in Hd as [Hd ?]).
  destruct m as [|c m]; [done|].
  destruct y as [|y1 [|y2 [|y3 [|y4 [|]]]]]; try done.
  cbn [forallb] in *. repeat (apply andb_true_iff in H as [? H]).
  subst date r1. inversion Hm; subst.
  cbn [app]. apply trim_fixed; [by apply digit_not_white|].
  replace (m ++ c1 :: d ++ [c2; y1; y2; y3; y4])
    with ((m ++ c1 :: d ++ [c2; y1; y2; y3]) ++ [y4])
    by (rewrite <- app_assoc; cbn [app]; by rewrite <- app_assoc).
  rewrite last_last. by apply digit_not_white.
Qed.

(** C9. A date already in the canonical format, YYYY-MM-DD as the
    prompt of the token handler asks for it (or M/D/YYYY, the format of
    the password handler), is its own trim, and as value of the pickup
    or the delivery position of the data line it is in the record
    unchanged. *)
Theorem canonical_date_unchanged :
  ∀ csvLine date,
    is_canonical_date date = true ∨ is_slash_date date = true →
    trim date = date
    ∧ (split 44%N csvLine !! 1%nat = Some date →
       pickup_date (loadData (fields csvLine)) = date)
    ∧ (split 44%N csvLine !! 2%nat = Some date →
       delivery_date (loadData (fields csvLine)) = date).
Proof.
  intros line date Hd.
  assert (trim date = date) as Ht.
  { destruct Hd; [by apply canonical_date_trim|by apply slash_date_trim]. }
  split; [done|].
  split; intros E; unfold loadData, fields; cbn [pickup_date delivery_date];
    by rewrite list_lookup_fmap, E; cbn -[trim or_empty]; rewrite or_empty_Some.
Qed.

Lemma canonical_date_unchanged_witness :
  pickup_date (loadData (fields (lit "LD100,2025-11-21,11/24/2025")))
  = lit "2025-11-21"
  ∧ delivery_date (loadData (fields (lit "LD100,2025-11-21,11/24/2025")))
    = lit "11/24/2025".
Proof.
  split.
  - exact (proj1 (proj2 (canonical_date_unchanged
                           (lit "LD100,2025-11-21,11/24/2025")
                           (lit "2025-11-21") (or_introl eq_refl))) eq_refl).
  - exact (proj2 (proj2 (canonical_date_unchanged
                           (lit "LD100,2025-11-21,11/24/2025")
                           (lit "11/24/2025") (or_intror eq_refl))) eq_refl).
Defined.

(** ** The success response *)



(** ** The guard on the payload *)

Lemma verifyUser_no_model_call (w : world) authHeader :
  no_model_call (run w (verifyUser authHeader)).1.
Proof.
  unfold verifyUser, no_model_call.
  destruct authHeader as [h|]; [|by constructor].
  destruct (negb _ || negb _); [by constructor|].
  rewrite run_bind, run_call. cbn [fst snd].
  destruct (ToBoolean _ || negb _); by repeat constructor.
Qed.

Lemma failed_to_parse_no_model_call (w : world) message :
  no_model_call (run w (failed_to_parse message)).1.
Proof. by repeat constructor. Qed.

(** The two tests on the method, for a POST request. *)
Ltac post_request Hm :=
  rewrite Hm;
  rewrite bool_decide_eq_false_2 by done;
  rewrite bool_decide_eq_true_2 by done;
  cbn [negb].

(** The same, whatever the method: the answers to OPTIONS and to the
    other methods make no call. *)
Ltac any_method :=
  destruct (bool_decide _); [by constructor|];
  destruct (negb (bool_decide _)); [by constructor|].

(** C7, as the code has it.  A request whose body is missing or has no
    truthy [pdfBase64] never reaches the model, whatever the rest of the
    request and the answers of the world.  When the body is there, the
    method is POST and the authentication of the handler has passed (the
    bearer token, or the password), the answer is the 400 response, for
    the password handler before any call at all. *)
Theorem missing_payload_rejected :
  ∀ (w : world) env req,
    (∀ v, get (body req) "pdfBase64" = Some v → ToBoolean v = false) →
    no_model_call (run w (HandlerToken.handler env req)).1
    ∧ no_model_call (run w (HandlerPassword.handler env req)).1
    ∧ (method req = lit "POST" → is_Some (get (body req) "pdfBase64") →
       (∀ user, (run w (verifyUser (authorization req))).2 = inr user →
          (run w (HandlerToken.handler env req)).2 = json 400 no_pdf_data)
       ∧ (∀ password,
            get (body req) "password" = Some password →
            strict_eq_string password (HandlerPassword.password_expected env) = true →
            run w (HandlerPassword.handler env req) = ([], json 400 no_pdf_data))).
Proof.
  intros w env req Hfalse.
  split; [|split].
  - unfold HandlerToken.handler. any_method.
    rewrite run_bind. apply Forall_app. split; [apply verifyUser_no_model_call|].
    destruct (run w (verifyUser (authorization req))).2; [by constructor|].
    destruct (get (body req) "pdfBase64") as [pdf|] eqn:Hget;
      [|apply failed_to_parse_no_model_call].
    rewrite (Hfalse pdf eq_refl). by constructor.
  - unfold HandlerPassword.handler. any_method.
    destruct (get (body req) "pdfBase64") as [pdf|] eqn:Hget;
      [|apply failed_to_parse_no_model_call].
    destruct (get (body req) "password");
      [|apply failed_to_parse_no_model_call].
    destruct (negb (strict_eq_string _ _)); [by constructor|].
    rewrite (Hfalse pdf eq_refl). by constructor.
  - intros Hm [pdf Hget]. pose proof (Hfalse pdf Hget) as Hpdf. split.
    + intros user Hu. unfold HandlerToken.handler. post_request Hm.
      rewrite run_bind. cbn [snd]. by rewrite Hu, Hget, Hpdf.
    + intros password Hp Heq. unfold HandlerPassword.handler. post_request Hm.
      by rewrite Hget, Hp, Heq, Hpdf.
Qed.

Lemma missing_payload_rejected_witness :
  let req := {| method := lit "POST";
                authorization := Some (lit "Bearer token-1");
                body := object [ ("fileName", str "rc.pdf") ]%string |} in
  (run scenario_world (HandlerToken.handler no_password req)).2
  = json 400 no_pdf_data
  ∧ no_model_call (run scenario_world (HandlerToken.handler no_password req)).1.
Proof.
  intros req.
  assert (∀ v, get (body req) "pdfBase64" = Some v → ToBoolean v = false) as H.
  { by intros v [= <-]. }
  pose proof (missing_payload_rejected scenario_world no_password req H)
    as (Hn & _ & Hr).
  split; [|exact Hn].
  exact (proj1 (Hr eq_refl (ex_intro _ VUndefined eq_refl))
           (object [ ("id", str "user-1") ]%string) eq_refl).
Defined.

(** The claim C7 fails where it has every request without payload
    answered as invalid input: the password handler checks the password
    first, and a POST request with neither gets the 401 response; so
    does, in the token handler, one without bearer token. *)
Lemma payload_checked_after_authentication :
  let req := {| method := lit "POST"; authorization := None;
                body := object [] |} in
  run scenario_world (HandlerPassword.handler no_password req)
  = ([], json 401 (unauthorized "Invalid password"))
  ∧ run scenario_world (HandlerToken.handler no_password req)
    = ([], json 401 (unauthorized "No authorization token provided")).
Proof. by vm_compute. Qed.

(** ** The structured answer *)

(** C6, as the code has it.  An answer that [JSON.parse] rejects gets
    the 500 response and nothing is stored.  An answer that parses to an
    object without the key rate is stored with rate null (and miles null
    when that key is missing too), the record has no rpm, and the
    response is the 200 one unless the database reports an error. *)
Theorem json_answer_stored :
  ∀ (JSON_parse : jsstring → option value) (w : world) env user fileName
    content_0_text,
    (JSON_parse (trim content_0_text) = None →
     run w (HandlerJson.store JSON_parse env user fileName content_0_text)
     = ([existT _ (console_error "Failed to parse Claude response:"
                     (VString content_0_text))],
        json 500 failed_to_parse_data))
    ∧ (∀ o,
         JSON_parse (trim content_0_text) = Some (VObject o) →
         o !! lit "rate" = None →
         ∃ record,
           HandlerJson.loadRecord user (VObject o) fileName (w _ Date_toISOString)
           = Some (VObject record)
           ∧ record !! lit "rate" = Some VNull
           ∧ (o !! lit "miles" = None → record !! lit "miles" = Some VNull)
           ∧ record !! lit "rpm" = None
           ∧ (run w (HandlerJson.store JSON_parse env user fileName
                       content_0_text)).2
             = let r := w _ (supabase_loads_insert (VObject record)) in
               if ToBoolean (insert_error r) then json 500 failed_to_save
               else json 200 (stored (insert_data r) (VObject o))).
Proof.
  intros JSON_parse w env user fileName content_0_text. split.
  - intros E. unfold HandlerJson.store. rewrite E. reflexivity.
  - intros o E Hrate.
    destruct (HandlerJson.loadRecord user (VObject o) fileName
                (w _ Date_toISOString)) as [[| | | | | |record]|] eqn:Er;
      try discriminate Er.
    exists record. split; [done|].
    assert ((run w (HandlerJson.store JSON_parse env user fileName
                      content_0_text)).2
            = let r := w _ (supabase_loads_insert (VObject record)) in
              if ToBoolean (insert_error r) then json 500 failed_to_save
              else json 200 (stored (insert_data r) (VObject o))) as Hrun.
    { unfold HandlerJson.store. rewrite E. cbn [get].
      rewrite run_bind, run_call. cbn [fst snd]. rewrite Er.
      rewrite run_bind, run_call. cbn [fst snd].
      by destruct (ToBoolean _). }
    injection Er as <-.
    split; [|split; [|split]]; [| |reflexivity|exact Hrun].
    + change (Some (or_null (default VUndefined (o !! lit "rate"))) = Some VNull).
      by rewrite Hrate.
    + intros Hmiles.
      change (Some (or_null (default VUndefined (o !! lit "miles"))) = Some VNull).
      by rewrite Hmiles.
Qed.

Lemma json_answer_stored_witness :
  let JSON_parse := fun s : jsstring =>
    if bool_decide (s = lit "{}") then Some (VObject ∅) else None in
  (run scenario_world
     (HandlerJson.store JSON_parse no_password
        (object [ ("id", str "user-1") ]%string) VUndefined (lit " {} "))).2
  = json 200 (stored (object [ ("id", str "row-1") ]%string) (VObject ∅)).
Proof.
  intros JSON_parse.
  destruct (proj2 (json_answer_stored JSON_parse scenario_world no_password
                     (object [ ("id", str "user-1") ]%string) VUndefined
                     (lit " {} "))
              ∅ eq_refl eq_refl) as (record & _ & _ & _ & _ & E).
  exact E.
Defined.

(** The claim C6 fails where it has the rate default to 0: for the
    object with no key at all the record that is stored has rate null,
    as it has every other field the model left out. *)
Lemma rate_defaults_to_null :
  ∃ record,
    HandlerJson.loadRecord (object [ ("id", str "u1") ]%string) (VObject ∅)
      VUndefined (lit "2025-11-21T00:00:00.000Z") = Some (VObject record)
    ∧ record !! lit "rate" = Some VNull
    ∧ record !! lit "rate" ≠ Some (VNumber (S754_zero false)).
Proof. eexists. split; [reflexivity|]. by vm_compute. Qed.

(** ** Numbers: the sign of a rounded value *)

Lemma shr_1_nonneg mrs : (0 ≤ shr_m mrs)%Z → (0 ≤ shr_m (shr_1 mrs))%Z.
Proof. destruct mrs as [[|[p|p|]|p] r s]; simpl; lia. Qed.

Lemma iter_shr_1_nonneg p mrs :
  (0 ≤ shr_m mrs)%Z → (0 ≤ shr_m (SpecFloat.iter_pos shr_1 p mrs))%Z.
Proof.
  revert mrs. induction p as [p IH|p IH|]; intros mrs H; simpl.
  - by apply IH, IH, shr_1_nonneg.
  - by apply IH, IH.
  - by apply shr_1_nonneg.
Qed.

Lemma shr_fexp_nonneg m e l :
  (0 ≤ m)%Z → (0 ≤ shr_m (shr_fexp prec emax m e l).1)%Z.
Proof.
  intros H. unfold shr_fexp, shr.
  assert (0 ≤ shr_m (shr_record_of_loc m l))%Z as H0.
  { by destruct l as [|[]]. }
  destruct (_ - e)%Z; simpl; [done| |done]. by apply iter_shr_1_nonneg.
Qed.

Lemma round_nearest_even_nonneg m l :
  (0 ≤ m)%Z → (0 ≤ round_nearest_even m l)%Z.
Proof. intros H. destruct l as [|[]]; simpl; try done; [destruct (Z.even m)|]; lia. Qed.

Lemma binary_round_aux_signed neg m e l :
  (0 ≤ m)%Z → signed neg (binary_round_aux prec emax neg m e l).
Proof.
  intros H. unfold binary_round_aux.
  pose proof (shr_fexp_nonneg m e l H) as H1.
  destruct (shr_fexp prec emax m e l) as [mrs' e']. simpl in H1.
  pose proof (round_nearest_even_nonneg _ (loc_of_shr_record mrs') H1) as H2.
  pose proof (shr_fexp_nonneg _ e' loc_Exact H2) as H3.
  destruct (shr_fexp prec emax _ e' loc_Exact) as [mrs'' e'']. simpl in H3.
  destruct (shr_m mrs'') as [|p|p]; [done| |lia].
  by destruct (e'' <=? emax - prec)%Z.
Qed.

Lemma round_ratio_signed neg n d :
  (0 ≤ n)%Z → (0 < d)%Z → signed neg (round_ratio neg n d).
Proof.
  intros Hn Hd. unfold round_ratio. destruct n as [|n|n]; [done| |lia].
  unfold SFdiv_core_binary.
  set (s := (_ - _ - _)%Z). set (e' := Z.min _ _).
  set (m' := match s with Z0 => _ | Z.pos _ => _ | Z.neg _ => _ end).
  assert (0 ≤ m')%Z as Hm.
  { subst m'. destruct s; [lia| |lia]. apply Z.shiftl_nonneg. lia. }
  pose proof (Z.div_eucl_eq m' d ltac:(lia)) as E.
  pose proof (Z.mod_pos_bound m' d Hd) as Hr.
  unfold Z.modulo in Hr. destruct (Z.div_eucl m' d) as [q r].
  apply binary_round_aux_signed. nia.
Qed.

Lemma decimal_value_signed neg mant e10 :
  (0 ≤ mant)%Z → signed neg (decimal_value neg mant e10).
Proof.
  intros H. unfold decimal_value.
  destruct (0 <=? e10)%Z eqn:E; apply round_ratio_signed; lia.
Qed.

(** ** Numbers: what [parseFloat] reads *)

Lemma digits_value_nonneg ds :
  Forall (fun c => is_digit c = true) ds → (0 ≤ digits_value ds)%Z.
Proof.
  unfold digits_value. intros H.
  assert (∀ acc, (0 ≤ acc)%Z →
            (0 ≤ fold_left (fun acc c => 10 * acc + (Z.of_N c - 48)) ds acc)%Z)
    as Hacc; [|by apply Hacc].
  induction H as [|c ds Hc _ IH]; intros acc Hacc; simpl; [done|].
  apply IH. unfold is_digit in Hc.
  apply andb_true_iff in Hc as [Hc _]. apply N.leb_le in Hc. lia.
Qed.

Lemma unsigned_decimal_literal_cases neg s :
  (numeral_start s = false → unsigned_decimal_literal neg s = S754_nan)
  ∧ (numeral_start s = true → signed neg (unsigned_decimal_literal neg s)).
Proof.
  unfold numeral_start, unsigned_decimal_literal.
  destruct (starts_with (lit "Infinity") s); [by split|].
  cbn [orb].
  pose proof (span_all is_digit s) as Hip.
  pose proof (span_nil_head is_digit s) as Hnil.
  destruct (span is_digit s) as [ip s1] eqn:Es. cbn [fst] in *.
  assert (∀ fp s2, Forall (fun c => is_digit c = true) fp →
            (ip ++ fp ≠ []) →
            signed neg
              match ip, fp with
              | [], [] => S754_nan
              | _, _ =>
                  decimal_value neg (digits_value (ip ++ fp))
                    (exponent_part s2 - Z.of_nat (length fp))
              end) as Hok.
  { intros fp s2 Hfp Hne.
    assert (signed neg (decimal_value neg (digits_value (ip ++ fp))
                          (exponent_part s2 - Z.of_nat (length fp)))).
    { apply decimal_value_signed, digits_value_nonneg. by apply Forall_app. }
    destruct ip; [destruct fp|]; done. }
  destruct s as [|c t].
  { injection Es as <- <-. by split. }
  destruct (is_digit c) eqn:Ec.
  - cbn [orb]. split; [done|intros _].
    assert (ip ≠ []) as Hne.
    { intros ->. specialize (Hnil eq_refl). cbn in Hnil. congruence. }
    destruct s1 as [|a u].
    + refine (Hok [] [] _ _); [constructor|by rewrite app_nil_r].
    + destruct (a =? 46)%N.
      * pose proof (span_all is_digit u) as Hfp.
        destruct (span is_digit u) as [fp s2]. apply Hok; [done|].
        by destruct ip.
      * refine (Hok [] (a :: u) _ _); [constructor|by rewrite app_nil_r].
  - rewrite span_head in Es by done. injection Es as <- <-. cbn [orb].
    destruct (c =? 46)%N; cbn [andb]; [|by split].
    pose proof (span_all is_digit t) as Hfp.
    pose proof (span_nil_head is_digit t) as Hfn.
    destruct (span is_digit t) as [fp s2] eqn:Et. cbn [fst] in *.
    destruct fp as [|d fp].
    + specialize (Hfn eq_refl). destruct t as [|d t]; [by split|].
      rewrite Hfn. by split.
    + destruct t as [|d' t]; [by cbn in Et|].
      assert (is_digit d' = true) as ->.
      { cbn in Et. destruct (is_digit d'); [done|]. by injection Et. }
      split; [done|intros _]. by apply (Hok (d :: fp) s2).
Qed.

Lemma parseFloat_string_cases s :
  (is_numeric s = false → parseFloat_string s = S754_nan)
  ∧ (is_numeric s = true → signed (has_minus s) (parseFloat_string s)).
Proof.
  unfold is_numeric, has_minus, parseFloat_string.
  destruct (trim_start s) as [|c t]; [by split|].
  destruct (c =? 43)%N eqn:E1.
  - apply N.eqb_eq in E1. subst c. cbn [orb N.eqb Pos.eqb].
    apply unsigned_decimal_literal_cases.
  - destruct (c =? 45)%N eqn:E2; cbn [orb];
      apply unsigned_decimal_literal_cases.
Qed.

Lemma or_zero_not_nan x : is_nan (or_zero x) = false.
Proof. by destruct x. Qed.

Lemma or_zero_signed neg x :
  signed neg x →
  or_zero x = S754_zero false ∨ (or_zero x = x ∧ negative x = neg).
Proof. destruct x as [s|s| |s m e]; simpl; [by left| |done|]; intros ->; right; by destruct neg. Qed.

(** What [parseFloat(v) || 0] makes of a position. *)
Lemma read_number v :
  let x := or_zero (parseFloat v) in
  is_nan x = false
  ∧ (v = None → x = S754_zero false)
  ∧ (∀ s, v = Some s →
       (is_numeric s = false → x = S754_zero false)
       ∧ (is_numeric s = true → has_minus s = false → negative x = false)
       ∧ (is_numeric s = true → has_minus s = true →
          x = S754_zero false ∨ negative x = true)).
Proof.
  intros x. split; [apply or_zero_not_nan|]. split; [by intros ->|].
  intros s ->. subst x. cbn [parseFloat].
  destruct (parseFloat_string_cases s) as [Hnan Hnum].
  split; [|split].
  - intros H. by rewrite (Hnan H).
  - intros H Hm. specialize (Hnum H). rewrite Hm in Hnum.
    destruct (or_zero_signed _ _ Hnum) as [->|[-> ?]]; done.
  - intros H Hm. specialize (Hnum H). rewrite Hm in Hnum.
    destruct (or_zero_signed _ _ Hnum) as [->|[-> ?]]; [by left|by right].
Qed.

(** C5, as the code has it.  The three numeric positions are never NaN;
    a position the line has no value for, or whose value is not a
    numeral, is 0; a numeral without minus sign gives a value that is
    not negative, and a numeral with a minus sign keeps it (or gives
    0). *)
Theorem numeric_positions :
  ∀ (fs : list jsstring) (i : nat) (x : number),
    In (i, x) [ (11%nat, miles (loadData fs));
                (12%nat, posted_rate (loadData fs));
                (13%nat, booked_rate (loadData fs)) ] →
    is_nan x = false
    ∧ (fs !! i = None → x = S754_zero false)
    ∧ (∀ s, fs !! i = Some s →
         (is_numeric s = false → x = S754_zero false)
         ∧ (is_numeric s = true → has_minus s = false → negative x = false)
         ∧ (is_numeric s = true → has_minus s = true →
            x = S754_zero false ∨ negative x = true)).
Proof.
  intros fs i x [[= <- <-]|[[= <- <-]|[[= <- <-]|[]]]]; apply read_number.
Qed.

Lemma numeric_positions_witness :
  let fs := fields (lit "LD100,,,,,,,,,,,800,n/a") in
  is_nan (miles (loadData fs)) = false
  ∧ negative (miles (loadData fs)) = false
  ∧ posted_rate (loadData fs) = S754_zero false
  ∧ booked_rate (loadData fs) = S754_zero false.
Proof.
  intros fs.
  destruct (numeric_positions fs 11%nat _ ltac:(left; reflexivity))
    as (H1 & _ & H2).
  destruct (H2 (lit "800") eq_refl) as (_ & H3 & _).
  destruct (numeric_positions fs 12%nat _ ltac:(right; left; reflexivity))
    as (_ & _ & H4).
  destruct (H4 (lit "n/a") eq_refl) as (H5 & _).
  destruct (numeric_positions fs 13%nat _ ltac:(right; right; left; reflexivity))
    as (_ & H6 & _).
  split; [exact H1|]. split; [exact (H3 eq_refl eq_refl)|].
  split; [exact (H5 eq_refl)|exact (H6 eq_refl)].
Defined.

(** The claim C5 fails where it has the numeric positions never
    negative: the sign of a numeral is kept. *)
Lemma negative_numbers_kept :
  let d := loadData (fields (lit
    "LD100,2025-11-21,2025-11-24,Acme,Jane,555-1212,,j@acme.com,Johnston SC,Dallas TX,R,-800,0,-2000,S,R")) in
  miles d = number_of_Z (-800)
  ∧ negative (miles d) = true
  ∧ booked_rate d = number_of_Z (-2000)
  ∧ negative (booked_rate d) = true.
Proof. by vm_compute. Qed.

(** ** Numbers: decimal digits and [toFixed] *)

Lemma decimal_fuel_irrelevant f1 f2 n :
  (0 ≤ n)%Z → (n < 10 ^ Z.of_nat (S f1))%Z → (n < 10 ^ Z.of_nat (S f2))%Z →
  decimal_fuel (S f1) n = decimal_fuel (S f2) n.
Proof.
  revert f2 n. induction f1 as [|f1 IH]; intros f2 n H0 H1 H2.
  - cbn [decimal_fuel]. change (10 ^ Z.of_nat 1)%Z with 10%Z in H1.
    destruct (n <? 10)%Z eqn:E; [done|]. apply Z.ltb_ge in E. lia.
  - cbn [decimal_fuel]. destruct (n <? 10)%Z eqn:E; [done|].
    apply Z.ltb_ge in E. f_equal.
    destruct f2 as [|f2].
    { change (10 ^ Z.of_nat 1)%Z with 10%Z in H2. lia. }
    apply IH.
    + by apply Z.div_pos.
    + apply Z.div_lt_upper_bound; [lia|].
      rewrite <- Z.pow_succ_r by lia. by rewrite <- Nat2Z.inj_succ.
    + apply Z.div_lt_upper_bound; [lia|].
      rewrite <- Z.pow_succ_r by lia. by rewrite <- Nat2Z.inj_succ.
Qed.

Lemma lt_pow10_log2 n : (0 ≤ n)%Z → (n < 10 ^ Z.of_nat (S (Z.to_nat (Z.log2 n))))%Z.
Proof.
  intros H. rewrite Nat2Z.inj_succ, Z2Nat.id by apply Z.log2_nonneg.
  destruct (Z.eq_dec n 0%Z) as [->|Hn]; [done|].
  pose proof (Z.log2_spec n ltac:(lia)) as [_ Hl].
  eapply Z.lt_le_trans; [exact Hl|].
  apply Z.pow_le_mono_l. lia.
Qed.

Lemma decimal_unfold n :
  (0 ≤ n)%Z →
  decimal n =
    if (n <? 10)%Z then [digit n]
    else decimal (n / 10) ++ [digit (n mod 10)].
Proof.
  intros H. unfold decimal at 1. cbn [decimal_fuel].
  destruct (n <? 10)%Z eqn:E; [done|]. apply Z.ltb_ge in E. f_equal.
  assert (0 ≤ n / 10)%Z as Hq by by apply Z.div_pos.
  assert (3 ≤ Z.log2 n)%Z as Hl.
  { change 3%Z with (Z.log2 8). apply Z.log2_le_mono. lia. }
  destruct (Z.to_nat (Z.log2 n)) as [|k] eqn:Ek; [lia|].
  unfold decimal. apply decimal_fuel_irrelevant; [done| |by apply lt_pow10_log2].
  rewrite <- Ek. apply Z.div_lt_upper_bound; [lia|].
  pose proof (lt_pow10_log2 n H) as Hn.
  rewrite Nat2Z.inj_succ, Z.pow_succ_r in Hn by lia. done.
Qed.

Lemma decimal_length n : (0 ≤ n)%Z → (1 ≤ length (decimal n))%nat.
Proof.
  intros H. rewrite decimal_unfold by done.
  destruct (n <? 10)%Z; [simpl; lia|]. rewrite length_app. simpl. lia.
Qed.

Lemma digit_value k : (0 ≤ k)%Z → (Z.of_N (digit k) - 48 = k)%Z.
Proof. unfold digit. lia. Qed.

Lemma digits_value_snoc s c :
  digits_value (s ++ [c]) = (10 * digits_value s + (Z.of_N c - 48))%Z.
Proof. unfold digits_value. by rewrite fold_left_app. Qed.

(** Reading the digits of a number gives the number back. *)
Lemma digits_value_decimal n : (0 ≤ n)%Z → digits_value (decimal n) = n.
Proof.
  intros H. generalize H. pattern n. apply Z_lt_induction; [|exact H].
  clear n H. intros n IH H. rewrite decimal_unfold by done.
  destruct (n <? 10)%Z eqn:E.
  - unfold digits_value. simpl. rewrite digit_value by done. lia.
  - apply Z.ltb_ge in E. rewrite digits_value_snoc.
    rewrite IH, digit_value.
    + pose proof (Z.div_mod n 10). lia.
    + pose proof (Z.mod_pos_bound n 10). lia.
    + split; [by apply Z.div_pos|]. apply Z.div_lt; lia.
    + by apply Z.div_pos.
Qed.

(** With two fraction digits: the digits of the hundreds, a point, the
    tens and the units. *)
Lemma fixed_digits_two n :
  (0 ≤ n)%Z →
  fixed_digits 2 n =
    decimal (n / 100) ++ 46%N :: [digit (n / 10 mod 10); digit (n mod 10)].
Proof.
  intros H. unfold fixed_digits.
  rewrite (decimal_unfold n) by done.
  destruct (n <? 10)%Z eqn:E1.
  { apply Z.ltb_lt in E1.
    rewrite (Z.div_small n 100), (Z.div_small n 10), (Z.mod_small n 10) by lia.
    reflexivity. }
  apply Z.ltb_ge in E1.
  assert (0 ≤ n / 10)%Z as Hq by by apply Z.div_pos.
  rewrite (decimal_unfold (n / 10)) by done.
  assert (n / 10 / 10 = n / 100)%Z as E by (rewrite Z.div_div by lia; done).
  destruct (n / 10 <? 10)%Z eqn:E2.
  { apply Z.ltb_lt in E2.
    pose proof (Z.div_mod n 10 ltac:(lia)) as Hn.
    pose proof (Z.mod_pos_bound n 10 ltac:(lia)) as Hr.
    rewrite (Z.div_small n 100), (Z.mod_small (n / 10) 10) by lia.
    reflexivity. }
  rewrite E.
  pose proof (decimal_length (n / 100) ltac:(by apply Z.div_pos)) as Hl.
  set (a := decimal (n / 100)) in *.
  rewrite <- app_assoc. cbn [app].
  assert (∀ k, (1 ≤ k)%nat → (3 - (k + 2) = 0 ∧ k + 2 - 2 = k)%nat) as Hk by lia.
  destruct (Hk _ Hl) as [E3 E4].
  rewrite !length_app. cbn [length]. rewrite E3. cbn [repeat app length Nat.add].
  rewrite E4.
  by rewrite take_app_length, drop_app_length.
Qed.

Lemma fraction_positive m e :
  (0 < (fraction m e).1)%Z ∧ (0 < (fraction m e).2)%Z.
Proof.
  unfold fraction. destruct (0 <=? e)%Z eqn:E; cbn [fst snd]; split; lia.
Qed.

(** The scaled integer is the nearest one, the upper of two. *)
Lemma nearest_scaled_spec num den :
  (0 ≤ num)%Z → (0 < den)%Z →
  let n := nearest_scaled 2 num den in
  (0 ≤ n ∧ 2 * den * n ≤ 200 * num + den < 2 * den * (n + 1))%Z.
Proof.
  intros Hn Hd n. subst n. unfold nearest_scaled.
  change (2 * 10 ^ 2)%Z with 200%Z.
  pose proof (Z.div_mod (200 * num + den) (2 * den) ltac:(lia)) as E.
  pose proof (Z.mod_pos_bound (200 * num + den) (2 * den) ltac:(lia)) as Hr.
  split; [apply Z.div_pos; lia|]. nia.
Qed.

Lemma toFixed_finite neg m e :
  ((fraction m e).1 < 10 ^ 21 * (fraction m e).2)%Z →
  toFixed (S754_finite neg m e) 2 =
    (if neg then lit "-" else [])
    ++ fixed_digits 2 (nearest_scaled 2 (fraction m e).1 (fraction m e).2).
Proof.
  intros H. unfold toFixed. destruct (fraction m e) as [num den].
  cbn [fst snd] in *. apply Z.leb_gt in H. by rewrite H.
Qed.

(** ** The rate per mile *)

Lemma gt_zero_cases x :
  gt x (S754_zero false) = true →
  x = S754_infinity false ∨ ∃ m e, x = S754_finite false m e.
Proof. destruct x as [s|[]| |[] m e]; try done; [by left|right; eauto]. Qed.

(** The quotient of two positive Numbers is NaN or has the sign plus. *)
Lemma div_positive x y :
  gt x (S754_zero false) = true → gt y (S754_zero false) = true →
  div y x = S754_nan ∨ signed false (div y x).
Proof.
  intros [->|(mx & ex & ->)]%gt_zero_cases [->|(my & ey & ->)]%gt_zero_cases;
    [by left|by right|by right|right].
  unfold div, SFdiv. cbn [xorb].
  unfold SFdiv_core_binary.
  set (s := (_ - _ - _)%Z).
  set (m' := match s with Z0 => _ | Z.pos _ => _ | Z.neg _ => _ end).
  assert (0 ≤ m')%Z as Hm.
  { subst m'. destruct s; [lia| |lia]. apply Z.shiftl_nonneg. lia. }
  pose proof (Z.div_eucl_eq m' (Z.pos mx) ltac:(lia)) as E.
  pose proof (Z.mod_pos_bound m' (Z.pos mx) ltac:(lia)) as Hr.
  unfold Z.modulo in Hr. destruct (Z.div_eucl m' (Z.pos mx)) as [q r].
  apply binary_round_aux_signed. nia.
Qed.

(** C2, as the code has it.  The rate per mile is there exactly when the
    mileage and the booked rate are both above 0, and is null
    otherwise.  When it is there and the quotient of the two Numbers is
    finite and below 10^21, it is the decimal numeral with two fraction
    digits of the integer [n] of hundredths nearest to the quotient (the
    upper of two): "0.00" for a quotient that underflows to 0.  For a
    mileage of 500 and a rate of 1250.00 it is "2.50", and it is null
    when one of the two is 0. *)
Theorem rate_per_mile :
  ∀ d : LoadData,
    let q := div (booked_rate d) (miles d) in
    (is_Some (rpm d) ↔
       gt (miles d) (S754_zero false) = true
       ∧ gt (booked_rate d) (S754_zero false) = true)
    ∧ (rpm d = None → rpm_value (rpm d) = VNull)
    ∧ (∀ s, rpm d = Some s →
         (∀ sign, q = S754_zero sign → s = lit "0.00")
         ∧ (∀ sign m e, q = S754_finite sign m e →
              let num := (fraction m e).1 in
              let den := (fraction m e).2 in
              (num < 10 ^ 21 * den)%Z →
              ∃ n, (0 ≤ n ∧ 2 * den * n ≤ 200 * num + den < 2 * den * (n + 1))%Z
                   ∧ s = decimal (n / 100)
                           ++ 46%N :: [digit (n / 10 mod 10); digit (n mod 10)]
                   ∧ digits_value (decimal (n / 100)) = (n / 100)%Z))
    ∧ rpm (figures "500" "1250.00") = Some (lit "2.50")
    ∧ rpm (figures "0" "1250.00") = None
    ∧ rpm (figures "500" "0") = None.
Proof.
  intros d q.
  split; [|split; [|split]]; [| |intros s Hs; split|by vm_compute].
  - unfold rpm. destruct (gt (miles d) _), (gt (booked_rate d) _); cbn [andb];
      split; try done; try (by intros [? ?]); by intros [? [=]].
  - by intros ->.
  - intros sign Hq. unfold rpm in Hs.
    destruct (gt (miles d) _ && gt (booked_rate d) _); [|done].
    injection Hs as <-. fold q. by rewrite Hq.
  - intros sign m e Hq num den Hlt. unfold rpm in Hs.
    destruct (gt (miles d) _) eqn:E1; [|done].
    destruct (gt (booked_rate d) _) eqn:E2; [|done].
    cbn [andb] in Hs. injection Hs as <-. fold q.
    pose proof (div_positive _ _ E1 E2) as Hsg. fold q in Hsg.
    rewrite Hq in Hsg. destruct Hsg as [Hsg|Hsg]; [done|].
    cbn in Hsg. subst sign.
    rewrite Hq, toFixed_finite by done. fold num den. cbn [app].
    destruct (fraction_positive m e) as [Hnum Hden]. fold num den in Hnum, Hden.
    destruct (nearest_scaled_spec num den ltac:(lia) Hden) as [Hn0 Hn].
    exists (nearest_scaled 2 num den). split; [done|].
    split; [by apply fixed_digits_two|].
    apply digits_value_decimal. by apply Z.div_pos.
Qed.

Lemma rate_per_mile_witness :
  let d := figures "800" "2000" in
  ∃ n, (0 ≤ n ∧ 2 * 2 ^ 51 * n ≤ 200 * 5629499534213120 + 2 ^ 51
                  < 2 * 2 ^ 51 * (n + 1))%Z
       ∧ lit "2.50" = decimal (n / 100)
                        ++ 46%N :: [digit (n / 10 mod 10); digit (n mod 10)]
       ∧ digits_value (decimal (n / 100)) = (n / 100)%Z.
Proof.
  intros d.
  exact (proj2 (proj1 (proj2 (proj2 (rate_per_mile d))) (lit "2.50") eq_refl)
           false 5629499534213120%positive (-51)%Z eq_refl eq_refl).
Defined.

(** The claim C2 fails where it has the rate per mile, when there, equal
    to the rounded quotient: with a mileage and a booked rate both
    written Infinity the two are above 0 and the rate per mile is the
    string NaN; the quotient of two finite figures can overflow, which
    gives the string Infinity; and from 10^21 on the quotient is written
    with an exponent and no fraction digits. *)
Lemma rate_per_mile_of_infinities :
  (let d := figures "Infinity" "Infinity" in
   gt (miles d) (S754_zero false) = true
   ∧ gt (booked_rate d) (S754_zero false) = true
   ∧ rpm d = Some (lit "NaN"))
  ∧ rpm (figures "1e-300" "1e300") = Some (lit "Infinity")
  ∧ rpm (figures "1" "1e21") = Some (lit "1e+21").
Proof. by vm_compute. Qed.

(** * Further properties of the parsing handlers *)

Lemma starts_with_app l s : starts_with l s = true → s = l ++ drop (length l) s.
Proof.
  revert s. induction l as [|a l IH]; intros [|c s] Hs; try done.
  cbn [starts_with] in Hs. apply andb_true_iff in Hs as [Ha Hs].
  apply N.eqb_eq in Ha as ->. cbn. f_equal. by apply IH.
Qed.

(** X1.  [verifyUser] gives a user only for a header that is [Bearer ]
    followed by a token, after one call of the identity provider with
    exactly that token, which answered with this user, truthy, and
    without error. *)
Theorem verified_user_vouched (w : world) authHeader user :
  (run w (verifyUser authHeader)).2 = inr user →
  ∃ token,
    authHeader = Some (lit "Bearer " ++ token)
    ∧ (run w (verifyUser authHeader)).1
      = [existT _ (supabase_auth_getUser token)]
    ∧ data_user (w _ (supabase_auth_getUser token)) = user
    ∧ ToBoolean user = true
    ∧ ToBoolean (getUser_error (w _ (supabase_auth_getUser token))) = false.
Proof.
  unfold verifyUser. destruct authHeader as [h|]; [|done].
  destruct (negb (ToBoolean (VString h))); [done|].
  destruct (starts_with (lit "Bearer ") h) eqn:Hb; [|done].
  cbn [negb orb]. rewrite run_bind, run_call. cbn [fst snd app run].
  destruct (ToBoolean (getUser_error _)) eqn:He; [done|].
  destruct (ToBoolean (data_user _)) eqn:Hu; [|done].
  cbn [negb orb run fst snd]. intros [= <-].
  exists (drop 7 h). split; [|done].
  f_equal. exact (starts_with_app _ _ Hb).
Qed.

Lemma verified_user_vouched_witness :
  ∃ token,
    Some (lit "Bearer token-1") = Some (lit "Bearer " ++ token)
    ∧ (run scenario_world (verifyUser (Some (lit "Bearer token-1")))).1
      = [existT _ (supabase_auth_getUser token)]
    ∧ data_user (scenario_world _ (supabase_auth_getUser token))
      = object [ ("id", str "user-1") ]%string
    ∧ ToBoolean (object [ ("id", str "user-1") ]%string) = true
    ∧ ToBoolean (getUser_error (scenario_world _ (supabase_auth_getUser token)))
      = false.
Proof.
  apply (verified_user_vouched scenario_world (Some (lit "Bearer token-1"))
           (object [ ("id", str "user-1") ]%string)).
  reflexivity.
Defined.

(** X2.  A request that is not a POST makes no call at all in any of
    the three handlers, whatever its credentials and its body: the
    answer is 200 without body to OPTIONS and 405 to every other
    method. *)
Theorem other_methods_make_no_call (w : world) env JSON_parse req :
  method req ≠ lit "POST" →
  let response :=
    if bool_decide (method req = lit "OPTIONS") then end_ 200
    else json 405 method_not_allowed in
  run w (HandlerToken.handler env req) = ([], response)
  ∧ run w (HandlerPassword.handler env req) = ([], response)
  ∧ run w (HandlerJson.handler JSON_parse env req) = ([], response).
Proof.
  intros Hm response. subst response.
  unfold HandlerToken.handler, HandlerPassword.handler, HandlerJson.handler.
  destruct (bool_decide (method req = lit "OPTIONS")); [done|].
  by rewrite (bool_decide_eq_false_2 _ Hm).
Qed.

Lemma other_methods_make_no_call_witness :
  let req := {| method := lit "GET";
                authorization := Some (lit "Bearer token-1");
                body := object [ ("pdfBase64", str "JVBERi0x") ]%string |} in
  run scenario_world (HandlerToken.handler no_password req)
  = ([], json 405 method_not_allowed).
Proof.
  intros req.
  exact (proj1 (other_methods_make_no_call scenario_world no_password
                  (fun _ => None) req ltac:(done))).
Defined.

(** X3.  A POST request that [verifyUser] turns down is answered 401
    with its message by the two token-authenticated handlers, and
    nothing else has happened: no call when the header is not a bearer
    token, one call of the identity provider otherwise; the model and
    the database are not reached. *)
Theorem unauthenticated_request_stops (w : world) env JSON_parse req e :
  method req = lit "POST" →
  (run w (verifyUser (authorization req))).2 = inl e →
  let t := (run w (verifyUser (authorization req))).1 in
  run w (HandlerToken.handler env req)
  = (t, json 401 (object [ ("error", VString e) ]%string))
  ∧ run w (HandlerJson.handler JSON_parse env req)
    = (t, json 401 (object [ ("error", VString e) ]%string))
  ∧ model_requests t = [] ∧ inserted t = []
  ∧ (e = lit "No authorization token provided" ∧ t = []
     ∨ e = lit "Invalid or expired token"
       ∧ ∃ token, t = [existT _ (supabase_auth_getUser token)]).
Proof.
  intros Hm He t.
  split; [|split].
  - unfold HandlerToken.handler. post_request Hm.
    rewrite run_bind. fold t. rewrite He. cbn [run fst snd].
    by rewrite app_nil_r.
  - unfold HandlerJson.handler. post_request Hm.
    rewrite run_bind. fold t. rewrite He. cbn [run fst snd].
    by rewrite app_nil_r.
  - revert He. subst t. unfold verifyUser.
    destruct (authorization req) as [h|]; [|intros [= <-]; by auto].
    destruct (negb _ || negb _); [intros [= <-]; by auto|].
    rewrite run_bind, run_call. cbn [fst snd].
    destruct (ToBoolean _ || negb _); [|done].
    intros [= <-]. repeat split; [done..|]. right. split; [done|].
    by eexists.
Qed.

Lemma unauthenticated_request_stops_witness :
  let req := {| method := lit "POST"; authorization := Some (lit "token-1");
                body := object [ ("pdfBase64", str "JVBERi0x") ]%string |} in
  run scenario_world (HandlerToken.handler no_password req)
  = ([], json 401 (unauthorized "No authorization token provided")).
Proof.
  intros req.
  exact (proj1 (unauthenticated_request_stops scenario_world no_password
                  (fun _ => None) req
                  (lit "No authorization token provided") eq_refl eq_refl)).
Defined.

(** X4.  The password handler turns down, with 401 and before any call,
    every POST request whose password is not the expected string: a
    missing one, one of another type, and the empty string, which is
    never the expected one. *)
Theorem wrong_password_rejected (w : world) env req pdfBase64 password :
  method req = lit "POST" →
  get (body req) "pdfBase64" = Some pdfBase64 →
  get (body req) "password" = Some password →
  password ≠ VString (HandlerPassword.password_expected env) →
  run w (HandlerPassword.handler env req)
  = ([], json 401 (unauthorized "Invalid password"))
  ∧ HandlerPassword.password_expected env ≠ [].
Proof.
  intros Hm Hpdf Hpw Hne. split.
  - unfold HandlerPassword.handler. post_request Hm. rewrite Hpdf, Hpw.
    assert (strict_eq_string password (HandlerPassword.password_expected env)
            = false) as ->; [|done].
    destruct password; try done. cbn [strict_eq_string].
    apply bool_decide_eq_false_2. by intros ->.
  - unfold HandlerPassword.password_expected.
    by destruct (APP_PASSWORD env) as [[|c p]|].
Qed.

Lemma wrong_password_rejected_witness :
  let req := {| method := lit "POST"; authorization := None;
                body := object [ ("pdfBase64", str "JVBERi0x");
                                 ("password", VString []) ]%string |} in
  run scenario_world (HandlerPassword.handler no_password req)
  = ([], json 401 (unauthorized "Invalid password")).
Proof.
  intros req.
  exact (proj1 (wrong_password_rejected scenario_world no_password req
                  (str "JVBERi0x") (VString [])
                  eq_refl eq_refl eq_refl ltac:(done))).
Defined.

(** X5.  When the environment sets no password, or an empty one, the
    password written in the source opens the endpoint: the request then
    goes to the model with its payload. *)
Theorem default_password_in_force (w : world) env req pdfBase64 :
  APP_PASSWORD env = None ∨ APP_PASSWORD env = Some [] →
  method req = lit "POST" →
  get (body req) "pdfBase64" = Some pdfBase64 →
  ToBoolean pdfBase64 = true →
  get (body req) "password" = Some (str "milian2024") →
  run w (HandlerPassword.handler env req)
  = run w (extract HandlerPassword.SYSTEM_PROMPT pdfBase64).
Proof.
  intros Henv Hm Hpdf Ht Hpw.
  unfold HandlerPassword.handler. post_request Hm. rewrite Hpdf, Hpw, Ht.
  unfold HandlerPassword.password_expected.
  by destruct Henv as [-> | ->].
Qed.

Lemma default_password_in_force_witness :
  let req := {| method := lit "POST"; authorization := None;
                body := object [ ("pdfBase64", str "JVBERi0x");
                                 ("password", str "milian2024") ]%string |} in
  run scenario_world (HandlerPassword.handler no_password req)
  = run scenario_world
      (extract HandlerPassword.SYSTEM_PROMPT (str "JVBERi0x")).
Proof.
  intros req.
  exact (default_password_in_force scenario_world no_password req
           (str "JVBERi0x") (or_introl eq_refl)
           eq_refl eq_refl eq_refl eq_refl).
Defined.

Lemma model_requests_app t1 t2 :
  model_requests (t1 ++ t2) = model_requests t1 ++ model_requests t2.
Proof. apply omap_app. Qed.

Lemma inserted_app t1 t2 : inserted (t1 ++ t2) = inserted t1 ++ inserted t2.
Proof. apply omap_app. Qed.

Lemma verifyUser_trace (w : world) authHeader :
  model_requests (run w (verifyUser authHeader)).1 = []
  ∧ inserted (run w (verifyUser authHeader)).1 = [].
Proof.
  unfold verifyUser. destruct authHeader as [h|]; [|done].
  destruct (negb _ || negb _); [done|].
  rewrite run_bind, run_call. cbn [fst snd].
  by destruct (ToBoolean _ || negb _).
Qed.

Lemma extract_model_requests (w : world) P pdfBase64 :
  model_requests (run w (extract P pdfBase64)).1
  = [extraction_request P pdfBase64].
Proof.
  unfold extract. rewrite run_bind, run_call. cbn [fst snd].
  by destruct (w _ _).
Qed.

(** X6.  The two delimited-line handlers call the model at most once
    per request, and only for a POST request that has passed the
    authentication and has a truthy [pdfBase64]; the one request then
    made carries that value, as it came, as the data of a PDF document,
    with the prompt of the handler as system prompt. *)
Theorem model_called_once_with_payload (w : world) env req :
  (model_requests (run w (HandlerToken.handler env req)).1 = []
   ∨ ∃ user pdfBase64 request,
       method req = lit "POST"
       ∧ (run w (verifyUser (authorization req))).2 = inr user
       ∧ get (body req) "pdfBase64" = Some pdfBase64
       ∧ ToBoolean pdfBase64 = true
       ∧ model_requests (run w (HandlerToken.handler env req)).1 = [request]
       ∧ document_data request = pdfBase64
       ∧ document_media_type request = lit "application/pdf"
       ∧ system request = Some HandlerToken.SYSTEM_PROMPT)
  ∧ (model_requests (run w (HandlerPassword.handler env req)).1 = []
     ∨ ∃ pdfBase64 request,
         method req = lit "POST"
         ∧ get (body req) "password"
           = Some (VString (HandlerPassword.password_expected env))
         ∧ get (body req) "pdfBase64" = Some pdfBase64
         ∧ ToBoolean pdfBase64 = true
         ∧ model_requests (run w (HandlerPassword.handler env req)).1 = [request]
         ∧ document_data request = pdfBase64
         ∧ document_media_type request = lit "application/pdf"
         ∧ system request = Some HandlerPassword.SYSTEM_PROMPT).
Proof.
  split.
  - unfold HandlerToken.handler.
    destruct (bool_decide (method req = lit "OPTIONS")); [by left|].
    destruct (bool_decide (method req = lit "POST")) eqn:Hm; [|by left].
    apply bool_decide_eq_true_1 in Hm. cbn [negb].
    rewrite run_bind. cbn [fst]. rewrite model_requests_app.
    rewrite (proj1 (verifyUser_trace w _)). cbn [app].
    destruct (run w (verifyUser (authorization req))).2 as [e|user] eqn:Hu;
      [by left|].
    destruct (get (body req) "pdfBase64") as [pdf|] eqn:Hpdf; [|by left].
    destruct (ToBoolean pdf) eqn:Ht; [|by left].
    right. exists user, pdf, (extraction_request HandlerToken.SYSTEM_PROMPT pdf).
    repeat split; try done.
    apply extract_model_requests.
  - unfold HandlerPassword.handler.
    destruct (bool_decide (method req = lit "OPTIONS")); [by left|].
    destruct (bool_decide (method req = lit "POST")) eqn:Hm; [|by left].
    apply bool_decide_eq_true_1 in Hm. cbn [negb].
    destruct (get (body req) "pdfBase64") as [pdf|] eqn:Hpdf; [|by left].
    destruct (get (body req) "password") as [password|] eqn:Hpw; [|by left].
    destruct (strict_eq_string password _) eqn:Heq; [|by left].
    destruct (ToBoolean pdf) eqn:Ht; [|by left].
    right. exists pdf, (extraction_request HandlerPassword.SYSTEM_PROMPT pdf).
    repeat split; try done.
    + destruct password; try done. cbn [strict_eq_string] in Heq.
      by apply bool_decide_eq_true_1 in Heq as ->.
    + apply extract_model_requests.
Qed.

(** X7.  When the model call fails, the two delimited-line handlers
    log the error and answer 500 with the message of the error in
    [details]; the message goes to the caller as it is. *)
Theorem model_failure_reported (w : world) env req user pdfBase64 password message :
  method req = lit "POST" →
  get (body req) "pdfBase64" = Some pdfBase64 →
  ToBoolean pdfBase64 = true →
  (∀ P, w _ (anthropic_messages_create (extraction_request P pdfBase64))
        = Rejected message) →
  ((run w (verifyUser (authorization req))).2 = inr user →
   run w (HandlerToken.handler env req)
   = ((run w (verifyUser (authorization req))).1
      ++ [existT _ (anthropic_messages_create
                      (extraction_request HandlerToken.SYSTEM_PROMPT pdfBase64));
          existT _ (console_error "Parse error:" (VString message))],
      json 500 (failed_to_parse_pdf message)))
  ∧ (get (body req) "password" = Some password →
     strict_eq_string password (HandlerPassword.password_expected env) = true →
     run w (HandlerPassword.handler env req)
     = ([existT _ (anthropic_messages_create
                     (extraction_request HandlerPassword.SYSTEM_PROMPT pdfBase64));
         existT _ (console_error "Parse error:" (VString message))],
        json 500 (failed_to_parse_pdf message))).
Proof.
  intros Hm Hpdf Ht Hw. split.
  - intros Hu. unfold HandlerToken.handler. post_request Hm.
    rewrite run_bind. cbn [fst snd]. rewrite Hu, Hpdf, Ht. cbn [negb].
    unfold extract. rewrite run_bind, run_call. cbn [fst snd]. by rewrite Hw.
  - intros Hpw Heq. unfold HandlerPassword.handler. post_request Hm.
    rewrite Hpdf, Hpw, Heq, Ht. cbn [negb].
    unfold extract. rewrite run_bind, run_call. cbn [fst snd]. by rewrite Hw.
Qed.

Lemma model_failure_reported_witness :
  (run failing_world (HandlerToken.handler no_password scenario_request)).2
  = json 500 (failed_to_parse_pdf (lit "overloaded"))
  ∧ (run failing_world (HandlerPassword.handler no_password scenario_request)).2
    = json 500 (failed_to_parse_pdf (lit "overloaded")).
Proof.
  destruct (model_failure_reported failing_world no_password scenario_request
              (object [ ("id", str "user-1") ]%string) (str "JVBERi0x")
              (str "milian2024") (lit "overloaded")
              eq_refl eq_refl eq_refl (fun _ => eq_refl)) as [Ht Hp].
  split.
  - by rewrite (Ht eq_refl).
  - by rewrite (Hp eq_refl eq_refl).
Defined.

(** X8.  When the model answers, the response of the two delimited-line
    handlers is the parse of the text of the answer and of nothing
    else: the same text gives the same response from both, and no call
    follows the model call. *)
Theorem response_is_parse_of_answer (w : world) env req user pdfBase64 password
  aiResponse :
  method req = lit "POST" →
  get (body req) "pdfBase64" = Some pdfBase64 →
  ToBoolean pdfBase64 = true →
  (∀ P, w _ (anthropic_messages_create (extraction_request P pdfBase64))
        = Resolved aiResponse) →
  ((run w (verifyUser (authorization req))).2 = inr user →
   run w (HandlerToken.handler env req)
   = ((run w (verifyUser (authorization req))).1
      ++ [existT _ (anthropic_messages_create
                      (extraction_request HandlerToken.SYSTEM_PROMPT pdfBase64))],
      parse aiResponse))
  ∧ (get (body req) "password" = Some password →
     strict_eq_string password (HandlerPassword.password_expected env) = true →
     run w (HandlerPassword.handler env req)
     = ([existT _ (anthropic_messages_create
                     (extraction_request HandlerPassword.SYSTEM_PROMPT pdfBase64))],
        parse aiResponse)).
Proof.
  intros Hm Hpdf Ht Hw. split.
  - intros Hu. unfold HandlerToken.handler. post_request Hm.
    rewrite run_bind. cbn [fst snd]. rewrite Hu, Hpdf, Ht. cbn [negb].
    unfold extract. rewrite run_bind, run_call. cbn [fst snd]. by rewrite Hw.
  - intros Hpw Heq. unfold HandlerPassword.handler. post_request Hm.
    rewrite Hpdf, Hpw, Heq, Ht. cbn [negb].
    unfold extract. rewrite run_bind, run_call. cbn [fst snd]. by rewrite Hw.
Qed.

Lemma response_is_parse_of_answer_witness :
  (run scenario_world (HandlerToken.handler no_password scenario_request)).2
  = parse scenario
  ∧ (run scenario_world (HandlerPassword.handler no_password scenario_request)).2
    = parse scenario.
Proof.
  destruct (response_is_parse_of_answer scenario_world no_password
              scenario_request
              (object [ ("id", str "user-1") ]%string) (str "JVBERi0x")
              (str "milian2024") scenario
              eq_refl eq_refl eq_refl (fun _ => eq_refl)) as [Ht Hp].
  split.
  - by rewrite (Ht eq_refl).
  - by rewrite (Hp eq_refl eq_refl).
Defined.

(** X9.  The parse answers 200 exactly when the text has the label, in
    any letter case, and a character that is not a blank somewhere
    after the first occurrence of the label; in every other case the
    answer is the 422 response, whose body holds the error message and,
    under raw, the text itself. *)
Theorem extraction_succeeds_exactly_when aiResponse :
  (status (parse aiResponse) = 200%Z ↔
   ∃ i, index_ci (lit "CSV LINE:") aiResponse = Some i
        ∧ ¬ blank (drop (i + 9) aiResponse))
  ∧ (status (parse aiResponse) ≠ 200%Z →
     is_rejection aiResponse (parse aiResponse)).
Proof.
  assert (csvLine aiResponse = None ∨ csvLine aiResponse = Some [] →
          status (parse aiResponse) ≠ 200%Z
          ∧ is_rejection aiResponse (parse aiResponse)) as Hfail.
  { intros H. rewrite (parse_rejection aiResponse H).
    split; [done|apply rejection_response]. }
  destruct (index_ci (lit "CSV LINE:") aiResponse) as [i|] eqn:Hi.
  2:{ assert (csvLine aiResponse = None) as E.
      { unfold csvLine, csvMatch, labelled_line. by rewrite search_label, Hi. }
      destruct (Hfail (or_introl E)) as [Hs Hr].
      split; [|done]. split; [done|]. by intros (i & ? & _). }
  destruct (csvLine_after_label aiResponse i Hi) as [Hblank Hrest].
  destruct (blank_dec (drop (i + 9) aiResponse)) as [Hb | Hnb].
  - destruct (Hfail (Hblank Hb)) as [Hs Hr].
    split; [|done]. split; [done|].
    intros (i' & [= <-] & Hnb). by destruct Hnb.
  - destruct (Hrest Hnb) as (line & E & Hne).
    rewrite (parse_success aiResponse line E Hne).
    split; [|done]. split; [|done]. intros _. by exists i.
Qed.

(** ** The values of the record *)

Lemma fields_clean line :
  is_line line →
  Forall (fun s => trim s = s ∧ is_field s) (fields line).
Proof.
  intros Hline. unfold fields. apply Forall_map.
  pose proof (split_Forall _ 44%N line Hline) as H1.
  pose proof (split_without_sep 44%N line) as H2.
  induction H1 as [|f fs Hf _ IH]; [constructor|].
  apply Forall_cons in H2 as [Hc Hcs].
  constructor; [|by apply IH].
  split; [apply trim_idem|].
  apply trim_Forall. apply Forall_forall. intros c Hin. split.
  - by apply (proj1 (Forall_forall _ _) Hc).
  - by apply (proj1 (Forall_forall _ _) Hf).
Qed.

Lemma or_empty_clean line (k : nat) :
  is_line line →
  trim (or_empty (fields line !! k)) = or_empty (fields line !! k)
  ∧ is_field (or_empty (fields line !! k)).
Proof.
  intros Hline. destruct (fields line !! k) as [s|] eqn:E.
  - rewrite or_empty_Some.
    exact (proj1 (Forall_forall _ _) (fields_clean line Hline) s
             (list_elem_of_lookup_2 _ _ _ E)).
  - by split; [|constructor].
Qed.

(** X10.  The data line of a response and every text value of its
    record are trimmed and hold no line terminator; a text value holds
    no comma either. *)
Theorem record_values_clean aiResponse line :
  csvLine aiResponse = Some line →
  trim line = line ∧ is_line line
  ∧ ∀ i s, positions (loadData (fields line)) !! i = Some (VString s) →
           trim s = s ∧ is_field s.
Proof.
  intros (Ht & Hline)%csvLine_trimmed_line. split; [done|]. split; [done|].
  intros i s. unfold positions, loadData.
  cbn -[fields or_empty or_zero parseFloat trim].
  do 16 (destruct i as [|i];
         [cbn -[fields or_empty or_zero parseFloat trim];
          try discriminate; intros [= <-]; by apply or_empty_clean|]).
  done.
Qed.

Lemma record_values_clean_witness :
  trim (join 44%N scenario_values) = join 44%N scenario_values
  ∧ trim (lit "Acme Brokers") = lit "Acme Brokers"
  ∧ is_field (lit "Acme Brokers").
Proof.
  destruct (record_values_clean scenario (join 44%N scenario_values) eq_refl)
    as (Ht & _ & Hv).
  split; [exact Ht|]. exact (Hv 3%nat (lit "Acme Brokers") eq_refl).
Defined.

(** ** The split of the data line *)

(** X11.  The data line is cut at every comma and nowhere else: it has
    one value more than it has commas, no value holds a comma, and the
    values before trimming, joined with commas, give the line back.  So
    a comma inside a value moves every later value one position on. *)
Theorem line_cut_at_every_comma line :
  length (fields line) = S (count_occ N.eq_dec line 44%N)
  ∧ Forall (Forall (fun c => c ≠ 44%N)) (split 44%N line)
  ∧ join 44%N (split 44%N line) = line.
Proof.
  split; [|split].
  - unfold fields. by rewrite length_map, split_length.
  - apply split_without_sep.
  - apply join_split.
Qed.

(** ** The record that is stored *)

(** The entries of [loadRecord], in the order of the source. *)
Lemma loadRecord_entries user loadData fileName created_at :
  loadData ≠ VUndefined → loadData ≠ VNull →
  HandlerJson.loadRecord user loadData fileName created_at
  = Some (object
            (("user_id"%string, default VUndefined (get user "id"))
             :: map (fun k => (k, or_null (default VUndefined (get loadData k))))
                  load_fields
             ++ [ ("source_file", or_null fileName);
                  ("status", str "pending");
                  ("created_at", VString created_at) ]%string)).
Proof.
  intros Hu Hn. by destruct loadData.
Qed.

Lemma record_keys_NoDup : NoDup (map lit record_keys).
Proof. apply (bool_decide_unpack (NoDup (map lit record_keys))). by vm_compute. Qed.

Lemma stored_record_fields user loadData fileName created_at :
  loadData ≠ VUndefined → loadData ≠ VNull →
  ∃ record,
    HandlerJson.loadRecord user loadData fileName created_at
    = Some (VObject record)
    ∧ ∀ k, k ∈ load_fields →
        ∃ v, get loadData k = Some v
             ∧ record !! lit k = Some (if ToBoolean v then v else VNull).
Proof.
  intros Hu Hn. rewrite (loadRecord_entries _ _ _ _ Hu Hn).
  set (l := (_ :: _ ++ _)).
  assert (map (fun kv : string * value => lit kv.1) l = map lit record_keys)
    as Hkeys by reflexivity.
  destruct (object l) as [| | | | | |record] eqn:Hobj; try done.
  exists record. split; [done|].
  intros k Hk.
  exists (default VUndefined (get loadData k)). split; [by destruct loadData|].
  eapply object_lookup; [| |exact Hobj].
  - rewrite Hkeys. apply record_keys_NoDup.
  - subst l. apply elem_of_cons. right. apply elem_of_app. left.
    apply (list_elem_of_fmap_2
             (fun k => (k, or_null (default VUndefined (get loadData k))))
             load_fields k Hk).
Qed.

(** X12.  Whatever the model answered, the record sent to the database
    has exactly its twenty keys; the owner is the authenticated user,
    the status is pending, the time is the clock's and the file name
    the request's, none of which the answer can set; each of the
    sixteen fields is the answer's value when it is truthy and null
    otherwise, so that 0, the empty string and false are stored as
    null. *)
Theorem stored_record_shape user loadData fileName created_at :
  loadData ≠ VUndefined → loadData ≠ VNull →
  ∃ record,
    HandlerJson.loadRecord user loadData fileName created_at
    = Some (VObject record)
    ∧ dom record = list_to_set (map lit record_keys)
    ∧ record !! lit "user_id" = Some (default VUndefined (get user "id"))
    ∧ record !! lit "source_file" = Some (or_null fileName)
    ∧ record !! lit "status" = Some (str "pending")
    ∧ record !! lit "created_at" = Some (VString created_at)
    ∧ ∀ k, k ∈ load_fields →
        ∃ v, get loadData k = Some v
             ∧ record !! lit k = Some (if ToBoolean v then v else VNull).
Proof.
  intros Hu Hn. rewrite (loadRecord_entries _ _ _ _ Hu Hn).
  set (l := (_ :: _ ++ _)).
  assert (map (fun kv : string * value => lit kv.1) l = map lit record_keys)
    as Hkeys by reflexivity.
  destruct (object l) as [| | | | | |record] eqn:Hobj; try done.
  exists record. split; [done|].
  split; [by rewrite (dom_object _ _ Hobj), Hkeys|].
  assert (∀ k v, (k, v) ∈ l → record !! lit k = Some v) as Hlook.
  { intros k v Hin. eapply object_lookup; [|exact Hin|exact Hobj].
    rewrite Hkeys. apply record_keys_NoDup. }
  repeat split.
  - apply Hlook. subst l. apply elem_of_cons. by left.
  - apply Hlook. subst l. do 17 (apply elem_of_cons; right).
    apply elem_of_cons. by left.
  - apply Hlook. subst l. do 18 (apply elem_of_cons; right).
    apply elem_of_cons. by left.
  - apply Hlook. subst l. do 19 (apply elem_of_cons; right).
    apply elem_of_cons. by left.
  - intros k Hk.
    exists (default VUndefined (get loadData k)). split; [by destruct loadData|].
    apply Hlook. subst l. apply elem_of_cons. right.
    apply elem_of_app. left.
    apply (list_elem_of_fmap_2
             (fun k => (k, or_null (default VUndefined (get loadData k))))
             load_fields k Hk).
Qed.

Lemma stored_record_shape_witness :
  ∃ record,
    HandlerJson.loadRecord (object [ ("id", str "user-1") ]%string)
      (object [ ("user_id", str "user-2"); ("status", str "paid") ]%string)
      VUndefined (lit "2025-11-21T00:00:00.000Z")
    = Some (VObject record)
    ∧ record !! lit "user_id" = Some (str "user-1")
    ∧ record !! lit "status" = Some (str "pending").
Proof.
  destruct (stored_record_shape (object [ ("id", str "user-1") ]%string)
              (object [ ("user_id", str "user-2"); ("status", str "paid") ]%string)
              VUndefined (lit "2025-11-21T00:00:00.000Z")
              ltac:(done) ltac:(done))
    as (record & E & _ & Hu & _ & Hs & _).
  exists record. split; [exact E|]. split; [exact Hu|exact Hs].
Defined.

(** X13.  An answer that is valid JSON but not an object: for [null]
    the handler logs the TypeError and answers 500, no record is made
    and the database is not called; for a number, a string, a boolean
    or an array a record is stored all the same, with every one of the
    sixteen fields null. *)
Theorem answer_that_is_no_object (JSON_parse : jsstring → option value)
  (w : world) env user fileName content_0_text v :
  JSON_parse (trim content_0_text) = Some v →
  (∀ o, v ≠ VObject o) →
  (v = VNull ∨ v = VUndefined →
   run w (HandlerJson.store JSON_parse env user fileName content_0_text)
   = ([existT _ (console_error "Parse error:"
                   (VString (TypeError_message env)))],
      json 500 failed_to_process_body))
  ∧ (v ≠ VNull → v ≠ VUndefined →
     ∃ record,
       inserted
         (run w (HandlerJson.store JSON_parse env user fileName
                   content_0_text)).1
       = [VObject record]
       ∧ (∀ k, k ∈ load_fields → record !! lit k = Some VNull)
       ∧ (ToBoolean (insert_error (w _ (supabase_loads_insert (VObject record))))
          = false →
          (run w (HandlerJson.store JSON_parse env user fileName
                    content_0_text)).2
          = json 200
              (stored (insert_data (w _ (supabase_loads_insert (VObject record))))
                 v))).
Proof.
  intros E Hno. split.
  - intros Hv. unfold HandlerJson.store. rewrite E.
    by destruct Hv as [-> | ->].
  - intros Hn Hu.
    destruct (stored_record_fields user v fileName (w _ Date_toISOString) Hu Hn)
      as (record & Er & Hf).
    exists record.
    assert (is_Some (get v "load_number")) as [x Hx] by (by destruct v; eauto).
    unfold HandlerJson.store. rewrite E, Hx.
    rewrite run_bind, run_call. cbn [fst snd]. rewrite Er.
    rewrite run_bind, run_call. cbn [fst snd].
    split; [|split].
    + by destruct (ToBoolean (insert_error _)).
    + intros k Hk. destruct (Hf k Hk) as (y & Hy & ->).
      destruct v; try done; try (by injection Hy as <-).
      by destruct (Hno o).
    + by intros ->.
Qed.

Lemma answer_that_is_no_object_witness :
  ∃ record,
    inserted
      (run json_world
         (HandlerJson.store parse_braces no_password
            (object [ ("id", str "user-1") ]%string) VUndefined (lit "7"))).1
    = [VObject record]
    ∧ record !! lit "rate" = Some VNull.
Proof.
  destruct (proj2 (answer_that_is_no_object parse_braces json_world no_password
                     (object [ ("id", str "user-1") ]%string) VUndefined
                     (lit "7") (VNumber (number_of_Z 7)) eq_refl
                     ltac:(done))
              ltac:(done) ltac:(done)) as (record & E & Hf & _).
  exists record. split; [exact E|].
  apply Hf. do 3 (apply elem_of_cons; right). apply elem_of_cons. by left.
Defined.

Lemma failed_to_process_trace (w : world) message :
  model_requests (run w (HandlerJson.failed_to_process message)).1 = []
  ∧ inserted (run w (HandlerJson.failed_to_process message)).1 = [].
Proof. done. Qed.

(** X14.  [HandlerJson] writes to the database only at the end of the
    whole path: a POST request, a user vouched for by the identity
    provider, a truthy [pdfBase64], a model call that resolved, a text
    that [JSON.parse] accepted, and the record made from it for that
    user; in one request it calls the model at most once and the
    database at most once. *)
Theorem load_stored_only_after (JSON_parse : jsstring → option value)
  (w : world) env req record :
  record ∈ inserted (run w (HandlerJson.handler JSON_parse env req)).1 →
  ∃ user pdfBase64 fileName content_0_text loadData,
    method req = lit "POST"
    ∧ (run w (verifyUser (authorization req))).2 = inr user
    ∧ get (body req) "pdfBase64" = Some pdfBase64
    ∧ ToBoolean pdfBase64 = true
    ∧ get (body req) "fileName" = Some fileName
    ∧ w _ (anthropic_messages_create (json_request pdfBase64))
      = Resolved content_0_text
    ∧ JSON_parse (trim content_0_text) = Some loadData
    ∧ HandlerJson.loadRecord user loadData fileName (w _ Date_toISOString)
      = Some record
    ∧ inserted (run w (HandlerJson.handler JSON_parse env req)).1 = [record]
    ∧ model_requests (run w (HandlerJson.handler JSON_parse env req)).1
      = [json_request pdfBase64].
Proof.
  unfold HandlerJson.handler.
  destruct (bool_decide (method req = lit "OPTIONS"));
    [by intros ?%elem_of_nil|].
  destruct (bool_decide (method req = lit "POST")) eqn:Hm;
    [|by intros ?%elem_of_nil].
  apply bool_decide_eq_true_1 in Hm. cbn [negb].
  rewrite run_bind. cbn [fst]. rewrite inserted_app, model_requests_app.
  destruct (verifyUser_trace w (authorization req)) as [-> ->]. cbn [app].
  destruct (run w (verifyUser (authorization req))).2 as [e|user] eqn:Hu;
    [by intros ?%elem_of_nil|].
  destruct (get (body req) "pdfBase64") as [pdf|] eqn:Hpdf;
    [|by intros ?%elem_of_nil].
  destruct (get (body req) "fileName") as [fileName|] eqn:Hfile;
    [|by intros ?%elem_of_nil].
  destruct (ToBoolean pdf) eqn:Ht; [|by intros ?%elem_of_nil]. cbn [negb].
  rewrite run_bind, run_call. cbn [fst snd].
  rewrite inserted_app, model_requests_app.
  destruct (w _ (anthropic_messages_create _))
    as [content_0_text|message|other Hother message] eqn:Hw;
    [|by intros ?%elem_of_nil..].
  unfold HandlerJson.store.
  destruct (JSON_parse (trim content_0_text)) as [loadData|] eqn:Hparse;
    [|by intros ?%elem_of_nil].
  destruct (get loadData "load_number") as [x|] eqn:Hx;
    [|by intros ?%elem_of_nil].
  rewrite run_bind, run_call. cbn [fst snd].
  destruct (HandlerJson.loadRecord user loadData fileName (w _ Date_toISOString))
    as [record'|] eqn:Er; [|by intros ?%elem_of_nil].
  rewrite run_bind, run_call. cbn [fst snd].
  destruct (ToBoolean (insert_error _));
    (intros Hin; apply list_elem_of_singleton in Hin as ->;
     by exists user, pdf, fileName, content_0_text, loadData).
Qed.

Lemma load_stored_only_after_witness :
  inserted
    (run json_world
       (HandlerJson.handler parse_braces no_password scenario_request)).1
  = [scenario_record].
Proof.
  destruct (load_stored_only_after parse_braces json_world no_password
              scenario_request scenario_record)
    as (u & p & f & t & l & _ & _ & _ & _ & _ & _ & _ & _ & E & _).
  - vm_compute. apply list_elem_of_here.
  - exact E.
Defined.

Lemma parse_within aiResponse : within [200; 422]%Z (parse aiResponse).
Proof.
  unfold parse, respond.
  destruct (csvLine aiResponse) as [[|c line]|]; split; cbn; tauto.
Qed.

Lemma extract_within (w : world) P pdfBase64 :
  within [200; 422; 500]%Z (run w (extract P pdfBase64)).2.
Proof.
  unfold extract. rewrite run_bind, run_call. cbn [fst snd].
  destruct (w _ _) as [aiResponse|message|other Hother message].
  - destruct (parse_within aiResponse) as [Hh Hs]. split; [done|].
    cbn in *. tauto.
  - split; cbn; tauto.
  - split; cbn; tauto.
Qed.

(** X15.  Every response of the three handlers, the error responses
    included, carries the three CORS headers (any origin, the methods
    POST and OPTIONS, the headers Content-Type and Authorization), and
    its status is one of 200, 400, 401, 405, 422 and 500; the handler
    that stores the load never answers 422. *)
Theorem responses_within_contract (JSON_parse : jsstring → option value)
  (w : world) env req :
  within [200; 400; 401; 405; 422; 500]%Z (run w (HandlerToken.handler env req)).2
  ∧ within [200; 400; 401; 405; 422; 500]%Z
      (run w (HandlerPassword.handler env req)).2
  ∧ within [200; 400; 401; 405; 500]%Z
      (run w (HandlerJson.handler JSON_parse env req)).2.
Proof.
  assert (∀ P pdf, within [200; 400; 401; 405; 422; 500]%Z
                     (run w (extract P pdf)).2) as Hext.
  { intros P pdf. destruct (extract_within w P pdf) as [Hh Hs].
    split; [done|]. cbn in *. tauto. }
  split; [|split].
  - unfold HandlerToken.handler.
    destruct (bool_decide _); [split; cbn; tauto|].
    destruct (negb (bool_decide _)); [split; cbn; tauto|].
    rewrite run_bind. cbn [snd].
    destruct (run w (verifyUser (authorization req))).2;
      [split; cbn; tauto|].
    destruct (get (body req) "pdfBase64"); [|split; cbn; tauto].
    destruct (negb (ToBoolean _)); [split; cbn; tauto|]. apply Hext.
  - unfold HandlerPassword.handler.
    destruct (bool_decide _); [split; cbn; tauto|].
    destruct (negb (bool_decide _)); [split; cbn; tauto|].
    destruct (get (body req) "pdfBase64"); [|split; cbn; tauto].
    destruct (get (body req) "password"); [|split; cbn; tauto].
    destruct (negb (strict_eq_string _ _)); [split; cbn; tauto|].
    destruct (negb (ToBoolean _)); [split; cbn; tauto|]. apply Hext.
  - unfold HandlerJson.handler.
    destruct (bool_decide _); [split; cbn; tauto|].
    destruct (negb (bool_decide _)); [split; cbn; tauto|].
    rewrite run_bind. cbn [snd].
    destruct (run w (verifyUser (authorization req))).2 as [e|user];
      [split; cbn; tauto|].
    destruct (get (body req) "pdfBase64"); [|split; cbn; tauto].
    destruct (get (body req) "fileName"); [|split; cbn; tauto].
    destruct (negb (ToBoolean _)); [split; cbn; tauto|].
    rewrite run_bind, run_call. cbn [fst snd].
    destruct (w _ _) as [content_0_text|message|other Hother message];
      [|split; cbn; tauto..].
    unfold HandlerJson.store.
    destruct (JSON_parse _) as [loadData|]; [|split; cbn; tauto].
    destruct (get loadData "load_number"); [|split; cbn; tauto].
    rewrite run_bind, run_call. cbn [fst snd].
    destruct (HandlerJson.loadRecord _ _ _ _); [|split; cbn; tauto].
    rewrite run_bind, run_call. cbn [fst snd].
    destruct (ToBoolean _); split; cbn; tauto.
Qed.

(** ** Requests without a body, and failures of the model *)

(** X16.  A POST without a body ends in the catch of each handler,
    where reading [pdfBase64] of it throws: the password handler logs
    the TypeError and answers 500 before any other call, the two
    token-authenticated handlers do so once the user is verified; the
    delimited-line handlers return the message of the TypeError in
    [details], the handler that stores the load does not. *)
Theorem request_without_body (JSON_parse : jsstring → option value)
  (w : world) env req :
  method req = lit "POST" →
  body req = VUndefined ∨ body req = VNull →
  let logged :=
    existT _ (console_error "Parse error:" (VString (TypeError_message env)))
    : made in
  run w (HandlerPassword.handler env req)
  = ([logged], json 500 (failed_to_parse_pdf (TypeError_message env)))
  ∧ ∀ user,
      (run w (verifyUser (authorization req))).2 = inr user →
      run w (HandlerToken.handler env req)
      = ((run w (verifyUser (authorization req))).1 ++ [logged],
         json 500 (failed_to_parse_pdf (TypeError_message env)))
      ∧ run w (HandlerJson.handler JSON_parse env req)
        = ((run w (verifyUser (authorization req))).1 ++ [logged],
           json 500 failed_to_process_body).
Proof.
  intros Hm Hb logged.
  assert (∀ k, get (body req) k = None) as Hget.
  { intros k. by destruct Hb as [-> | ->]. }
  split.
  - unfold HandlerPassword.handler. post_request Hm. by rewrite !Hget.
  - intros user Hu. split.
    + unfold HandlerToken.handler. post_request Hm.
      rewrite run_bind. cbn [fst snd]. by rewrite Hu, Hget.
    + unfold HandlerJson.handler. post_request Hm.
      rewrite run_bind. cbn [fst snd]. by rewrite Hu, !Hget.
Qed.

Lemma request_without_body_witness :
  run scenario_world
    (HandlerPassword.handler no_password
       {| method := lit "POST"; authorization := None; body := VUndefined |})
  = ([existT _ (console_error "Parse error:" (VString (lit "TypeError")))],
     json 500 (failed_to_parse_pdf (lit "TypeError"))).
Proof.
  exact (proj1 (request_without_body (fun _ => None) scenario_world no_password
                  {| method := lit "POST"; authorization := None;
                     body := VUndefined |}
                  eq_refl (or_introl eq_refl))).
Defined.

(** X17.  When its model call fails (the promise is rejected, or the
    answer has no first block), the handler that stores the load logs
    the error and answers 500 with a fixed message; when the first block
    of the answer has no string under [text], it logs that value and
    answers 500 with the message of the inner catch.  In both cases the
    message of the error is not in the response, nothing is parsed and
    the database is not called. *)
Theorem model_failure_not_detailed (JSON_parse : jsstring → option value)
  (w : world) env req user pdfBase64 fileName :
  method req = lit "POST" →
  (run w (verifyUser (authorization req))).2 = inr user →
  get (body req) "pdfBase64" = Some pdfBase64 →
  ToBoolean pdfBase64 = true →
  get (body req) "fileName" = Some fileName →
  let asked : made :=
    existT _ (anthropic_messages_create (json_request pdfBase64)) in
  let answer := w _ (anthropic_messages_create (json_request pdfBase64)) in
  (∀ message,
     answer = Rejected message →
     run w (HandlerJson.handler JSON_parse env req)
     = ((run w (verifyUser (authorization req))).1
        ++ [asked; existT _ (console_error "Parse error:" (VString message))],
        json 500 failed_to_process_body))
  ∧ (∀ content_0_text not_string message,
       answer = NoText content_0_text not_string message →
       run w (HandlerJson.handler JSON_parse env req)
       = ((run w (verifyUser (authorization req))).1
          ++ [asked;
              existT _ (console_error "Failed to parse Claude response:"
                          content_0_text)],
          json 500 failed_to_parse_data)).
Proof.
  intros Hm Hu Hpdf Ht Hf asked answer.
  assert (run w (HandlerJson.handler JSON_parse env req)
          = ((run w (verifyUser (authorization req))).1
             ++ asked
                :: (run w
                      match answer with
                      | Rejected message => HandlerJson.failed_to_process message
                      | NoText content_0_text _ _ =>
                          HandlerJson.unreadable content_0_text
                      | Resolved content_0_text =>
                          HandlerJson.store JSON_parse env user fileName
                            content_0_text
                      end).1,
             (run w
                match answer with
                | Rejected message => HandlerJson.failed_to_process message
                | NoText content_0_text _ _ =>
                    HandlerJson.unreadable content_0_text
                | Resolved content_0_text =>
                    HandlerJson.store JSON_parse env user fileName
                      content_0_text
                end).2)) as E.
  { unfold HandlerJson.handler. post_request Hm.
    rewrite run_bind. cbn [fst snd]. rewrite Hu, Hpdf, Hf, Ht. cbn [negb].
    by rewrite run_bind, run_call. }
  split.
  - intros message Hw. by rewrite E, Hw.
  - intros content_0_text not_string message Hw. by rewrite E, Hw.
Qed.

Lemma model_failure_not_detailed_witness :
  (run failing_world
     (HandlerJson.handler (fun _ => None) no_password scenario_request)).2
  = json 500 failed_to_process_body
  ∧ (run no_text_world
       (HandlerJson.handler (fun _ => None) no_password scenario_request)).2
    = json 500 failed_to_parse_data.
Proof.
  split.
  - by rewrite (proj1 (model_failure_not_detailed (fun _ => None) failing_world
                         no_password scenario_request
                         (object [ ("id", str "user-1") ]%string)
                         (str "JVBERi0x") (str "rc.pdf")
                         eq_refl eq_refl eq_refl eq_refl eq_refl)
                  (lit "overloaded") eq_refl).
  - by rewrite (proj2 (model_failure_not_detailed (fun _ => None) no_text_world
                         no_password scenario_request
                         (object [ ("id", str "user-1") ]%string)
                         (str "JVBERi0x") (str "rc.pdf")
                         eq_refl eq_refl eq_refl eq_refl eq_refl)
                  VUndefined eq_refl (lit "TypeError") eq_refl).
Defined.

(** * Properties of the loads endpoint *)

Lemma loads_run_bind {R S} (w : Loads.world) (p : Loads.prog R)
  (f : R → Loads.prog S) :
  Loads.run w (p ≫= f) =
    ((Loads.run w p).1 ++ (Loads.run w (f (Loads.run w p).2)).1,
     (Loads.run w (f (Loads.run w p).2)).2).
Proof.
  change (p ≫= f) with (Loads.bind p f).
  induction p as [r|X e k IH]; cbn [Loads.bind Loads.run fst snd app].
  - by destruct (Loads.run w (f r)).
  - rewrite IH. destruct (Loads.run w (k (w X e))) as [t r]. cbn [fst snd].
    by destruct (Loads.run w (f r)).
Qed.

Lemma loads_run_call {X} (w : Loads.world) (e : Loads.event X) :
  Loads.run w (Loads.call e) = ([existT X e], w X e).
Proof. reflexivity. Qed.

Lemma database_calls_app t1 t2 :
  database_calls (t1 ++ t2) = database_calls t1 ++ database_calls t2.
Proof. apply omap_app. Qed.

(** What [verifyUser] of the loads endpoint does: nothing without a
    bearer token, one call of the identity provider with one, and a
    user with the token only when the provider vouched for it. *)
Lemma loads_verifyUser_cases (w : Loads.world) authHeader :
  (∃ e, Loads.run w (Loads.verifyUser authHeader) = ([], inl e))
  ∨ ∃ token,
      authHeader = Some (lit "Bearer " ++ token)
      ∧ (Loads.run w (Loads.verifyUser authHeader)).1
        = [existT _ (Loads.auth_getUser token)]
      ∧ ((∃ e, (Loads.run w (Loads.verifyUser authHeader)).2 = inl e)
         ∨ (Loads.run w (Loads.verifyUser authHeader)).2
           = inr (data_user (w _ (Loads.auth_getUser token)), token)
           ∧ ToBoolean (data_user (w _ (Loads.auth_getUser token))) = true
           ∧ ToBoolean (getUser_error (w _ (Loads.auth_getUser token)))
             = false).
Proof.
  unfold Loads.verifyUser. destruct authHeader as [h|]; [|left; by eexists].
  destruct (negb (ToBoolean (VString h))); [left; by eexists|].
  destruct (starts_with (lit "Bearer ") h) eqn:Hb; [|left; by eexists].
  cbn [negb orb]. right. exists (drop 7 h).
  split; [f_equal; exact (starts_with_app _ _ Hb)|].
  rewrite loads_run_bind, loads_run_call. cbn [fst snd app].
  destruct (ToBoolean (getUser_error _)) eqn:He;
    [split; [done|]; left; by eexists|].
  destruct (ToBoolean (data_user _)) eqn:Hu;
    [|split; [done|]; left; by eexists].
  split; [done|]. by right.
Qed.

Lemma loads_verifyUser_no_database (w : Loads.world) authHeader :
  database_calls (Loads.run w (Loads.verifyUser authHeader)).1 = [].
Proof.
  destruct (loads_verifyUser_cases w authHeader)
    as [[e ->] | (token & _ & -> & _)]; done.
Qed.

(** X18.  The loads endpoint authenticates before it looks at the
    method: a request other than OPTIONS that [verifyUser] turns down
    gets 401 with its message, also for a method the endpoint does not
    serve, and the database is not called. *)
Theorem loads_authentication_first (w : Loads.world) env req e :
  Loads.method req ≠ lit "OPTIONS" →
  (Loads.run w (Loads.verifyUser (Loads.authorization req))).2 = inl e →
  Loads.run w (Loads.handler env req)
  = ((Loads.run w (Loads.verifyUser (Loads.authorization req))).1,
     Loads.json 401 (object [ ("error", VString e) ]%string))
  ∧ database_calls (Loads.run w (Loads.handler env req)).1 = [].
Proof.
  intros Hm He.
  assert (Loads.run w (Loads.handler env req)
          = ((Loads.run w (Loads.verifyUser (Loads.authorization req))).1,
             Loads.json 401 (object [ ("error", VString e) ]%string))) as E.
  { unfold Loads.handler. rewrite (bool_decide_eq_false_2 _ Hm).
    rewrite loads_run_bind, He. cbn [Loads.run fst snd].
    by rewrite app_nil_r. }
  split; [done|]. rewrite E. apply loads_verifyUser_no_database.
Qed.

Lemma loads_authentication_first_witness :
  Loads.run loads_scenario
    (Loads.handler no_password
       {| Loads.method := lit "PATCH"; Loads.authorization := None;
          Loads.query := no_query; Loads.body := VUndefined |})
  = ([], Loads.json 401 (unauthorized "No authorization token provided")).
Proof.
  exact (proj1 (loads_authentication_first loads_scenario no_password
                  {| Loads.method := lit "PATCH"; Loads.authorization := None;
                     Loads.query := no_query; Loads.body := VUndefined |}
                  (lit "No authorization token provided")
                  ltac:(done) eq_refl)).
Defined.

(** The database calls of the four operations. *)
Lemma getLoads_database (w : Loads.world) token req :
  database_calls (Loads.run w (Loads.getLoads token req)).1 = [token].
Proof.
  unfold Loads.getLoads. destruct (Loads.truthy _).
  - rewrite loads_run_bind, loads_run_call. cbn [fst snd].
    by destruct (ToBoolean _).
  - rewrite loads_run_bind, loads_run_call. cbn [fst snd].
    by destruct (ToBoolean _).
Qed.

Lemma createLoad_database (w : Loads.world) token user req :
  database_calls (Loads.run w (Loads.createLoad token user req)).1 = [token]
  ∨ database_calls (Loads.run w (Loads.createLoad token user req)).1 = [].
Proof.
  unfold Loads.createLoad. destruct (get user "id"); [left|by right].
  rewrite loads_run_bind, loads_run_call. cbn [fst snd].
  rewrite loads_run_bind, loads_run_call. cbn [fst snd].
  by destruct (ToBoolean _).
Qed.

Lemma updates_of_database (w : Loads.world) body :
  database_calls (Loads.run w (Loads.updates_of body)).1 = [].
Proof. by destruct body. Qed.

Lemma updateLoad_database (w : Loads.world) token req :
  database_calls (Loads.run w (Loads.updateLoad token req)).1 = [token]
  ∨ database_calls (Loads.run w (Loads.updateLoad token req)).1 = [].
Proof.
  unfold Loads.updateLoad. destruct (Loads.truthy _); [|by right].
  rewrite loads_run_bind. cbn [fst snd]. rewrite database_calls_app.
  rewrite updates_of_database. cbn [app].
  destruct (Loads.run w (Loads.updates_of (Loads.body req))).2; [left|by right].
  rewrite loads_run_bind, loads_run_call. cbn [fst snd].
  by destruct (ToBoolean _).
Qed.

Lemma deleteLoad_database (w : Loads.world) token req :
  database_calls (Loads.run w (Loads.deleteLoad token req)).1 = [token]
  ∨ database_calls (Loads.run w (Loads.deleteLoad token req)).1 = [].
Proof.
  unfold Loads.deleteLoad. destruct (Loads.truthy _); [left|by right].
  rewrite loads_run_bind, loads_run_call. cbn [fst snd].
  by destruct (ToBoolean _).
Qed.

Lemma dispatch_database (w : Loads.world) token user req :
  database_calls (Loads.run w (Loads.dispatch token user req)).1 = [token]
  ∨ database_calls (Loads.run w (Loads.dispatch token user req)).1 = [].
Proof.
  unfold Loads.dispatch.
  destruct (bool_decide (Loads.method req = lit "GET")).
  { left. rewrite loads_run_bind. cbn [fst Loads.run]. rewrite app_nil_r.
    apply getLoads_database. }
  destruct (bool_decide (Loads.method req = lit "POST")).
  { apply createLoad_database. }
  destruct (bool_decide (Loads.method req = lit "PUT")).
  { apply updateLoad_database. }
  destruct (bool_decide (Loads.method req = lit "DELETE")); [|by right].
  rewrite loads_run_bind. cbn [fst Loads.run]. rewrite app_nil_r.
  apply deleteLoad_database.
Qed.

(** X19.  In one request the loads endpoint calls the database at most
    once, and only through the client that carries the token of the
    request: the token is what follows [Bearer ] in the header, and the
    identity provider has answered for it with a user and no error. *)
Theorem database_called_with_vouched_token (w : Loads.world) env req :
  database_calls (Loads.run w (Loads.handler env req)).1 = []
  ∨ ∃ token,
      Loads.authorization req = Some (lit "Bearer " ++ token)
      ∧ ToBoolean (data_user (w _ (Loads.auth_getUser token))) = true
      ∧ ToBoolean (getUser_error (w _ (Loads.auth_getUser token))) = false
      ∧ database_calls (Loads.run w (Loads.handler env req)).1 = [token].
Proof.
  unfold Loads.handler.
  destruct (bool_decide (Loads.method req = lit "OPTIONS")); [by left|].
  rewrite loads_run_bind. cbn [fst]. rewrite database_calls_app.
  rewrite loads_verifyUser_no_database. cbn [app].
  destruct (loads_verifyUser_cases w (Loads.authorization req))
    as [[e ->] | (token & Hh & _ & [[e ->] | (-> & Hu & He)])];
    [by left..|].
  rewrite loads_run_bind. cbn [fst]. rewrite database_calls_app.
  assert (∀ r : option Response,
            database_calls
              (Loads.run w
                 match r with
                 | Some response => Loads.Ret response
                 | None =>
                     Loads.call (Loads.console_error "Loads API error:"
                                   (VString (TypeError_message env))) ;;
                     Loads.Ret (Loads.json 500
                                  (object [ ("error", str "Internal server error") ]%string))
                 end).1 = []) as Hend by (by intros [r|]).
  rewrite Hend, app_nil_r.
  destruct (dispatch_database w token
              (data_user (w _ (Loads.auth_getUser token))) req) as [E | E];
    [|by left].
  right. by exists token.
Qed.

(** After the authentication has passed: the run of the handler is the
    run of the operation, with the catch around it. *)
Lemma loads_handler_dispatch (w : Loads.world) env req user token :
  Loads.method req ≠ lit "OPTIONS" →
  (Loads.run w (Loads.verifyUser (Loads.authorization req))).2
  = inr (user, token) →
  Loads.run w (Loads.handler env req)
  = let auth := (Loads.run w (Loads.verifyUser (Loads.authorization req))).1 in
    let op := Loads.run w (Loads.dispatch token user req) in
    match op.2 with
    | Some response => (auth ++ op.1, response)
    | None =>
        (auth ++ op.1
         ++ [existT _ (Loads.console_error "Loads API error:"
                         (VString (TypeError_message env)))],
         Loads.json 500 internal_server_error)
    end.
Proof.
  intros Hm Hu. unfold Loads.handler. rewrite (bool_decide_eq_false_2 _ Hm).
  rewrite loads_run_bind, Hu. cbn [fst snd].
  rewrite loads_run_bind. cbn [fst snd].
  destruct (Loads.run w (Loads.dispatch token user req)).2;
    cbn [Loads.run fst snd]; by rewrite ?app_nil_r.
Qed.

Lemma loads_verified_truthy (w : Loads.world) authHeader user token :
  (Loads.run w (Loads.verifyUser authHeader)).2 = inr (user, token) →
  ToBoolean user = true.
Proof.
  destruct (loads_verifyUser_cases w authHeader)
    as [[e ->] | (t & _ & _ & [[e ->] | (-> & Hu & _)])]; try done.
  by intros [= <- _].
Qed.

Lemma loads_inserted_app t1 t2 :
  loads_inserted (t1 ++ t2) = loads_inserted t1 ++ loads_inserted t2.
Proof. apply omap_app. Qed.

Lemma loads_updated_app t1 t2 :
  loads_updated (t1 ++ t2) = loads_updated t1 ++ loads_updated t2.
Proof. apply omap_app. Qed.

Lemma loads_ranges_app t1 t2 :
  loads_ranges (t1 ++ t2) = loads_ranges t1 ++ loads_ranges t2.
Proof. apply omap_app. Qed.

Lemma loads_verifyUser_trace (w : Loads.world) authHeader :
  loads_inserted (Loads.run w (Loads.verifyUser authHeader)).1 = []
  ∧ loads_updated (Loads.run w (Loads.verifyUser authHeader)).1 = []
  ∧ loads_ranges (Loads.run w (Loads.verifyUser authHeader)).1 = [].
Proof.
  destruct (loads_verifyUser_cases w authHeader)
    as [[e ->] | (token & _ & -> & _)]; done.
Qed.

(** One step after the other of a run. *)
Ltac loads_run :=
  repeat first [ rewrite loads_run_bind | rewrite loads_run_call
               | progress cbn [Loads.run fst snd] ].

(** The method tests of [dispatch], for a given method. *)
Ltac loads_method Hm :=
  unfold Loads.dispatch; rewrite Hm;
  repeat (rewrite bool_decide_eq_false_2 by done);
  rewrite bool_decide_eq_true_2 by done.

(** X20.  The record that a POST with an object as body stores is that
    object with two properties set by the server: [user_id] is the id
    of the authenticated user and [created_at] the time of the clock,
    whatever the body has under these names; every other property of
    the body is stored as it was sent, and nothing else is.  The answer
    is 201 with the stored row, or 500 when the database reports an
    error. *)
Theorem created_load_owned_by_user (w : Loads.world) env req user token o :
  Loads.method req = lit "POST" →
  (Loads.run w (Loads.verifyUser (Loads.authorization req))).2
  = inr (user, token) →
  Loads.body req = VObject o →
  ∃ record,
    loads_inserted (Loads.run w (Loads.handler env req)).1 = [record]
    ∧ record !! lit "user_id" = Some (default VUndefined (get user "id"))
    ∧ record !! lit "created_at" = Some (VString (w _ Loads.Date_toISOString))
    ∧ (∀ k, k ≠ lit "user_id" → k ≠ lit "created_at" → record !! k = o !! k)
    ∧ (Loads.run w (Loads.handler env req)).2
      = (let r := w _ (Loads.insert token record) in
         if ToBoolean (Loads.error r)
         then Loads.json 500 (failed "Failed to create load")
         else Loads.json 201 (load_body (Loads.data r))).
Proof.
  intros Hm Hu Hbody.
  pose proof (loads_verified_truthy _ _ _ _ Hu) as Ht.
  assert (∃ user_id, get user "id" = Some user_id) as [user_id Hid].
  { destruct user; try done; by eexists. }
  rewrite (loads_handler_dispatch w env req user token ltac:(by rewrite Hm) Hu).
  loads_method Hm. unfold Loads.createLoad. rewrite Hid, Hbody.
  cbn [Loads.spread].
  set (record := <[lit "created_at" := VString (w _ Loads.Date_toISOString)]>
                   (<[lit "user_id" := user_id]> o)).
  exists record.
  rewrite loads_run_bind, loads_run_call. cbn [fst snd].
  rewrite loads_run_bind, loads_run_call. cbn [fst snd]. fold record.
  destruct (loads_verifyUser_trace w (Loads.authorization req)) as (Hi & _).
  assert (record !! lit "user_id" = Some user_id) as Huid.
  { subst record. by rewrite lookup_insert_ne, lookup_insert_eq. }
  repeat split.
  - destruct (ToBoolean (Loads.error _)); loads_run;
      rewrite loads_inserted_app, Hi; reflexivity.
  - done.
  - subst record. by rewrite lookup_insert_eq.
  - intros k H1 H2. subst record. by rewrite !lookup_insert_ne.
  - by destruct (ToBoolean (Loads.error _)); loads_run.
Qed.

Lemma created_load_owned_by_user_witness :
  ∃ record,
    loads_inserted
      (Loads.run loads_scenario
         (Loads.handler no_password
            (loads_request "POST" no_query
               (object [ ("user_id", str "user-2");
                         ("load_number", str "LD100") ]%string)))).1
    = [record]
    ∧ record !! lit "user_id" = Some (str "user-1")
    ∧ record !! lit "load_number" = Some (str "LD100").
Proof.
  pose (o := list_to_map [ (lit "user_id", str "user-2");
                           (lit "load_number", str "LD100") ]
             : gmap jsstring value).
  destruct (created_load_owned_by_user loads_scenario no_password
              (loads_request "POST" no_query (VObject o))
              (object [ ("id", str "user-1") ]%string) (lit "token-1") o
              eq_refl eq_refl eq_refl) as (record & E & Hu & _ & Hk & _).
  exists record. split; [exact E|]. split; [exact Hu|].
  rewrite Hk by done. by vm_compute.
Defined.

(** X21.  What a PUT sends to the database, when the body is an object,
    is the body without [id], [user_id] and [created_at], with
    [updated_at] set to the time of the clock, and with every other
    property as it was sent; the row is the one of the [id] parameter.
    The answer is 200 with the updated row, or 500 when the database
    reports an error. *)
Theorem update_keeps_protected_fields (w : Loads.world) env req user token i o :
  Loads.method req = lit "PUT" →
  (Loads.run w (Loads.verifyUser (Loads.authorization req))).2
  = inr (user, token) →
  Loads.truthy (Loads.id (Loads.query req)) = Some i →
  Loads.body req = VObject o →
  ∃ updates,
    loads_updated (Loads.run w (Loads.handler env req)).1
    = [(Loads.TObject updates, Loads.param_value i)]
    ∧ updates !! lit "id" = None
    ∧ updates !! lit "user_id" = None
    ∧ updates !! lit "created_at" = None
    ∧ updates !! lit "updated_at" = Some (VString (w _ Loads.Date_toISOString))
    ∧ (∀ k, k ≠ lit "id" → k ≠ lit "user_id" → k ≠ lit "created_at" →
            k ≠ lit "updated_at" → updates !! k = o !! k)
    ∧ (Loads.run w (Loads.handler env req)).2
      = (let r := w _ (Loads.update token (Loads.TObject updates)
                         (Loads.param_value i)) in
         if ToBoolean (Loads.error r)
         then Loads.json 500 (failed "Failed to update load")
         else Loads.json 200 (load_body (Loads.data r))).
Proof.
  intros Hm Hu Hi Hb.
  rewrite (loads_handler_dispatch w env req user token ltac:(by rewrite Hm) Hu).
  loads_method Hm. unfold Loads.updateLoad. rewrite Hi, Hb.
  cbn [Loads.updates_of].
  set (updates := <[lit "updated_at" := VString (w _ Loads.Date_toISOString)]>
                    (Loads.strip o)).
  exists updates.
  rewrite loads_run_bind. rewrite loads_run_bind, loads_run_call.
  cbn [fst snd Loads.run app]. fold updates.
  rewrite loads_run_bind, loads_run_call. cbn [fst snd].
  destruct (loads_verifyUser_trace w (Loads.authorization req)) as (_ & Hup & _).
  repeat split.
  - destruct (ToBoolean (Loads.error _)); loads_run;
      rewrite loads_updated_app, Hup; reflexivity.
  - subst updates. unfold Loads.strip.
    rewrite lookup_insert_ne by done.
    by rewrite !lookup_delete_ne, lookup_delete_eq by done.
  - subst updates. unfold Loads.strip.
    rewrite lookup_insert_ne by done.
    by rewrite lookup_delete_ne, lookup_delete_eq by done.
  - subst updates. unfold Loads.strip.
    rewrite lookup_insert_ne by done. by rewrite lookup_delete_eq.
  - subst updates. by rewrite lookup_insert_eq.
  - intros k H1 H2 H3 H4. subst updates. unfold Loads.strip.
    by rewrite lookup_insert_ne, !lookup_delete_ne.
  - by destruct (ToBoolean (Loads.error _)); loads_run.
Qed.

Lemma update_keeps_protected_fields_witness :
  ∃ updates,
    loads_updated
      (Loads.run loads_scenario
         (Loads.handler no_password
            (loads_request "PUT" (query_id "row-1")
               (object [ ("user_id", str "user-2");
                         ("notes", str "call first") ]%string)))).1
    = [(Loads.TObject updates, str "row-1")]
    ∧ updates !! lit "user_id" = None
    ∧ updates !! lit "notes" = Some (str "call first").
Proof.
  pose (o := list_to_map [ (lit "user_id", str "user-2");
                           (lit "notes", str "call first") ]
             : gmap jsstring value).
  destruct (update_keeps_protected_fields loads_scenario no_password
              (loads_request "PUT" (query_id "row-1") (VObject o))
              (object [ ("id", str "user-1") ]%string) (lit "token-1")
              (Loads.One (lit "row-1")) o
              eq_refl eq_refl eq_refl eq_refl)
    as (updates & E & _ & Hu & _ & _ & Hk & _).
  exists updates. split; [exact E|]. split; [exact Hu|].
  rewrite Hk by done. by vm_compute.
Defined.

(** X22.  A PUT or a DELETE without a truthy [id] parameter, the empty
    string included, is answered 400 after the authentication and
    nothing else is done: no clock reading, no database call. *)
Theorem load_id_required_first (w : Loads.world) env req user token :
  Loads.method req = lit "PUT" ∨ Loads.method req = lit "DELETE" →
  (Loads.run w (Loads.verifyUser (Loads.authorization req))).2
  = inr (user, token) →
  Loads.param_truthy (Loads.id (Loads.query req)) = false →
  Loads.run w (Loads.handler env req)
  = ((Loads.run w (Loads.verifyUser (Loads.authorization req))).1,
     Loads.json 400 load_id_required).
Proof.
  intros Hm Hu Hi.
  assert (Loads.method req ≠ lit "OPTIONS") as Ho by (by destruct Hm as [-> | ->]).
  rewrite (loads_handler_dispatch w env req user token Ho Hu).
  destruct Hm as [Hm | Hm]; loads_method Hm.
  - unfold Loads.updateLoad, Loads.truthy. rewrite Hi.
    cbn [Loads.run fst snd]. by rewrite app_nil_r.
  - unfold Loads.deleteLoad, Loads.truthy. rewrite Hi. loads_run.
    by rewrite app_nil_r.
Qed.

Lemma load_id_required_first_witness :
  (Loads.run loads_scenario
     (Loads.handler no_password
        (loads_request "DELETE" (query_id EmptyString) VUndefined))).2
  = Loads.json 400 load_id_required.
Proof.
  by rewrite (load_id_required_first loads_scenario no_password
                (loads_request "DELETE" (query_id EmptyString) VUndefined)
                (object [ ("id", str "user-1") ]%string) (lit "token-1")
                (or_intror eq_refl) eq_refl eq_refl).
Defined.

(** X23.  A PUT whose body is neither an object nor an array (no body,
    [null], a string, a number, a boolean) ends in the catch of the
    handler: the error is logged, the answer is 500, and the database
    is not called. *)
Theorem update_without_object_fails (w : Loads.world) env req user token i :
  Loads.method req = lit "PUT" →
  (Loads.run w (Loads.verifyUser (Loads.authorization req))).2
  = inr (user, token) →
  Loads.truthy (Loads.id (Loads.query req)) = Some i →
  (∀ o, Loads.body req ≠ VObject o) →
  (∀ l, Loads.body req ≠ VArray l) →
  (Loads.run w (Loads.handler env req)).2
  = Loads.json 500 internal_server_error
  ∧ last (Loads.run w (Loads.handler env req)).1
    = Some (existT _ (Loads.console_error "Loads API error:"
                        (VString (TypeError_message env))))
  ∧ database_calls (Loads.run w (Loads.handler env req)).1 = [].
Proof.
  intros Hm Hu Hi Ho Ha.
  rewrite (loads_handler_dispatch w env req user token ltac:(by rewrite Hm) Hu).
  loads_method Hm. unfold Loads.updateLoad. rewrite Hi.
  pose proof (loads_verifyUser_no_database w (Loads.authorization req)) as Hd.
  destruct (Loads.body req) as [| |b|x|s|l|o];
    try (by destruct (Ho o)); try (by destruct (Ha l));
    cbn [Loads.updates_of]; loads_run; (split; [done|split]);
    rewrite ?app_nil_r, ?app_assoc, ?last_snoc, ?database_calls_app, ?Hd;
    done.
Qed.

Lemma update_without_object_fails_witness :
  (Loads.run loads_scenario
     (Loads.handler no_password
        (loads_request "PUT" (query_id "row-1") VUndefined))).2
  = Loads.json 500 internal_server_error.
Proof.
  exact (proj1 (update_without_object_fails loads_scenario no_password
                  (loads_request "PUT" (query_id "row-1") VUndefined)
                  (object [ ("id", str "user-1") ]%string) (lit "token-1")
                  (Loads.One (lit "row-1"))
                  eq_refl eq_refl eq_refl ltac:(done) ltac:(done))).
Defined.

(** X24.  A DELETE with an [id] makes one database call after the
    authentication, the deletion of the row of that id through the
    client of the user; the answer is 200, or 500 with the error logged
    when the database reports one. *)
Theorem delete_by_id (w : Loads.world) env req user token i :
  Loads.method req = lit "DELETE" →
  (Loads.run w (Loads.verifyUser (Loads.authorization req))).2
  = inr (user, token) →
  Loads.truthy (Loads.id (Loads.query req)) = Some i →
  let r := w _ (Loads.delete_ token (Loads.param_value i)) in
  Loads.run w (Loads.handler env req)
  = ((Loads.run w (Loads.verifyUser (Loads.authorization req))).1
     ++ existT _ (Loads.delete_ token (Loads.param_value i))
        :: (if ToBoolean (Loads.error r)
            then [existT _ (Loads.console_error "Error deleting load:"
                              (Loads.error r))]
            else []),
     if ToBoolean (Loads.error r)
     then Loads.json 500 (failed "Failed to delete load")
     else Loads.json 200
            (object [ ("message", str "Load deleted successfully") ]%string)).
Proof.
  intros Hm Hu Hi r.
  rewrite (loads_handler_dispatch w env req user token ltac:(by rewrite Hm) Hu).
  loads_method Hm. unfold Loads.deleteLoad. rewrite Hi. loads_run. fold r.
  destruct (ToBoolean (Loads.error r)); loads_run; by rewrite ?app_nil_r.
Qed.

Lemma delete_by_id_witness :
  (Loads.run loads_scenario
     (Loads.handler no_password
        (loads_request "DELETE" (query_id "row-1") VUndefined))).2
  = Loads.json 200
      (object [ ("message", str "Load deleted successfully") ]%string).
Proof.
  by rewrite (delete_by_id loads_scenario no_password
                (loads_request "DELETE" (query_id "row-1") VUndefined)
                (object [ ("id", str "user-1") ]%string) (lit "token-1")
                (Loads.One (lit "row-1")) eq_refl eq_refl eq_refl).
Defined.

(** X25.  A GET with an [id] reads that one row and nothing else: the
    parameters of the list are not looked at and no range query is
    made.  Every error of the database, whatever it is, is answered as
    404, and it is not logged. *)
Theorem load_by_id (w : Loads.world) env req user token i :
  Loads.method req = lit "GET" →
  (Loads.run w (Loads.verifyUser (Loads.authorization req))).2
  = inr (user, token) →
  Loads.truthy (Loads.id (Loads.query req)) = Some i →
  let r := w _ (Loads.select_single token (Loads.param_value i)) in
  Loads.run w (Loads.handler env req)
  = ((Loads.run w (Loads.verifyUser (Loads.authorization req))).1
     ++ [existT _ (Loads.select_single token (Loads.param_value i))],
     if ToBoolean (Loads.error r)
     then Loads.json 404 (failed "Load not found")
     else Loads.json 200 (load_body (Loads.data r))).
Proof.
  intros Hm Hu Hi r.
  rewrite (loads_handler_dispatch w env req user token ltac:(by rewrite Hm) Hu).
  unfold Loads.dispatch. rewrite Hm. rewrite bool_decide_eq_true_2 by done.
  unfold Loads.getLoads. rewrite Hi. loads_run. fold r.
  destruct (ToBoolean (Loads.error r)); loads_run; by rewrite ?app_nil_r.
Qed.

Lemma load_by_id_witness :
  (Loads.run loads_scenario
     (Loads.handler no_password
        (loads_request "GET" (query_id "row-1") VUndefined))).2
  = Loads.json 200 (load_body (object [ ("id", str "row-1") ]%string)).
Proof.
  by rewrite (load_by_id loads_scenario no_password
                (loads_request "GET" (query_id "row-1") VUndefined)
                (object [ ("id", str "user-1") ]%string) (lit "token-1")
                (Loads.One (lit "row-1")) eq_refl eq_refl eq_refl).
Defined.

(** ** The list of loads *)

(** After the authentication, for a GET without [id]: the range query
    and the response. *)
Lemma loads_list (w : Loads.world) env req user token :
  Loads.method req = lit "GET" →
  (Loads.run w (Loads.verifyUser (Loads.authorization req))).2
  = inr (user, token) →
  Loads.param_truthy (Loads.id (Loads.query req)) = false →
  let q := Loads.query req in
  let limit := Loads.parseInt_or 50 (Loads.limit q) in
  let offset := Loads.parseInt_or 0 (Loads.offset q) in
  let to := Loads.sub (Loads.add offset limit) (number_of_Z 1) in
  let status := Loads.param_value <$> Loads.truthy (Loads.status q) in
  let filter :=
    (fun s => Loads.or_filter_of (Loads.param_string s))
      <$> Loads.truthy (Loads.search q) in
  let r := w _ (Loads.select_range token offset to status filter) in
  loads_ranges (Loads.run w (Loads.handler env req)).1
  = [(offset, to, status, filter)]
  ∧ (Loads.run w (Loads.handler env req)).2
    = if ToBoolean (Loads.list_error r)
      then Loads.json 500 (failed "Failed to fetch loads")
      else Loads.json 200 (loads_page r limit offset).
Proof.
  intros Hm Hu Hi q limit offset to status filter r.
  rewrite (loads_handler_dispatch w env req user token ltac:(by rewrite Hm) Hu).
  unfold Loads.dispatch. rewrite Hm. rewrite bool_decide_eq_true_2 by done.
  assert (Loads.truthy (Loads.id (Loads.query req)) = None) as Hn.
  { unfold Loads.truthy. by rewrite Hi. }
  unfold Loads.getLoads. rewrite Hn.
  fold q. fold limit offset. fold to. fold status filter.
  loads_run. fold r.
  destruct (loads_verifyUser_trace w (Loads.authorization req)) as (_ & _ & Hr).
  destruct (ToBoolean (Loads.list_error r)); loads_run;
    rewrite ?app_nil_r, loads_ranges_app, Hr; by split.
Qed.

(** X26.  A GET without [id], [limit] and [offset] asks for the rows 0
    to 49, the latest first, and answers with limit 50 and offset 0.
    The status filter is there when [status] is truthy; the search text
    goes into both patterns of the [or] filter as it was sent. *)
Theorem first_page_by_default (w : Loads.world) env req user token :
  Loads.method req = lit "GET" →
  (Loads.run w (Loads.verifyUser (Loads.authorization req))).2
  = inr (user, token) →
  Loads.param_truthy (Loads.id (Loads.query req)) = false →
  Loads.limit (Loads.query req) = None →
  Loads.offset (Loads.query req) = None →
  let status :=
    Loads.param_value <$> Loads.truthy (Loads.status (Loads.query req)) in
  let filter :=
    (fun s => lit "load_number.ilike.%" ++ Loads.param_string s
              ++ lit "%,broker_name.ilike.%" ++ Loads.param_string s ++ lit "%")
      <$> Loads.truthy (Loads.search (Loads.query req)) in
  let r := w _ (Loads.select_range token (number_of_Z 0) (number_of_Z 49)
                  status filter) in
  loads_ranges (Loads.run w (Loads.handler env req)).1
  = [(number_of_Z 0, number_of_Z 49, status, filter)]
  ∧ (Loads.run w (Loads.handler env req)).2
    = if ToBoolean (Loads.list_error r)
      then Loads.json 500 (failed "Failed to fetch loads")
      else Loads.json 200 (loads_page r (number_of_Z 50) (number_of_Z 0)).
Proof.
  intros Hm Hu Hi Hl Ho status filter r.
  pose proof (loads_list w env req user token Hm Hu Hi) as H.
  cbv zeta in H. rewrite Hl, Ho in H. exact H.
Qed.

Lemma first_page_by_default_witness :
  loads_ranges
    (Loads.run loads_scenario
       (Loads.handler no_password (loads_request "GET" no_query VUndefined))).1
  = [(number_of_Z 0, number_of_Z 49, None, None)].
Proof.
  exact (proj1 (first_page_by_default loads_scenario no_password
                  (loads_request "GET" no_query VUndefined)
                  (object [ ("id", str "user-1") ]%string) (lit "token-1")
                  eq_refl eq_refl eq_refl eq_refl eq_refl)).
Defined.

Lemma parseInt_not_a_numeral s :
  starts_numeral s = false → Loads.parseInt_string s = S754_nan.
Proof.
  unfold starts_numeral, Loads.parseInt_string.
  assert (∀ t, match t with c :: _ => is_digit c | [] => false end = false →
               (if starts_with (lit "0x") t || starts_with (lit "0X") t
                then match (span Loads.is_hex_digit (drop 2 t)).1 with
                     | [] => S754_nan
                     | c :: l => round_ratio false (Loads.hex_value (c :: l)) 1
                     end
                else match (span is_digit t).1 with
                     | [] => S754_nan
                     | c :: l => round_ratio false (digits_value (c :: l)) 1
                     end) = S754_nan
               ∧ (if starts_with (lit "0x") t || starts_with (lit "0X") t
                  then match (span Loads.is_hex_digit (drop 2 t)).1 with
                       | [] => S754_nan
                       | c :: l => round_ratio true (Loads.hex_value (c :: l)) 1
                       end
                  else match (span is_digit t).1 with
                       | [] => S754_nan
                       | c :: l => round_ratio true (digits_value (c :: l)) 1
                       end) = S754_nan) as H.
  { intros [|c t] Hc; [done|].
    assert (starts_with (lit "0x") (c :: t) = false
            ∧ starts_with (lit "0X") (c :: t) = false) as [-> ->].
    { cbn [starts_with lit list_ascii_of_string map].
      destruct (N.eqb_spec (N_of_ascii "0") c) as [<-|]; [done|done]. }
    cbn [orb span]. by rewrite Hc. }
  destruct (trim_start s) as [|c t]; [done|].
  destruct (c =? 43)%N eqn:E1; cbn [orb].
  { intros Hd. exact (proj1 (H t Hd)). }
  destruct (c =? 45)%N eqn:E2.
  { intros Hd. exact (proj2 (H t Hd)). }
  intros Hd. exact (proj1 (H (c :: t) Hd)).
Qed.

Lemma add_nan_r x : Loads.add x S754_nan = S754_nan.
Proof. by destruct x. Qed.

Lemma sub_nan_l y : Loads.sub S754_nan y = S754_nan.
Proof. by destruct y. Qed.

(** X27.  A [limit] that is not a numeral (no digit after the blanks
    and the sign, the empty string included) is not turned down: the
    range query is made with NaN as its upper bound, and a response
    without database error is the 200 one with NaN as its limit. *)
Theorem limit_not_a_number (w : Loads.world) env req user token p :
  Loads.method req = lit "GET" →
  (Loads.run w (Loads.verifyUser (Loads.authorization req))).2
  = inr (user, token) →
  Loads.param_truthy (Loads.id (Loads.query req)) = false →
  Loads.limit (Loads.query req) = Some p →
  starts_numeral (Loads.param_string p) = false →
  ∃ offset status filter,
    loads_ranges (Loads.run w (Loads.handler env req)).1
    = [(offset, S754_nan, status, filter)]
    ∧ (ToBoolean (Loads.list_error
                    (w _ (Loads.select_range token offset S754_nan status filter)))
       = false →
       (Loads.run w (Loads.handler env req)).2
       = Loads.json 200
           (loads_page
              (w _ (Loads.select_range token offset S754_nan status filter))
              S754_nan offset)).
Proof.
  intros Hm Hu Hi Hl Hn.
  pose proof (loads_list w env req user token Hm Hu Hi) as H.
  cbv zeta in H. rewrite Hl in H. cbn [Loads.parseInt_or] in H.
  rewrite (parseInt_not_a_numeral _ Hn) in H.
  rewrite add_nan_r, sub_nan_l in H. destruct H as [Hr Hres].
  eexists _, _, _. split; [exact Hr|].
  intros He. by rewrite Hres, He.
Qed.

Lemma limit_not_a_number_witness :
  ∃ offset status filter,
    loads_ranges
      (Loads.run loads_scenario
         (Loads.handler no_password
            (loads_request "GET" (query_limit "ten") VUndefined))).1
    = [(offset, S754_nan, status, filter)].
Proof.
  destruct (limit_not_a_number loads_scenario no_password
              (loads_request "GET" (query_limit "ten") VUndefined)
              (object [ ("id", str "user-1") ]%string) (lit "token-1")
              (Loads.One (lit "ten"))
              eq_refl eq_refl eq_refl eq_refl eq_refl)
    as (offset & status & filter & E & _).
  by exists offset, status, filter.
Defined.

(** ** Whole numbers as Numbers *)

Lemma digits2_pos_size p : digits2_pos p = Pos.size p.
Proof. induction p as [p IH|p IH|]; cbn; by rewrite ?IH. Qed.

Lemma Zdigits2_log2 n : (0 < n)%Z → Zdigits2 n = (Z.log2 n + 1)%Z.
Proof.
  destruct n as [|p|p]; try lia. intros _. cbn [Zdigits2].
  rewrite digits2_pos_size. destruct p as [p|p|]; cbn; lia.
Qed.

Lemma shr_1_double m :
  (0 < m)%Z →
  shr_1 (Build_shr_record (2 * m) false false) = Build_shr_record m false false.
Proof. destruct m as [|p|p]; try lia. by intros _. Qed.

Lemma pow2_xO p : (2 ^ Z.pos p~0 = 2 ^ Z.pos p * 2 ^ Z.pos p)%Z.
Proof. rewrite <- Z.pow_add_r by lia. f_equal. lia. Qed.

Lemma pow2_xI p : (2 ^ Z.pos p~1 = 2 * (2 ^ Z.pos p * 2 ^ Z.pos p))%Z.
Proof.
  rewrite <- Z.pow_add_r, <- Z.pow_succ_r by lia. f_equal. lia.
Qed.

Lemma iter_shr_1_exact p m :
  (0 < m)%Z →
  SpecFloat.iter_pos shr_1 p (Build_shr_record (m * 2 ^ Z.pos p) false false)
  = Build_shr_record m false false.
Proof.
  revert m. induction p as [p IH|p IH|]; intros m Hm; cbn [SpecFloat.iter_pos].
  - assert (0 < 2 ^ Z.pos p)%Z by (apply Z.pow_pos_nonneg; lia).
    replace (m * 2 ^ Z.pos p~1)%Z with (2 * ((m * 2 ^ Z.pos p) * 2 ^ Z.pos p))%Z
      by (rewrite pow2_xI; lia).
    rewrite shr_1_double by nia. rewrite IH by nia. by apply IH.
  - assert (0 < 2 ^ Z.pos p)%Z by (apply Z.pow_pos_nonneg; lia).
    replace (m * 2 ^ Z.pos p~0)%Z with ((m * 2 ^ Z.pos p) * 2 ^ Z.pos p)%Z
      by (rewrite pow2_xO; lia).
    rewrite IH by nia. by apply IH.
  - change (2 ^ 1)%Z with 2%Z. rewrite Z.mul_comm. by apply shr_1_double.
Qed.

(** A mantissa of 53 bits followed by [j] zero bits is shifted back to
    its 53 bits, exactly. *)
Lemma shr_fexp_normal N E j :
  (2 ^ 52 ≤ N < 2 ^ 53)%Z → (0 ≤ j)%Z → (-1074 ≤ E)%Z →
  shr_fexp prec emax (N * 2 ^ j) (E - j) loc_Exact
  = (Build_shr_record N false false, E).
Proof.
  intros HN Hj HE. unfold shr_fexp.
  assert (Z.log2 N = 52%Z) as HlN.
  { apply Z.log2_unique; lia. }
  assert (Zdigits2 (N * 2 ^ j) = 53 + j)%Z as ->.
  { rewrite Zdigits2_log2 by nia. rewrite Z.log2_mul_pow2 by lia. lia. }
  replace (fexp prec emax (53 + j + (E - j)) - (E - j))%Z with j.
  2:{ unfold fexp, emin, prec, emax. lia. }
  cbn [shr_record_of_loc]. unfold shr.
  destruct j as [|p|p]; [|f_equal; [by apply iter_shr_1_exact; lia|lia]|lia].
  f_equal; [f_equal|]; lia.
Qed.

Lemma binary_round_aux_normal sx N E j :
  (2 ^ 52 ≤ N < 2 ^ 53)%Z → (0 ≤ j)%Z → (-1074 ≤ E ≤ 971)%Z →
  binary_round_aux prec emax sx (N * 2 ^ j) (E - j) loc_Exact
  = S754_finite sx (Z.to_pos N) E.
Proof.
  intros HN Hj HE. unfold binary_round_aux.
  rewrite shr_fexp_normal by lia. cbn [shr_m loc_of_shr_record round_nearest_even].
  pose proof (shr_fexp_normal N E 0 HN ltac:(lia) ltac:(lia)) as H0.
  rewrite Z.mul_1_r, Z.sub_0_r in H0. rewrite H0. cbn [shr_m].
  destruct N as [|p|p]; try lia.
  assert ((E <=? emax - prec)%Z = true) as ->; [|done].
  apply Z.leb_le. unfold emax, prec. lia.
Qed.

(** The 53-bit mantissa and the exponent of a whole number below
    [2 ^ 53]. *)
Lemma normal_mantissa n :
  (0 < n < 2 ^ 53)%Z →
  (2 ^ 52 ≤ n * 2 ^ (52 - Z.log2 n) < 2 ^ 53)%Z ∧ (0 ≤ Z.log2 n ≤ 52)%Z.
Proof.
  intros Hn. pose proof (Z.log2_spec n ltac:(lia)) as [H1 H2].
  assert (0 ≤ Z.log2 n ≤ 52)%Z as Hl.
  { split; [apply Z.log2_nonneg|]. apply Z.lt_succ_r.
    apply (Z.pow_lt_mono_r_iff 2); lia. }
  split; [|done].
  replace (2 ^ 52)%Z with (2 ^ Z.log2 n * 2 ^ (52 - Z.log2 n))%Z.
  2:{ rewrite <- Z.pow_add_r by lia. f_equal. lia. }
  replace (2 ^ 53)%Z with (2 ^ Z.succ (Z.log2 n) * 2 ^ (52 - Z.log2 n))%Z.
  2:{ rewrite <- Z.pow_add_r by lia. f_equal. lia. }
  assert (0 < 2 ^ (52 - Z.log2 n))%Z by (apply Z.pow_pos_nonneg; lia).
  nia.
Qed.

Lemma Pos_iter_xO m d : Z.pos (Pos.iter xO m d) = (Z.pos m * 2 ^ Z.pos d)%Z.
Proof.
  induction d as [|d IH] using Pos.peano_ind.
  - cbn [Pos.iter]. lia.
  - rewrite Pos.iter_succ, Pos2Z.inj_succ, Z.pow_succ_r by lia.
    rewrite Pos2Z.inj_xO, IH. lia.
Qed.

Lemma shl_align_value m e e' :
  (e' ≤ e)%Z →
  Z.pos (shl_align m e e').1 = (Z.pos m * 2 ^ (e - e'))%Z
  ∧ (shl_align m e e').2 = e'.
Proof.
  intros He. unfold shl_align.
  destruct (e' - e)%Z as [|p|p] eqn:E; try lia; cbn [fst snd].
  - replace (e - e')%Z with 0%Z by lia. split; lia.
  - rewrite Pos_iter_xO. replace (e - e')%Z with (Z.pos p) by lia. done.
Qed.

Lemma shl_align_keep m e e' : (e ≤ e')%Z → shl_align m e e' = (m, e).
Proof.
  intros He. unfold shl_align. destruct (e' - e)%Z as [|p|p] eqn:E; try done. lia.
Qed.

(** A whole number below [2 ^ 53], given with any number of zero bits
    after it, rounds to itself. *)
Lemma binary_round_integer sx n e :
  (0 < n < 2 ^ 53)%Z → (-1074 ≤ e ≤ 0)%Z →
  binary_round prec emax sx (Z.to_pos (n * 2 ^ (- e))) e
  = S754_finite sx (Z.to_pos (n * 2 ^ (52 - Z.log2 n))) (Z.log2 n - 52).
Proof.
  intros Hn He. destruct (normal_mantissa n Hn) as [HN Hl].
  assert (0 < 2 ^ (- e))%Z as Hp by (apply Z.pow_pos_nonneg; lia).
  unfold binary_round.
  assert (Z.pos (digits2_pos (Z.to_pos (n * 2 ^ (- e)))) = Z.log2 n - e + 1)%Z
    as Hd.
  { change (Z.pos (digits2_pos ?p)) with (Zdigits2 (Z.pos p)).
    rewrite Z2Pos.id by nia. rewrite Zdigits2_log2 by nia.
    rewrite Z.log2_mul_pow2 by lia. lia. }
  rewrite Hd.
  replace (fexp prec emax (Z.log2 n - e + 1 + e)) with (Z.log2 n - 52)%Z.
  2:{ unfold fexp, emin, prec, emax. lia. }
  destruct (Z_le_gt_dec e (Z.log2 n - 52)) as [Hle | Hgt].
  - rewrite shl_align_keep by done. rewrite Z2Pos.id by nia.
    replace (n * 2 ^ (- e))%Z
      with (n * 2 ^ (52 - Z.log2 n) * 2 ^ (Z.log2 n - 52 - e))%Z.
    2:{ rewrite <- Z.mul_assoc, <- Z.pow_add_r by lia. do 2 f_equal. lia. }
    replace e with (Z.log2 n - 52 - (Z.log2 n - 52 - e))%Z at 2 by lia.
    apply binary_round_aux_normal; lia.
  - destruct (shl_align_value (Z.to_pos (n * 2 ^ (- e))) e (Z.log2 n - 52)
                ltac:(lia)) as [Hv He'].
    destruct (shl_align _ e (Z.log2 n - 52)) as [mz ez]. cbn [fst snd] in *.
    subst ez. rewrite Hv, Z2Pos.id by nia.
    replace (n * 2 ^ (- e) * 2 ^ (e - (Z.log2 n - 52)))%Z
      with (n * 2 ^ (52 - Z.log2 n) * 2 ^ 0)%Z.
    2:{ rewrite Z.pow_0_r, Z.mul_1_r, <- Z.mul_assoc, <- Z.pow_add_r by lia.
        do 2 f_equal. lia. }
    replace (Z.log2 n - 52)%Z with (Z.log2 n - 52 - 0)%Z at 1 by lia.
    apply binary_round_aux_normal; lia.
Qed.

Lemma number_of_Z_pos n :
  (0 < n < 2 ^ 53)%Z →
  number_of_Z n
  = S754_finite false (Z.to_pos (n * 2 ^ (52 - Z.log2 n))) (Z.log2 n - 52).
Proof.
  intros Hn. destruct (normal_mantissa n Hn) as [HN Hl].
  unfold number_of_Z, round_ratio.
  assert ((n <? 0)%Z = false) as -> by (apply Z.ltb_ge; lia).
  rewrite Z.abs_eq by lia.
  destruct n as [|p|p] eqn:En; try lia. rewrite <- En in *.
  unfold SFdiv_core_binary.
  rewrite (Zdigits2_log2 n) by lia. change (Zdigits2 1) with 1%Z.
  replace (Z.min (fexp prec emax (Z.log2 n + 1 + 0 - (1 + 0))) (0 - 0))
    with (Z.log2 n - 53)%Z.
  2:{ unfold fexp, emin, prec, emax. lia. }
  destruct (0 - 0 - (Z.log2 n - 53))%Z as [|s|s] eqn:Es; try lia.
  rewrite Z.shiftl_mul_pow2 by lia.
  pose proof (Z.div_1_r (n * 2 ^ Z.pos s)) as Hq.
  pose proof (Z.mod_1_r (n * 2 ^ Z.pos s)) as Hr.
  unfold Z.div, Z.modulo in Hq, Hr.
  destruct (Z.div_eucl (n * 2 ^ Z.pos s) 1) as [q r]. subst q r.
  change (new_location 1 0) with loc_Exact.
  replace (n * 2 ^ Z.pos s)%Z with (n * 2 ^ (52 - Z.log2 n) * 2 ^ 1)%Z.
  2:{ rewrite <- Z.mul_assoc, <- Z.pow_add_r by lia. do 2 f_equal. lia. }
  replace (Z.log2 n - 53)%Z with (Z.log2 n - 52 - 1)%Z by lia.
  apply binary_round_aux_normal; lia.
Qed.

Lemma number_of_Z_mantissa n :
  (0 < n < 2 ^ 53)%Z →
  Z.pos (Z.to_pos (n * 2 ^ (52 - Z.log2 n))) = (n * 2 ^ (52 - Z.log2 n))%Z.
Proof.
  intros Hn. destruct (normal_mantissa n Hn) as [HN _].
  apply Z2Pos.id. lia.
Qed.

(** The two mantissas of an addition or a subtraction, brought to the
    smaller exponent. *)
Lemma aligned_mantissas a b :
  (0 < a < 2 ^ 53)%Z → (0 < b < 2 ^ 53)%Z →
  let ma := Z.to_pos (a * 2 ^ (52 - Z.log2 a)) in
  let mb := Z.to_pos (b * 2 ^ (52 - Z.log2 b)) in
  let ez := Z.min (Z.log2 a - 52) (Z.log2 b - 52) in
  Z.pos (shl_align ma (Z.log2 a - 52) ez).1 = (a * 2 ^ (- ez))%Z
  ∧ Z.pos (shl_align mb (Z.log2 b - 52) ez).1 = (b * 2 ^ (- ez))%Z
  ∧ (-52 ≤ ez ≤ 0)%Z.
Proof.
  intros Ha Hb ma mb ez.
  destruct (normal_mantissa a Ha) as [_ Hla].
  destruct (normal_mantissa b Hb) as [_ Hlb].
  assert (-52 ≤ ez ≤ 0)%Z as Hez by (subst ez; lia).
  destruct (shl_align_value ma (Z.log2 a - 52) ez ltac:(subst ez; lia)) as [-> _].
  destruct (shl_align_value mb (Z.log2 b - 52) ez ltac:(subst ez; lia)) as [-> _].
  subst ma mb. rewrite !number_of_Z_mantissa by done.
  rewrite <- !Z.mul_assoc, <- !Z.pow_add_r by lia.
  repeat split; try lia; do 2 f_equal; lia.
Qed.

(** The sum of two whole Numbers is the Number of the sum, as long as
    the sum is below [2 ^ 53]. *)
Lemma add_whole a b :
  (0 ≤ a)%Z → (0 ≤ b)%Z → (a + b < 2 ^ 53)%Z →
  Loads.add (number_of_Z a) (number_of_Z b) = number_of_Z (a + b).
Proof.
  intros Ha Hb Hab.
  destruct (Z.eq_dec a 0%Z) as [-> | Ha0].
  { rewrite Z.add_0_l. destruct (Z.eq_dec b 0%Z) as [-> | Hb0]; [done|].
    by rewrite (number_of_Z_pos b) by lia. }
  destruct (Z.eq_dec b 0%Z) as [-> | Hb0].
  { rewrite Z.add_0_r. by rewrite (number_of_Z_pos a) by lia. }
  rewrite (number_of_Z_pos a), (number_of_Z_pos b), (number_of_Z_pos (a + b))
    by lia.
  unfold Loads.add, SFadd. cbn [cond_Zopp].
  destruct (aligned_mantissas a b ltac:(lia) ltac:(lia)) as (Hma & Hmb & Hez).
  cbv zeta in Hma, Hmb, Hez.
  set (ez := Z.min (Z.log2 a - 52) (Z.log2 b - 52)) in *.
  assert (0 < 2 ^ (- ez))%Z as Hp by (apply Z.pow_pos_nonneg; lia).
  rewrite Hma, Hmb, <- Z.mul_add_distr_r.
  destruct ((a + b) * 2 ^ (- ez))%Z as [|p|p] eqn:Ep; try nia.
  cbn [binary_normalize].
  replace p with (Z.to_pos ((a + b) * 2 ^ (- ez))) by (by rewrite Ep).
  apply binary_round_integer; lia.
Qed.

(** The same for a difference that is not negative. *)
Lemma sub_whole a b :
  (0 ≤ b ≤ a)%Z → (a < 2 ^ 53)%Z →
  Loads.sub (number_of_Z a) (number_of_Z b) = number_of_Z (a - b).
Proof.
  intros Hb Ha.
  destruct (Z.eq_dec b 0%Z) as [-> | Hb0].
  { rewrite Z.sub_0_r. destruct (Z.eq_dec a 0%Z) as [-> | Ha0]; [done|].
    by rewrite (number_of_Z_pos a) by lia. }
  rewrite (number_of_Z_pos a), (number_of_Z_pos b) by lia.
  unfold Loads.sub, SFsub. cbn [cond_Zopp].
  destruct (aligned_mantissas a b ltac:(lia) ltac:(lia)) as (Hma & Hmb & Hez).
  cbv zeta in Hma, Hmb, Hez.
  set (ez := Z.min (Z.log2 a - 52) (Z.log2 b - 52)) in *.
  assert (0 < 2 ^ (- ez))%Z as Hp by (apply Z.pow_pos_nonneg; lia).
  rewrite Hma, Hmb, <- Z.mul_sub_distr_r.
  destruct (Z.eq_dec a b) as [<- | Hab].
  { by rewrite Z.sub_diag. }
  rewrite (number_of_Z_pos (a - b)) by lia.
  destruct ((a - b) * 2 ^ (- ez))%Z as [|p|p] eqn:Ep; try nia.
  cbn [binary_normalize].
  replace p with (Z.to_pos ((a - b) * 2 ^ (- ez))) by (by rewrite Ep).
  apply binary_round_integer; lia.
Qed.

Lemma forallb_Forall (p : char16 → bool) s :
  forallb p s = true → Forall (fun c => p c = true) s.
Proof.
  induction s as [|c s IH]; [constructor|]. cbn [forallb].
  intros [Hc Hs]%andb_true_iff. constructor; [done|by apply IH].
Qed.

Lemma is_digit_range c : is_digit c = true → (48 ≤ c ≤ 57)%N.
Proof.
  unfold is_digit. intros [H1 H2]%andb_true_iff.
  apply N.leb_le in H1, H2. lia.
Qed.

Lemma span_forallb p s : forallb p s = true → span p s = (s, []).
Proof.
  induction s as [|c s IH]; [done|]. cbn [forallb span].
  intros [Hc Hs]%andb_true_iff. by rewrite Hc, (IH Hs).
Qed.

(** [parseInt] of a string of digits is the Number of their value. *)
Lemma parseInt_digits ds :
  ds ≠ [] → forallb is_digit ds = true →
  Loads.parseInt_string ds = number_of_Z (digits_value ds).
Proof.
  intros Hne Hd. destruct ds as [|c t]; [done|]. clear Hne.
  pose proof Hd as Hd'. cbn [forallb] in Hd'.
  apply andb_true_iff in Hd' as [Hc Ht].
  unfold Loads.parseInt_string.
  rewrite (trim_start_keep c t (digit_not_white c Hc)).
  assert ((c =? 43)%N = false ∧ (c =? 45)%N = false) as [-> ->].
  { apply is_digit_range in Hc. split; apply N.eqb_neq; lia. }
  assert (starts_with (lit "0x") (c :: t) = false
          ∧ starts_with (lit "0X") (c :: t) = false) as [-> ->].
  { cbn [starts_with lit list_ascii_of_string map].
    destruct t as [|c' t]; [by rewrite !andb_false_r|].
    cbn [forallb] in Ht. apply andb_true_iff in Ht as [Hc' _].
    apply is_digit_range in Hc'.
    assert ((N_of_ascii "x" =? c')%N = false) as ->
      by (apply N.eqb_neq; cbn; lia).
    assert ((N_of_ascii "X" =? c')%N = false) as ->
      by (apply N.eqb_neq; cbn; lia).
    by rewrite !andb_false_r. }
  cbn [orb]. rewrite (span_forallb _ _ Hd). cbn [fst].
  unfold number_of_Z.
  pose proof (digits_value_nonneg (c :: t) (forallb_Forall _ _ Hd)) as Hv.
  assert ((digits_value (c :: t) <? 0)%Z = false) as -> by (apply Z.ltb_ge; lia).
  by rewrite Z.abs_eq by lia.
Qed.

Lemma page_upper_bound o l :
  (0 ≤ o)%Z → (0 ≤ l)%Z → (o + l < 2 ^ 53)%Z →
  Loads.sub (Loads.add (number_of_Z o) (number_of_Z l)) (number_of_Z 1)
  = number_of_Z (o + l - 1).
Proof.
  intros Ho Hl Hol. rewrite add_whole by done.
  destruct (Z.eq_dec (o + l)%Z 0%Z) as [E | E].
  - rewrite E. by vm_compute.
  - apply sub_whole; lia.
Qed.

(** X28.  A GET without [id] whose [limit] and [offset] are strings of
    digits asks for exactly the rows from the offset to the offset plus
    the limit minus one, and answers with that limit and that offset:
    the arithmetic on Numbers is exact as long as the sum is below
    [2 ^ 53]. *)
Theorem page_as_asked (w : Loads.world) env req user token ls os :
  Loads.method req = lit "GET" →
  (Loads.run w (Loads.verifyUser (Loads.authorization req))).2
  = inr (user, token) →
  Loads.param_truthy (Loads.id (Loads.query req)) = false →
  Loads.limit (Loads.query req) = Some (Loads.One ls) →
  Loads.offset (Loads.query req) = Some (Loads.One os) →
  ls ≠ [] → forallb is_digit ls = true →
  os ≠ [] → forallb is_digit os = true →
  (digits_value os + digits_value ls < 2 ^ 53)%Z →
  let limit := digits_value ls in
  let offset := digits_value os in
  ∃ status filter,
    loads_ranges (Loads.run w (Loads.handler env req)).1
    = [(number_of_Z offset, number_of_Z (offset + limit - 1), status, filter)]
    ∧ (ToBoolean
         (Loads.list_error
            (w _ (Loads.select_range token (number_of_Z offset)
                    (number_of_Z (offset + limit - 1)) status filter)))
       = false →
       (Loads.run w (Loads.handler env req)).2
       = Loads.json 200
           (loads_page
              (w _ (Loads.select_range token (number_of_Z offset)
                      (number_of_Z (offset + limit - 1)) status filter))
              (number_of_Z limit) (number_of_Z offset))).
Proof.
  intros Hm Hu Hi Hl Ho Hls Hld Hos Hod Hsum limit offset.
  pose proof (loads_list w env req user token Hm Hu Hi) as H.
  cbv zeta in H. rewrite Hl, Ho in H.
  cbn [Loads.parseInt_or Loads.param_string] in H.
  rewrite (parseInt_digits ls Hls Hld), (parseInt_digits os Hos Hod) in H.
  fold limit offset in H.
  pose proof (digits_value_nonneg ls (forallb_Forall _ _ Hld)) as Hl0.
  pose proof (digits_value_nonneg os (forallb_Forall _ _ Hod)) as Ho0.
  rewrite (page_upper_bound offset limit Ho0 Hl0 Hsum) in H.
  destruct H as [Hr Hres].
  eexists _, _. split; [exact Hr|].
  intros He. by rewrite Hres, He.
Qed.

Lemma page_as_asked_witness :
  ∃ status filter,
    loads_ranges
      (Loads.run loads_scenario
         (Loads.handler no_password
            (loads_request "GET" (query_page "25" "50") VUndefined))).1
    = [(number_of_Z 50, number_of_Z 74, status, filter)].
Proof.
  destruct (page_as_asked loads_scenario no_password
              (loads_request "GET" (query_page "25" "50") VUndefined)
              (object [ ("id", str "user-1") ]%string) (lit "token-1")
              (lit "25") (lit "50")
              eq_refl eq_refl eq_refl eq_refl eq_refl
              ltac:(done) eq_refl ltac:(done) eq_refl ltac:(by vm_compute))
    as (status & filter & E & _).
  by exists status, filter.
Defined.
